(** * Finance tracker: number formatter and entry query engine

    A shallow embedding of the pure logic of the tracker
    ([src/utils/numberToWordsIndian.ts], its recursive sibling, the
    [Entries] and [Dashboard] components and [services/api.ts]) with the
    properties its specification states about it.

    Conventions of the embedding.
    - A JavaScript [number] is a [jsnum]: [NaN], the two infinities, or a
      finite value carried as an exact rational.  Rounding of binary
      floating point is not modelled; the two zeros are identified.
    - A value of type [string | undefined] is an [option string], [None]
      being [undefined].
    - What the language runtime decides and the repository does not (date
      parsing, local-time accessors, [localeCompare], [toLowerCase],
      number/string conversion) is a field of the [Host] record passed to
      the code that uses it. *)

From Stdlib Require Import ZArith QArith Qround Qreduction Qcanon Znumtheory.
From Stdlib Require Import Bool List String Ascii Lia DecimalString.
From Stdlib Require Import Permutation Sorted.
From Equations Require Import Equations.
Import ListNotations.

Local Open Scope string_scope.
Local Open Scope Z_scope.

(** ** JavaScript numbers *)

Module JsNum.

Inductive jsnum : Type :=
| NaN
| PInf
| NInf
| Fin (q : Q).

Definition ofZ (z : Z) : jsnum := Fin (inject_Z z).

(** Truncation towards zero, as used by the remainder operator. *)
Definition Qtrunc (q : Q) : Z :=
  if Qle_bool 0 q then Qfloor q else Qceiling q.

(** The order of two numbers; [None] when either is [NaN]. *)
Definition js_compare (a b : jsnum) : option comparison :=
  match a, b with
  | NaN, _ | _, NaN => None
  | PInf, PInf => Some Eq
  | PInf, _ => Some Gt
  | _, PInf => Some Lt
  | NInf, NInf => Some Eq
  | NInf, _ => Some Lt
  | _, NInf => Some Gt
  | Fin p, Fin q => Some (p ?= q)%Q
  end.

(** [a < b], [a > b], [a <= b], [a >= b] and [a === b]. *)
Definition js_lt (a b : jsnum) : bool :=
  match js_compare a b with Some Lt => true | _ => false end.
Definition js_gt (a b : jsnum) : bool :=
  match js_compare a b with Some Gt => true | _ => false end.
Definition js_le (a b : jsnum) : bool :=
  match js_compare a b with Some Lt | Some Eq => true | _ => false end.
Definition js_ge (a b : jsnum) : bool :=
  match js_compare a b with Some Gt | Some Eq => true | _ => false end.
Definition js_seq (a b : jsnum) : bool :=
  match js_compare a b with Some Eq => true | _ => false end.

Definition js_neg (a : jsnum) : jsnum :=
  match a with
  | NaN => NaN
  | PInf => NInf
  | NInf => PInf
  | Fin q => Fin (- q)
  end.

Definition js_add (a b : jsnum) : jsnum :=
  match a, b with
  | NaN, _ | _, NaN => NaN
  | PInf, NInf | NInf, PInf => NaN
  | PInf, _ | _, PInf => PInf
  | NInf, _ | _, NInf => NInf
  | Fin p, Fin q => Fin (p + q)
  end.

Definition js_sub (a b : jsnum) : jsnum :=
  match a, b with
  | NaN, _ | _, NaN => NaN
  | PInf, PInf | NInf, NInf => NaN
  | PInf, _ | _, NInf => PInf
  | NInf, _ | _, PInf => NInf
  | Fin p, Fin q => Fin (p - q)
  end.

(** Division: a zero divisor gives [NaN] for [0/0] and an infinity
    otherwise; nothing is raised. *)
Definition js_div (a b : jsnum) : jsnum :=
  match a, b with
  | NaN, _ | _, NaN => NaN
  | (PInf | NInf), (PInf | NInf) => NaN
  | PInf, Fin q => if Qle_bool 0 q then PInf else NInf
  | NInf, Fin q => if Qle_bool 0 q then NInf else PInf
  | Fin _, (PInf | NInf) => Fin 0
  | Fin p, Fin q =>
      if Qeq_bool q 0 then
        match (p ?= 0)%Q with Eq => NaN | Gt => PInf | Lt => NInf end
      else Fin (p / q)
  end.

(** Remainder [a % b]: the sign follows the dividend. *)
Definition js_rem (a b : jsnum) : jsnum :=
  match a, b with
  | NaN, _ | _, NaN => NaN
  | (PInf | NInf), _ => NaN
  | Fin p, (PInf | NInf) => Fin p
  | Fin p, Fin q =>
      if Qeq_bool q 0 then NaN
      else Fin (Qred (p - q * inject_Z (Qtrunc (p / q))))
  end.

Definition js_floor (a : jsnum) : jsnum :=
  match a with Fin q => Fin (inject_Z (Qfloor q)) | _ => a end.

Definition js_ceil (a : jsnum) : jsnum :=
  match a with Fin q => Fin (inject_Z (Qceiling q)) | _ => a end.

Definition js_isNaN (a : jsnum) : bool :=
  match a with NaN => true | _ => false end.

Definition js_isFinite (a : jsnum) : bool :=
  match a with Fin _ => true | _ => false end.

(** Truthiness of a number: [0] and [NaN] are falsy. *)
Definition js_truthy (a : jsnum) : bool :=
  match a with
  | NaN => false
  | Fin q => negb (Qeq_bool q 0)
  | _ => true
  end.

(** [arr[i]]: defined only at an integral index inside the array. *)
Definition js_index {A : Type} (arr : list A) (i : jsnum) : option A :=
  match i with
  | Fin q =>
      if Qeq_bool q (inject_Z (Qfloor q)) && (0 <=? Qfloor q)%Z
      then nth_error arr (Z.to_nat (Qfloor q))
      else None
  | _ => None
  end.

End JsNum.

Import JsNum.
Coercion ofZ : Z >-> jsnum.

(** ** JavaScript strings and arrays *)

Module JsStr.

(** Interpolation of a value into a template literal. *)
Definition tmpl (v : option string) : string :=
  match v with Some s => s | None => "undefined" end.

(** [Array.prototype.join]: [undefined] elements render as the empty
    string. *)
Definition join (sep : string) (l : list (option string)) : string :=
  String.concat sep (map (fun v => match v with Some s => s | None => "" end) l).

Definition is_space (c : ascii) : bool :=
  match nat_of_ascii c with
  | 9%nat | 10%nat | 11%nat | 12%nat | 13%nat | 32%nat => true
  | _ => false
  end.

Fixpoint trimStart (s : string) : string :=
  match s with
  | String c s' => if is_space c then trimStart s' else s
  | EmptyString => EmptyString
  end.

(** Removes trailing white space; the result is empty when [s] is blank. *)
Fixpoint trimEnd (s : string) : string :=
  match s with
  | EmptyString => EmptyString
  | String c s' =>
      match trimEnd s' with
      | EmptyString => if is_space c then EmptyString else String c EmptyString
      | t => String c t
      end
  end.

Definition trim (s : string) : string := trimEnd (trimStart s).

(** [arr.splice(start, 0, x)] for [0 <= start <= arr.length]. *)
Definition splice_insert {A : Type} (start : nat) (x : A) (l : list A) : list A :=
  (firstn start l ++ x :: skipn start l)%list.

End JsStr.

Import JsStr.

(** ** The number formatter, bucket version
    ([src/utils/numberToWordsIndian.ts]) *)

Module Words.

Definition units : list string :=
  [""; "One"; "Two"; "Three"; "Four"; "Five"; "Six"; "Seven"; "Eight"; "Nine"].

Definition teens : list string :=
  ["Ten"; "Eleven"; "Twelve"; "Thirteen"; "Fourteen"; "Fifteen"; "Sixteen";
   "Seventeen"; "Eighteen"; "Nineteen"].

Definition tens : list string :=
  [""; ""; "Twenty"; "Thirty"; "Forty"; "Fifty"; "Sixty"; "Seventy"; "Eighty";
   "Ninety"].

Definition convertTwoDigits (num : jsnum) : option string :=
  if js_seq num 0 then Some ""
  else if js_lt num 10 then js_index units num
  else if js_lt num 20 then js_index teens (js_sub num 10)
  else
    let ten := js_floor (js_div num 10) in
    let unit := js_rem num 10 in
    if js_seq unit 0 then js_index tens ten
    else Some (tmpl (js_index tens ten) ++ " " ++ tmpl (js_index units unit)).

(** The five magnitude buckets of [num]. *)
Definition crore_of (num : jsnum) : jsnum := js_floor (js_div num 10000000).
Definition lakh_of (num : jsnum) : jsnum := js_floor (js_div (js_rem num 10000000) 100000).
Definition thousand_of (num : jsnum) : jsnum := js_floor (js_div (js_rem num 100000) 1000).
Definition hundred_of (num : jsnum) : jsnum := js_floor (js_div (js_rem num 1000) 100).
Definition remainder_of (num : jsnum) : jsnum := js_rem num 100.

(** The state built by the five guarded [push] pairs: the [nonZeroUnits]
    array and the [parts] array. *)
Definition push_if {A : Type} (c : bool) (x : A) (l : list A) : list A :=
  if c then (l ++ [x])%list else l.

Definition nonZeroUnits (num : jsnum) : list string :=
  push_if (js_gt (remainder_of num) 0) "ones"
    (push_if (js_gt (hundred_of num) 0) "hundred"
      (push_if (js_gt (thousand_of num) 0) "thousand"
        (push_if (js_gt (lakh_of num) 0) "lakh"
          (push_if (js_gt (crore_of num) 0) "crore" [])))).

Definition parts (num : jsnum) : list (option string) :=
  push_if (js_gt (remainder_of num) 0) (convertTwoDigits (remainder_of num))
    (push_if (js_gt (hundred_of num) 0)
       (Some (tmpl (js_index units (hundred_of num)) ++ " Hundred"))
      (push_if (js_gt (thousand_of num) 0)
         (Some (tmpl (convertTwoDigits (thousand_of num)) ++ " Thousand"))
        (push_if (js_gt (lakh_of num) 0)
           (Some (tmpl (convertTwoDigits (lakh_of num)) ++ " Lakh"))
          (push_if (js_gt (crore_of num) 0)
             (Some (tmpl (convertTwoDigits (crore_of num)) ++ " Crore")) [])))).

Definition numberToWordsIndian (num : jsnum) : string :=
  if js_seq num 0 then "Zero"
  else
    let ps := parts num in
    let ps' :=
      if (1 <? List.length (nonZeroUnits num))%nat
      then splice_insert (List.length ps - 1) (Some "and") ps
      else ps in
    trim (join " " ps').

End Words.

(** ** The number formatter, recursive version (the sibling module that
    exports the same name) *)

Module WordsRec.

Import Words.

(** What a call produces: a string, or an exception ([undefined.trim()],
    or unbounded recursion on a non-finite number). *)
Inductive outcome : Type :=
| Returns (s : string)
| Throws.

(** Truthiness test [rest ? ' ' + w : ''] on an integer. *)
Definition opt_suffix (rest : Z) (w : option string) : string :=
  if rest =? 0 then "" else " " ++ tmpl w.

(** The inner [numToWords], on the integer left by [Math.floor]. *)
Equations? numToWords (n : Z) : option string by wf (Z.to_nat n) lt :=
  numToWords n with Z.eq_dec n 0 := {
    | left _ := Some "";
    | right _ with Z_lt_dec n 10 := {
      | left _ := js_index units n;
      | right _ with Z_lt_dec n 20 := {
        | left _ := js_index teens (n - 10);
        | right _ with Z_lt_dec n 100 := {
          | left _ :=
              Some (tmpl (js_index tens (n / 10))
                    ++ opt_suffix (Z.rem n 10) (js_index units (Z.rem n 10)));
          | right _ with Z_lt_dec n 1000 := {
            | left _ :=
                Some (tmpl (js_index units (n / 100)) ++ " Hundred"
                      ++ opt_suffix (Z.rem n 100) (numToWords (Z.rem n 100)));
            | right _ with Z_lt_dec n 100000 := {
              | left _ :=
                  Some (tmpl (numToWords (n / 1000)) ++ " Thousand"
                        ++ opt_suffix (Z.rem n 1000) (numToWords (Z.rem n 1000)));
              | right _ with Z_lt_dec n 10000000 := {
                | left _ :=
                    Some (tmpl (numToWords (n / 100000)) ++ " Lakh"
                          ++ opt_suffix (Z.rem n 100000)
                               (numToWords (Z.rem n 100000)));
                | right _ :=
                    Some (tmpl (numToWords (n / 10000000)) ++ " Crore"
                          ++ opt_suffix (Z.rem n 10000000)
                               (numToWords (Z.rem n 10000000))) } } } } } } }.
Proof.
  all: try (rewrite Z.rem_mod_nonneg by lia;
            apply Z2Nat.inj_lt; try lia;
            [ apply Z.mod_pos_bound; lia
            | pose proof (Z.mod_pos_bound n 100 ltac:(lia));
              pose proof (Z.mod_pos_bound n 1000 ltac:(lia));
              pose proof (Z.mod_pos_bound n 100000 ltac:(lia));
              pose proof (Z.mod_pos_bound n 10000000 ltac:(lia)); lia ]).
  all: apply Z2Nat.inj_lt; try lia;
       try (apply Z.div_pos; lia); apply Z.div_lt; lia.
Qed.

Definition numberToWordsIndian (num : jsnum) : outcome :=
  if js_seq num 0 then Returns "Zero"
  else
    match js_floor num with
    | Fin q =>
        match numToWords (Qfloor q) with
        | Some s => Returns (trim s)
        | None => Throws
        end
    | _ => Throws
    end.

End WordsRec.

(** ** The host: what the language runtime supplies *)

Record Host : Type := {
  (** [new Date(s).getTime()]; [None] is the Invalid Date. *)
  date_parse : string -> option Z;
  (** Local-time accessors of a time value. *)
  date_getMonth : Z -> Z;
  date_getFullYear : Z -> Z;
  date_getDate : Z -> Z;
  (** [d.setDate(k)]: the time value after setting the day of the month. *)
  date_setDate : Z -> Z -> Z;
  (** [new Date(year, month, day)]. *)
  date_ofYMD : Z -> Z -> Z -> Z;
  (** [toLocaleString('en-US', { month: 'short', year: 'numeric' })]. *)
  date_monthYear : Z -> string;
  localeCompare : string -> string -> Z;
  toLowerCase : string -> string;
  (** [String(n)] and [n.toString()] on a number. *)
  number_toString : jsnum -> string;
  (** [Number(s)] on a string. *)
  string_toNumber : string -> jsnum;
  (** [parseInt(s)]; [None] is [NaN]. *)
  parseInt : string -> option Z
}.

(** ** Entries *)

Module Entry.

Record t : Type := {
  id : string;
  name : string;
  contact : string;
  type : string;
  category : string;
  amount : jsnum;
  date : string;
  renewDate : string;
  renewDateReminder : jsnum;
  property : string
}.

End Entry.

Inductive SortKey : Type :=
| KId | KName | KContact | KType | KCategory | KAmount | KDate | KRenewDate
| KRenewDateReminder | KProperty | KMonthYear.

Inductive Direction : Type := Asc | Desc.

Record SortConfig : Type := {
  key : SortKey;
  direction : Direction
}.

Inductive Status : Type := Approaching | Due | PastDue.

(** What goes to [console.error]. *)
Inductive LogEvent : Type :=
| InvalidEntryDate (date : string)
| InvalidFilterFormat (filter : string) (month year : option string).

(** ** More of the string library *)

Module JsText.

(** [s.includes(sub)]. *)
Fixpoint includes (s sub : string) : bool :=
  String.prefix sub s
  || match s with
     | String _ s' => includes s' sub
     | EmptyString => false
     end.



(** [s.replace(' ', '-')]: the first space only. *)
Fixpoint replaceFirstSpace (s : string) : string :=
  match s with
  | EmptyString => EmptyString
  | String c s' =>
      if Ascii.eqb c " "%char then String "-"%char s'
      else String c (replaceFirstSpace s')
  end.

(** [s.split('-')]. *)
Fixpoint splitDash (s : string) : list string :=
  match s with
  | EmptyString => [EmptyString]
  | String c s' =>
      if Ascii.eqb c "-"%char then EmptyString :: splitDash s'
      else match splitDash s' with
           | w :: ws => String c w :: ws
           | [] => [String c EmptyString]
           end
  end.

(** A string is truthy when it is not empty. *)
Definition nonEmpty (s : string) : bool := negb (String.eqb s "").

End JsText.

Import JsText.

(** ** [Array.prototype.sort]

    The language requires the sort to be stable and, for a consistent
    comparator, to order the array by it; a comparator result of [NaN]
    counts as [0].  A stable insertion sort is such a sort: [x] moves
    behind [y] only when [cmp x y > 0]. *)

Section Sort.

Context {A : Type} (cmp : A -> A -> jsnum).

Fixpoint sort_insert (x : A) (l : list A) : list A :=
  match l with
  | [] => [x]
  | y :: l' => if js_gt (cmp x y) 0 then y :: sort_insert x l' else x :: l
  end.

Definition js_sort (l : list A) : list A := fold_right sort_insert [] l.

End Sort.

(** ** Reading stored documents ([getEntries] in [services/api.ts]; the
    two snapshot listeners repeat the same mapping) *)

Module Api.

(** A stored scalar: absent, or one of the primitive values, or any other
    object, which is carried as the number [Number()] makes of it. *)
Inductive Stored : Type :=
| SMissing
| SNull
| SBool (b : bool)
| SNum (n : jsnum)
| SStr (s : string)
| SObject (asNumber : jsnum).

(** A stored date: absent, a string, or a Firestore [Timestamp], carried
    as the calendar day [toDate().toISOString().split('T')[0]] prints. *)
Inductive StoredDate : Type :=
| DMissing
| DText (s : string)
| DTimestamp (isoDay : string).

(** A document of the [entries] collection; text fields hold a string
    when present. *)
Record Doc : Type := {
  doc_id : string;
  d_name : option string;
  d_contact : option string;
  d_type : option string;
  d_category : option string;
  d_amount : Stored;
  d_date : StoredDate;
  d_renewDate : StoredDate;
  d_renewDateReminder : Stored;
  d_property : option string
}.

Section Read.

Context (h : Host).

(** [Number(v)]. *)
Definition toNumber (v : Stored) : jsnum :=
  match v with
  | SMissing => NaN
  | SNull => 0
  | SBool b => if b then 1 else 0
  | SNum n => n
  | SStr s => string_toNumber h s
  | SObject n => n
  end.

(** [v || d] on a text field. *)
Definition orElse (v : option string) (d : string) : string :=
  match v with
  | Some s => if nonEmpty s then s else d
  | None => d
  end.

(** [[0, 5, 10, 15].includes(x)]. *)
Definition allowedReminder (x : jsnum) : bool :=
  existsb (fun k : Z => js_seq x k) [0; 5; 10; 15].

Definition readReminder (v : Stored) : jsnum :=
  if allowedReminder (toNumber v) then toNumber v else 0.

Definition readDate (v : StoredDate) : string :=
  match v with
  | DTimestamp isoDay => isoDay
  | DText s => s
  | DMissing => ""
  end.

Definition readAmount (v : Stored) : jsnum :=
  if js_truthy (toNumber v) then toNumber v else 0.

Definition toEntry (d : Doc) : Entry.t :=
  {| Entry.id := doc_id d;
     Entry.name := orElse (d_name d) "";
     Entry.contact := orElse (d_contact d) "";
     Entry.type := orElse (d_type d) "Income";
     Entry.category := orElse (d_category d) "";
     Entry.amount := readAmount (d_amount d);
     Entry.date := readDate (d_date d);
     Entry.renewDate := readDate (d_renewDate d);
     Entry.renewDateReminder := readReminder (d_renewDateReminder d);
     Entry.property := orElse (d_property d) "" |}.

Definition getEntries (docs : list Doc) : list Entry.t := map toEntry docs.

End Read.

End Api.

(** ** What both views share *)

Section Shared.

Context (h : Host).

(** [new Date(s).getTime()] as a number. *)
Definition getTime (s : string) : jsnum :=
  match date_parse h s with
  | Some t => ofZ t
  | None => NaN
  end.

(** [String(a[key])]; an entry has no [monthYear] property. *)
Definition fieldString (k : SortKey) (e : Entry.t) : string :=
  match k with
  | KId => Entry.id e
  | KName => Entry.name e
  | KContact => Entry.contact e
  | KType => Entry.type e
  | KCategory => Entry.category e
  | KAmount => number_toString h (Entry.amount e)
  | KDate => Entry.date e
  | KRenewDate => Entry.renewDate e
  | KRenewDateReminder => number_toString h (Entry.renewDateReminder e)
  | KProperty => Entry.property e
  | KMonthYear => "undefined"
  end.

(** The two [reduce] passes of [totals]. *)
Record Tally : Type := {
  t_amount : jsnum;
  t_count : Z
}.

Record Totals : Type := {
  income : Tally;
  expense : Tally
}.

Definition tally (type : string) (entries : list Entry.t) : Tally :=
  fold_left
    (fun acc entry =>
       {| t_amount := js_add (t_amount acc) (Entry.amount entry);
          t_count := t_count acc + 1 |})
    (filter (fun entry => String.eqb (Entry.type entry) type) entries)
    {| t_amount := 0; t_count := 0 |}.

Definition totals (filteredEntries : list Entry.t) : Totals :=
  {| income := tally "Income" filteredEntries;
     expense := tally "Expense" filteredEntries |}.

End Shared.

(** ** The [Entries] view: filtering and sorting *)

Module EntriesView.

Record FilterConfig : Type := {
  f_name : string;
  f_contact : string;
  f_type : string;
  f_category : string;
  amountMin : string;
  amountMax : string;
  dateStart : string;
  dateEnd : string;
  f_property : string
}.

(** The initial and cleared filter. *)
Definition noFilter : FilterConfig :=
  {| f_name := ""; f_contact := ""; f_type := "All"; f_category := "All";
     amountMin := ""; amountMax := ""; dateStart := ""; dateEnd := "";
     f_property := "All" |}.

Section View.

Context (h : Host).

(** [Object.values(entry)], each through [toString()]. *)
Definition valueStrings (entry : Entry.t) : list string :=
  [Entry.id entry; Entry.name entry; Entry.contact entry; Entry.type entry;
   Entry.category entry; number_toString h (Entry.amount entry);
   Entry.date entry; Entry.renewDate entry;
   number_toString h (Entry.renewDateReminder entry); Entry.property entry].

Definition matchesSearch (searchTerm : string) (entry : Entry.t) : bool :=
  if nonEmpty searchTerm
  then existsb
         (fun value =>
            includes (toLowerCase h value) (toLowerCase h searchTerm))
         (valueStrings entry)
  else true.

Definition matchesName (fc : FilterConfig) (entry : Entry.t) : bool :=
  if nonEmpty (f_name fc)
  then includes (toLowerCase h (Entry.name entry)) (toLowerCase h (f_name fc))
  else true.

Definition matchesContact (fc : FilterConfig) (entry : Entry.t) : bool :=
  if nonEmpty (f_contact fc)
  then includes (toLowerCase h (Entry.contact entry))
         (toLowerCase h (f_contact fc))
  else true.

Definition matchesType (fc : FilterConfig) (entry : Entry.t) : bool :=
  if negb (String.eqb (f_type fc) "All")
  then String.eqb (Entry.type entry) (f_type fc)
  else true.

Definition matchesCategory (fc : FilterConfig) (entry : Entry.t) : bool :=
  if negb (String.eqb (f_category fc) "All")
  then String.eqb (Entry.category entry) (f_category fc)
  else true.

Definition matchesAmount (fc : FilterConfig) (entry : Entry.t) : bool :=
  let min :=
    if nonEmpty (amountMin fc) then string_toNumber h (amountMin fc) else NInf in
  let max :=
    if nonEmpty (amountMax fc) then string_toNumber h (amountMax fc) else PInf in
  js_ge (Entry.amount entry) min && js_le (Entry.amount entry) max.

Definition matchesDate (fc : FilterConfig) (entry : Entry.t) : bool :=
  let start :=
    if nonEmpty (dateStart fc) then getTime h (dateStart fc)
    else ofZ (-8640000000000000) in
  let end_ :=
    if nonEmpty (dateEnd fc) then getTime h (dateEnd fc)
    else ofZ 8640000000000000 in
  let entryDate := getTime h (Entry.date entry) in
  js_ge entryDate start && js_le entryDate end_.

Definition matchesProperty (fc : FilterConfig) (entry : Entry.t) : bool :=
  if negb (String.eqb (f_property fc) "All")
  then String.eqb (Entry.property entry) (f_property fc)
  else true.

(** The callback of [entries.filter]. *)
Definition keeps (searchTerm : string) (fc : FilterConfig) (entry : Entry.t)
  : bool :=
  matchesSearch searchTerm entry
  && matchesName fc entry
  && matchesContact fc entry
  && matchesType fc entry
  && matchesCategory fc entry
  && matchesAmount fc entry
  && matchesDate fc entry
  && matchesProperty fc entry.

Definition filterEntries (searchTerm : string) (fc : FilterConfig)
  (entries : list Entry.t) : list Entry.t :=
  filter (keeps searchTerm fc) entries.

(** The callback of [sort]. *)
Definition compareEntries (sc : SortConfig) (a b : Entry.t) : jsnum :=
  match key sc with
  | KDate | KMonthYear =>
      match direction sc with
      | Asc => js_sub (getTime h (Entry.date a)) (getTime h (Entry.date b))
      | Desc => js_sub (getTime h (Entry.date b)) (getTime h (Entry.date a))
      end
  | KAmount =>
      match direction sc with
      | Asc => js_sub (Entry.amount a) (Entry.amount b)
      | Desc => js_sub (Entry.amount b) (Entry.amount a)
      end
  | k =>
      match direction sc with
      | Asc => ofZ (localeCompare h (fieldString h k a) (fieldString h k b))
      | Desc => ofZ (localeCompare h (fieldString h k b) (fieldString h k a))
      end
  end.

Definition sortEntries (sc : SortConfig) (entries : list Entry.t)
  : list Entry.t :=
  js_sort (compareEntries sc) entries.

Definition filteredEntries (searchTerm : string) (fc : FilterConfig)
  (sc : SortConfig) (entries : list Entry.t) : list Entry.t :=
  sortEntries sc (filterEntries searchTerm fc entries).

End View.

End EntriesView.

(** ** The [Dashboard] view *)

Module Dashboard.

(** The custom range of the date picker, as two time values. *)
Record CustomRange : Type := {
  startDate : Z;
  endDate : Z
}.

Section View.

Context (h : Host).

(** The time window named by [filter], at an entry date that parsed;
    [now] is the clock when the filter runs. *)
Definition inWindow (filter : string) (customRange : CustomRange) (now : Z)
  (entryDate : Z) : bool * list LogEvent :=
  if String.eqb filter "Last 7 Days" then
    let sevenDaysAgo := date_setDate h now (date_getDate h now - 7) in
    ((sevenDaysAgo <=? entryDate) && (entryDate <=? now), [])
  else if String.eqb filter "Last 30 Days" then
    let thirtyDaysAgo := date_setDate h now (date_getDate h now - 30) in
    ((thirtyDaysAgo <=? entryDate) && (entryDate <=? now), [])
  else if String.eqb filter "Current Month" then
    ((date_getMonth h entryDate =? date_getMonth h now)
     && (date_getFullYear h entryDate =? date_getFullYear h now), [])
  else if String.eqb filter "Current Year" then
    let startOfYear := date_ofYMD h (date_getFullYear h now) 0 1 in
    ((startOfYear <=? entryDate) && (entryDate <=? now), [])
  else if String.eqb filter "Custom Range" then
    ((startDate customRange <=? entryDate)
     && (entryDate <=? endDate customRange), [])
  else
    let normalizedFilter := replaceFirstSpace filter in
    let fields := splitDash normalizedFilter in
    let month := nth_error fields 0 in
    let year := nth_error fields 1 in
    let filterMonth :=
      option_map (date_getMonth h) (date_parse h (tmpl month ++ " 1, 2000")) in
    let filterYear := parseInt h (tmpl year) in
    match filterMonth, filterYear with
    | Some fm, Some fy =>
        ((date_getMonth h entryDate =? fm)
         && (date_getFullYear h entryDate =? fy), [])
    | _, _ => (false, [InvalidFilterFormat filter month year])
    end.

(** The callback of [entries.filter], with what it logs. *)
Definition keeps (filter : string) (customRange : CustomRange) (now : Z)
  (entry : Entry.t) : bool * list LogEvent :=
  match date_parse h (Entry.date entry) with
  | None => (false, [InvalidEntryDate (Entry.date entry)])
  | Some entryDate => inWindow filter customRange now entryDate
  end.

(** [filteredEntries]: the entries kept, and the error log of the pass. *)
Fixpoint filteredEntries (filter : string) (customRange : CustomRange)
  (now : Z) (entries : list Entry.t) : list Entry.t * list LogEvent :=
  match entries with
  | [] => ([], [])
  | entry :: rest =>
      let (keep, log) := keeps filter customRange now entry in
      let (kept, logs) := filteredEntries filter customRange now rest in
      (if keep then entry :: kept else kept, (log ++ logs)%list)
  end.

Record SummaryMetrics : Type := {
  netBalance : jsnum;
  avgIncome : jsnum;
  avgExpense : jsnum;
  totalTransactions : Z
}.

Definition summaryMetrics (totals : Totals) : SummaryMetrics :=
  let totalIncome := t_amount (income totals) in
  let totalExpense := t_amount (expense totals) in
  let netBalance := js_sub totalIncome totalExpense in
  let avgIncome :=
    if t_count (income totals) >? 0
    then js_div totalIncome (t_count (income totals)) else 0 in
  let avgExpense :=
    if t_count (expense totals) >? 0
    then js_div totalExpense (t_count (expense totals)) else 0 in
  {| netBalance := netBalance;
     avgIncome := avgIncome;
     avgExpense := avgExpense;
     totalTransactions := t_count (income totals) + t_count (expense totals) |}.

Definition daysUntil (date fromDate : string) : jsnum :=
  let renew := getTime h date in
  let from := getTime h fromDate in
  if js_isNaN renew || js_isNaN from then PInf
  else js_ceil (js_div (js_sub renew from) (ofZ (1000 * 60 * 60 * 24))).

(** The [map] step of [reminderEntries]: [None] is [null]. *)
Definition withStatus (today : string) (entry : Entry.t)
  : option (Entry.t * Status) :=
  let daysToRenew := daysUntil (Entry.renewDate entry) today in
  if js_seq daysToRenew 0 then Some (entry, Due)
  else if js_lt daysToRenew 0 then Some (entry, PastDue)
  else if js_le daysToRenew (Entry.renewDateReminder entry)
       then Some (entry, Approaching)
  else None.

(** Dropping the [null]s. *)
Fixpoint nonNull {A : Type} (l : list (option A)) : list A :=
  match l with
  | [] => []
  | Some x :: l' => x :: nonNull l'
  | None :: l' => nonNull l'
  end.

Definition reminderEntries (today : string) (entries : list Entry.t)
  : list (Entry.t * Status) :=
  js_sort
    (fun a b =>
       js_sub (getTime h (Entry.renewDate (fst a)))
              (getTime h (Entry.renewDate (fst b))))
    (nonNull
       (map (withStatus today)
          (filter
             (fun entry =>
                js_gt (Entry.renewDateReminder entry) 0
                && js_isFinite (daysUntil (Entry.renewDate entry) today))
             entries))).









(** The callback of the sort behind [lastFiveEntries]. *)
Definition compareEntries (sc : SortConfig) (a b : Entry.t) : jsnum :=
  match key sc with
  | KDate =>
      match direction sc with
      | Asc => js_sub (getTime h (Entry.date a)) (getTime h (Entry.date b))
      | Desc => js_sub (getTime h (Entry.date b)) (getTime h (Entry.date a))
      end
  | KAmount =>
      match direction sc with
      | Asc => js_sub (Entry.amount a) (Entry.amount b)
      | Desc => js_sub (Entry.amount b) (Entry.amount a)
      end
  | k =>
      match direction sc with
      | Asc => ofZ (localeCompare h (fieldString h k a) (fieldString h k b))
      | Desc => ofZ (localeCompare h (fieldString h k b) (fieldString h k a))
      end
  end.

Definition lastFiveEntries (sc : SortConfig) (filteredEntries : list Entry.t)
  : list Entry.t :=
  firstn 5 (js_sort (compareEntries sc) filteredEntries).

End View.

End Dashboard.

(** ** A reference host

    A runtime in the UTC time zone, restricted to what the ECMAScript
    standard fixes: the date-only forms [YYYY], [YYYY-MM] and [YYYY-MM-DD]
    of the date-time string format, the proleptic Gregorian calendar,
    decimal numerals.  Strings are compared by character code and
    lower-cased over ASCII.  It instantiates the statements about the host
    at concrete inputs. *)

Module RefHost.

Definition msPerDay : Z := 86400000.

(** Days since the epoch of a civil date, and back. *)
Definition daysFromCivil (y m d : Z) : Z :=
  let y' := if m <=? 2 then y - 1 else y in
  let era := y' / 400 in
  let yoe := y' - era * 400 in
  let doy := (153 * (if 2 <? m then m - 3 else m + 9) + 2) / 5 + d - 1 in
  let doe := yoe * 365 + yoe / 4 - yoe / 100 + doy in
  era * 146097 + doe - 719468.

Definition civilFromDays (z : Z) : Z * Z * Z :=
  let z' := z + 719468 in
  let era := z' / 146097 in
  let doe := z' - era * 146097 in
  let yoe := (doe - doe / 1460 + doe / 36524 - doe / 146096) / 365 in
  let doy := doe - (365 * yoe + yoe / 4 - yoe / 100) in
  let mp := (5 * doy + 2) / 153 in
  let d := doy - (153 * mp + 2) / 5 + 1 in
  let m := if mp <? 10 then mp + 3 else mp - 9 in
  ((if m <=? 2 then yoe + era * 400 + 1 else yoe + era * 400), m, d).

Definition isLeap (y : Z) : bool :=
  ((y mod 4 =? 0) && negb (y mod 100 =? 0)) || (y mod 400 =? 0).

Definition daysInMonth (y m : Z) : Z :=
  if m =? 2 then (if isLeap y then 29 else 28)
  else if (m =? 4) || (m =? 6) || (m =? 9) || (m =? 11) then 30
  else 31.

Definition digit (c : ascii) : option Z :=
  let n := Z.of_nat (nat_of_ascii c) in
  if (48 <=? n) && (n <=? 57) then Some (n - 48) else None.

(** The value of a string of decimal digits; [None] when [s] is empty or
    holds anything else. *)
Fixpoint digitsFrom (acc : Z) (s : string) : option Z :=
  match s with
  | EmptyString => Some acc
  | String c s' =>
      match digit c with
      | Some d => digitsFrom (10 * acc + d) s'
      | None => None
      end
  end.

Definition digits (s : string) : option Z :=
  match s with
  | EmptyString => None
  | _ => digitsFrom 0 s
  end.

Definition fixedDigits (width : nat) (s : string) : option Z :=
  if Nat.eqb (String.length s) width then digits s else None.

Definition parse (s : string) : option Z :=
  match splitDash s with
  | [y] =>
      match fixedDigits 4 y with
      | Some y => Some (daysFromCivil y 1 1 * msPerDay)
      | None => None
      end
  | [y; m] =>
      match fixedDigits 4 y, fixedDigits 2 m with
      | Some y, Some m =>
          if (1 <=? m) && (m <=? 12)
          then Some (daysFromCivil y m 1 * msPerDay) else None
      | _, _ => None
      end
  | [y; m; d] =>
      match fixedDigits 4 y, fixedDigits 2 m, fixedDigits 2 d with
      | Some y, Some m, Some d =>
          if (1 <=? m) && (m <=? 12) && (1 <=? d) && (d <=? daysInMonth y m)
          then Some (daysFromCivil y m d * msPerDay) else None
      | _, _, _ => None
      end
  | _ => None
  end.

Definition getFullYear (t : Z) : Z := fst (fst (civilFromDays (t / msPerDay))).
Definition getMonth (t : Z) : Z := snd (fst (civilFromDays (t / msPerDay))) - 1.
Definition getDate (t : Z) : Z := snd (civilFromDays (t / msPerDay)).

Definition setDate (t k : Z) : Z := t + (k - getDate t) * msPerDay.

Definition ofYMD (y m d : Z) : Z :=
  (daysFromCivil (y + m / 12) (m mod 12 + 1) 1 + (d - 1)) * msPerDay.

Definition monthNames : list string :=
  ["Jan"; "Feb"; "Mar"; "Apr"; "May"; "Jun"; "Jul"; "Aug"; "Sep"; "Oct";
   "Nov"; "Dec"].

Definition decimal (z : Z) : string := NilZero.string_of_int (Z.to_int z).

Definition monthYear (t : Z) : string :=
  nth (Z.to_nat (getMonth t)) monthNames "" ++ " " ++ decimal (getFullYear t).

Fixpoint compareCodes (a b : string) : Z :=
  match a, b with
  | EmptyString, EmptyString => 0
  | EmptyString, String _ _ => -1
  | String _ _, EmptyString => 1
  | String x a', String y b' =>
      match Nat.compare (nat_of_ascii x) (nat_of_ascii y) with
      | Lt => -1
      | Gt => 1
      | Eq => compareCodes a' b'
      end
  end.

Definition lowerChar (c : ascii) : ascii :=
  let n := nat_of_ascii c in
  if (65 <=? n)%nat && (n <=? 90)%nat then ascii_of_nat (n + 32) else c.

Fixpoint lower (s : string) : string :=
  match s with
  | EmptyString => EmptyString
  | String c s' => String (lowerChar c) (lower s')
  end.

(** Up to [k] fractional digits of [num / den], for [0 <= num < den]. *)
Fixpoint fractionDigits (k : nat) (num den : Z) : string :=
  match k with
  | O => EmptyString
  | S k' =>
      if num =? 0 then EmptyString
      else decimal (10 * num / den) ++ fractionDigits k' (10 * num mod den) den
  end.

Definition numberToString (n : jsnum) : string :=
  match n with
  | NaN => "NaN"
  | PInf => "Infinity"
  | NInf => "-Infinity"
  | Fin q =>
      let num := Z.abs (Qnum q) in
      let den := Zpos (Qden q) in
      let frac := fractionDigits 17 (num mod den) den in
      (if Qnum q <? 0 then "-" else "")
      ++ decimal (num / den)
      ++ (if String.eqb frac "" then "" else "." ++ frac)
  end.

(** [Number(s)] on the empty string and on plain decimal integers. *)
Definition stringToNumber (s : string) : jsnum :=
  match trim s with
  | EmptyString => ofZ 0
  | String c s' =>
      if Ascii.eqb c "-"%char
      then match digits s' with Some z => ofZ (- z) | None => NaN end
      else match digits (String c s') with Some z => ofZ z | None => NaN end
  end.

(** The longest prefix of decimal digits. *)
Fixpoint leadingDigits (s : string) : string :=
  match s with
  | EmptyString => EmptyString
  | String c s' =>
      match digit c with
      | Some _ => String c (leadingDigits s')
      | None => EmptyString
      end
  end.

Definition parseInteger (s : string) : option Z :=
  match trimStart s with
  | EmptyString => None
  | String c s' =>
      if Ascii.eqb c "-"%char
      then option_map Z.opp (digits (leadingDigits s'))
      else digits (leadingDigits (String c s'))
  end.

Definition host : Host :=
  {| date_parse := parse;
     date_getMonth := getMonth;
     date_getFullYear := getFullYear;
     date_getDate := getDate;
     date_setDate := setDate;
     date_ofYMD := ofYMD;
     date_monthYear := monthYear;
     localeCompare := compareCodes;
     toLowerCase := lower;
     number_toString := numberToString;
     string_toNumber := stringToNumber;
     parseInt := parseInteger |}.

End RefHost.

(** ** Notions used to state the properties *)

Import Words WordsRec.

(** A string that starts, respectively ends, with a character that is
    not white space; [trim] leaves such a string as it is. *)
Definition starts_clean (s : string) : bool :=
  match s with
  | String c _ => negb (is_space c)
  | EmptyString => false
  end.

Definition ends_clean (s : string) : Prop := s <> "" /\ trimEnd s = s.

(** [P] holds of [0 .. k-1]: a check by enumeration. *)
Definition below (k : nat) (P : Z -> bool) : bool :=
  forallb (fun i => P (Z.of_nat i)) (List.seq 0 k).

(** The buckets of an integer amount, as the specification names them. *)
Module Buckets.

Definition crore (n : Z) : Z := n / 10000000.
Definition lakh (n : Z) : Z := (n mod 10000000) / 100000.
Definition thousand (n : Z) : Z := (n mod 100000) / 1000.
Definition hundred (n : Z) : Z := (n mod 1000) / 100.
Definition remainder (n : Z) : Z := n mod 100.

Definition values (n : Z) : list Z :=
  [crore n; lakh n; thousand n; hundred n; remainder n].

(** How many of the five buckets are non-zero. *)
Definition nonzero (n : Z) : nat :=
  List.length (filter (fun v => negb (v =? 0)) (values n)).

(** A bucket contributes its rendering when it is non-zero. *)
Definition rendered (v : Z) (s : string) : list string :=
  if v =? 0 then [] else [s].

(** The renderings of the non-zero buckets, most significant first. *)
Definition renderings (n : Z) : list string :=
  (rendered (crore n) (tmpl (convertTwoDigits (crore n)) ++ " Crore")
   ++ rendered (lakh n) (tmpl (convertTwoDigits (lakh n)) ++ " Lakh")
   ++ rendered (thousand n) (tmpl (convertTwoDigits (thousand n)) ++ " Thousand")
   ++ rendered (hundred n) (tmpl (js_index units (hundred n)) ++ " Hundred")
   ++ rendered (remainder n) (tmpl (convertTwoDigits (remainder n))))%list.

(** The word list with "and" placed before its last element. *)
Definition with_and (rs : list string) : list string :=
  (removelast rs ++ ["and"; last rs ""])%list.

(** The renderings of the buckets below a given magnitude. *)
Definition tail1 (m : Z) : list string :=
  rendered (remainder m) (tmpl (convertTwoDigits (remainder m))).
Definition tail2 (m : Z) : list string :=
  (rendered (hundred m) (tmpl (js_index units (hundred m)) ++ " Hundred")
   ++ tail1 m)%list.
Definition tail3 (m : Z) : list string :=
  (rendered (thousand m) (tmpl (convertTwoDigits (thousand m)) ++ " Thousand")
   ++ tail2 m)%list.
Definition tail4 (m : Z) : list string :=
  (rendered (lakh m) (tmpl (convertTwoDigits (lakh m)) ++ " Lakh")
   ++ tail3 m)%list.

End Buckets.

(** On [1..99] the two-digit converter returns a string, which neither
    starts nor ends with white space and is not the word "and". *)
Definition two_digit_ok (v : Z) : bool :=
  (v =? 0)
  || match convertTwoDigits v with
     | Some s =>
         starts_clean s && negb (String.eqb s "and")
         && negb (String.eqb s "") && String.eqb (trimEnd s) s
     | None => false
     end.

(** On [1..9] the hundreds part is clean as well. *)
Definition hundred_ok (v : Z) : bool :=
  (v =? 0)
  || (let s := tmpl (js_index units v) ++ " Hundred" in
      starts_clean s && String.eqb (trimEnd s) s).

(** What every bucket rendering satisfies. *)
Definition part_ok (s : string) : Prop :=
  starts_clean s = true /\ ends_clean s /\ s <> "and".

(** Equality of two values of type [string | undefined]. *)
Definition opt_eqb (a b : option string) : bool :=
  match a, b with
  | Some x, Some y => String.eqb x y
  | None, None => true
  | _, _ => false
  end.

(** Reminders, as the specification words them. *)
Module ReminderSpec.

(** [ceil((renewDate - today) / 1 day)] of two time values. *)
Definition daysUntilRenew (renewDate today : Z) : Z :=
  - ((today - renewDate) / 86400000).

Definition statusFor (reminder : jsnum) (d : Z) : option Status :=
  if d =? 0 then Some Due
  else if d <? 0 then Some PastDue
  else if js_le d reminder then Some Approaching
  else None.

(** The reminder an entry gives rise to, if any. *)
Definition selected (h : Host) (today : Z) (e : Entry.t)
  : list (Entry.t * Status) :=
  if js_gt (Entry.renewDateReminder e) 0 then
    match date_parse h (Entry.renewDate e) with
    | Some r =>
        match statusFor (Entry.renewDateReminder e) (daysUntilRenew r today) with
        | Some s => [(e, s)]
        | None => []
        end
    | None => []
    end
  else [].

(** [a] is renewed no later than [b]. *)
Definition renewBefore (h : Host) (a b : Entry.t * Status) : Prop :=
  exists ta tb,
    date_parse h (Entry.renewDate (fst a)) = Some ta
    /\ date_parse h (Entry.renewDate (fst b)) = Some tb
    /\ ta <= tb.

End ReminderSpec.

(** The reminder scenario of the specification, on 21 May 2025. *)
Module ReminderScenario.

Definition entry (id renewDate : string) (reminder : Z) : Entry.t :=
  {| Entry.id := id; Entry.name := "Lease"; Entry.contact := "";
     Entry.type := "Expense"; Entry.category := "Rent"; Entry.amount := 1500;
     Entry.date := "2025-01-01"; Entry.renewDate := renewDate;
     Entry.renewDateReminder := reminder; Entry.property := "Home" |}.

Definition inThree : Entry.t := entry "a" "2025-05-24" 5.
Definition sameDay : Entry.t := entry "b" "2025-05-21" 5.
Definition dayBefore : Entry.t := entry "c" "2025-05-20" 5.
Definition inTen : Entry.t := entry "d" "2025-05-31" 5.
Definition unparsable : Entry.t := entry "e" "soon" 5.
Definition noReminder : Entry.t := entry "f" "2025-05-22" 0.

Definition entries : list Entry.t :=
  [inThree; sameDay; dayBefore; inTen; unparsable; noReminder].

End ReminderScenario.

(** Sort keys: when two entries have the same one. *)
Module SortSpec.






End SortSpec.

(** Two entries that differ in nothing the sort by renewal date looks at
    but the spelling of the same instant. *)
Module SortScenario.

Definition entry (id renewDate : string) (amount : Z) : Entry.t :=
  {| Entry.id := id; Entry.name := "Lease"; Entry.contact := "";
     Entry.type := "Expense"; Entry.category := "Rent";
     Entry.amount := amount; Entry.date := "2025-01-01";
     Entry.renewDate := renewDate; Entry.renewDateReminder := 5;
     Entry.property := "Home" |}.


Definition byAmount : SortConfig := {| key := KAmount; direction := Desc |}.

End SortScenario.

(** Entries of the [Entries] view scenarios. *)
Module FilterScenario.

Definition good : Entry.t :=
  {| Entry.id := "g"; Entry.name := "Rent"; Entry.contact := "Asha";
     Entry.type := "Income"; Entry.category := "Rent"; Entry.amount := 1500;
     Entry.date := "2025-05-21"; Entry.renewDate := "2025-06-21";
     Entry.renewDateReminder := 5; Entry.property := "Home" |}.

(** An entry whose date does not parse. *)
Definition bad : Entry.t :=
  {| Entry.id := "b"; Entry.name := "Repair"; Entry.contact := "Ravi";
     Entry.type := "Income"; Entry.category := "Cash"; Entry.amount := 200;
     Entry.date := "n/a"; Entry.renewDate := "2025-05-20";
     Entry.renewDateReminder := 5; Entry.property := "Home" |}.

Definition byDate : SortConfig := {| key := KDate; direction := Desc |}.

End FilterScenario.

(** Entries whose date parses, and the log events about those whose
    date does not. *)
Module DateQuality.

Definition parses (h : Host) (e : Entry.t) : bool :=
  match date_parse h (Entry.date e) with
  | Some _ => true
  | None => false
  end.

Definition isInvalidEntryDate (ev : LogEvent) : bool :=
  match ev with
  | InvalidEntryDate _ => true
  | InvalidFilterFormat _ _ _ => false
  end.

End DateQuality.

(** The export, column by column. *)
Module CsvSpec.




End CsvSpec.

(** An entry with a double quote in its property. *)
Module CsvScenario.



End CsvScenario.

(** ** Further code and the notions to state its properties *)

(** Reading the words of an amount back. *)
Module WordsDecode.

(** The words of a string: its pieces between single spaces. *)
Fixpoint splitSpace (s : string) : list string :=
  match s with
  | EmptyString => [EmptyString]
  | String c s' =>
      if Ascii.eqb c " "%char then EmptyString :: splitSpace s'
      else match splitSpace s' with
           | w :: ws => String c w :: ws
           | [] => [String c EmptyString]
           end
  end.

Definition numberWords : list (string * Z) :=
  [("Zero", 0); ("One", 1); ("Two", 2); ("Three", 3); ("Four", 4); ("Five", 5); ("Six", 6);
   ("Seven", 7); ("Eight", 8); ("Nine", 9); ("Ten", 10); ("Eleven", 11);
   ("Twelve", 12); ("Thirteen", 13); ("Fourteen", 14); ("Fifteen", 15);
   ("Sixteen", 16); ("Seventeen", 17); ("Eighteen", 18); ("Nineteen", 19);
   ("Twenty", 20); ("Thirty", 30); ("Forty", 40); ("Fifty", 50);
   ("Sixty", 60); ("Seventy", 70); ("Eighty", 80); ("Ninety", 90)].

Fixpoint lookupWord (w : string) (table : list (string * Z)) : option Z :=
  match table with
  | [] => None
  | (x, v) :: table' => if String.eqb w x then Some v else lookupWord w table'
  end.

Definition wordValue (w : string) : option Z := lookupWord w numberWords.

(** One word, read into the pair of the total so far and the group being
    read: [Thousand] and [Lakh] close the group, [Crore] closes all that
    was read before it; a word outside the vocabulary is refused. *)
Definition step (st : option (Z * Z)) (w : string) : option (Z * Z) :=
  match st with
  | None => None
  | Some (total, group) =>
      match wordValue w with
      | Some v => Some (total, group + v)
      | None =>
          if String.eqb w "and" then Some (total, group)
          else if String.eqb w "Hundred" then Some (total, group * 100)
          else if String.eqb w "Thousand" then Some (total + group * 1000, 0)
          else if String.eqb w "Lakh" then Some (total + group * 100000, 0)
          else if String.eqb w "Crore"
            then Some ((total + group) * 10000000, 0)
          else None
      end
  end.

Definition run (ws : list string) (st : option (Z * Z)) : option (Z * Z) :=
  fold_left step ws st.

Definition decode (s : string) : option Z :=
  match run (splitSpace s) (Some (0, 0)) with
  | Some (total, group) => Some (total + group)
  | None => None
  end.

(** The value of a list of number words. *)
Fixpoint wordsValue (ws : list string) : option Z :=
  match ws with
  | [] => Some 0
  | w :: ws' =>
      match wordValue w, wordsValue ws' with
      | Some v, Some v' => Some (v + v')
      | _, _ => None
      end
  end.

Definition optZ_eqb (a b : option Z) : bool :=
  match a, b with
  | Some x, Some y => x =? y
  | None, None => true
  | _, _ => false
  end.

End WordsDecode.

(** ** The [Entries] view: pages

    The page state of the component holds integers: [currentPage] starts
    at 1 and is only set by [handlePageChange]; [entriesPerPage] starts
    at 10 and is set from the choices 10, 15 and 20. *)

Module Pager.

(** [arr.slice(start, end)] at integer bounds: a negative bound counts
    from the end, and both are clamped to the array. *)
Definition slice {A : Type} (start end_ : Z) (arr : list A) : list A :=
  let len := Z.of_nat (List.length arr) in
  let k := if start <? 0 then Z.max (len + start) 0 else Z.min start len in
  let final := if end_ <? 0 then Z.max (len + end_) 0 else Z.min end_ len in
  firstn (Z.to_nat (final - k)) (skipn (Z.to_nat k) arr).

Definition paginatedEntries {A : Type} (filteredEntries : list A)
  (currentPage entriesPerPage : Z) : list A :=
  let startIndex := (currentPage - 1) * entriesPerPage in
  let endIndex := startIndex + entriesPerPage in
  slice startIndex endIndex filteredEntries.

Definition totalPages {A : Type} (filteredEntries : list A)
  (entriesPerPage : Z) : jsnum :=
  js_ceil (js_div (ofZ (Z.of_nat (List.length filteredEntries)))
                  (ofZ entriesPerPage)).

(** [handlePageChange]: the page shown after a request for [page]. *)
Definition handlePageChange (totalPages : jsnum) (currentPage page : Z) : Z :=
  if js_ge page 1 && js_le page totalPages then page else currentPage.

(** The two numbers of the caption [Showing a to b of n entries]. *)
Definition showingFrom (currentPage entriesPerPage : Z) : Z :=
  (currentPage - 1) * entriesPerPage + 1.

Definition showingTo {A : Type} (filteredEntries : list A)
  (currentPage entriesPerPage : Z) : Z :=
  Z.min (currentPage * entriesPerPage)
        (Z.of_nat (List.length filteredEntries)).

(** An item of the page bar: a page button or an ellipsis. *)
Inductive PageItem : Type :=
| Page (n : Z)
| Dots.

(** The integers [lo], [lo + 1], ..., [hi] visited by a counting loop. *)
Definition countFrom (lo hi : Z) : list Z :=
  map (fun k => lo + Z.of_nat k) (List.seq 0 (Z.to_nat (hi - lo + 1))).

(** The first loop of [getPaginationRange], from an integer page
    count. *)
Definition pageRange (currentPage totalPages : Z) : list Z :=
  let delta := 1 in
  ([1]
   ++ countFrom (Z.max 2 (currentPage - delta))
                (Z.min (totalPages - 1) (currentPage + delta))
   ++ (if totalPages >? 1 then [totalPages] else []))%list.

(** The second loop: its state is [prevPage] and [rangeWithDots]. *)
Definition addPage (st : Z * list PageItem) (page : Z) : Z * list PageItem :=
  let (prevPage, rangeWithDots) := st in
  let rangeWithDots' :=
    if negb (prevPage =? 0) && (page - prevPage >? 1)
    then (rangeWithDots ++ [Dots])%list else rangeWithDots in
  (page, (rangeWithDots' ++ [Page page])%list).

Definition getPaginationRange (currentPage totalPages : Z) : list PageItem :=
  snd (fold_left addPage (pageRange currentPage totalPages) (0, [])).

End Pager.

(** What the page bar is expected to show. *)
Module PagerSpec.

Import Pager.

(** The pages with a button: the first, the last, the current one and
    its two neighbours. *)
Definition shownPages (currentPage totalPages : Z) : list Z :=
  filter
    (fun p =>
       (p =? 1) || (p =? totalPages)
       || ((currentPage - 1 <=? p) && (p <=? currentPage + 1)))
    (countFrom 1 totalPages).

(** The buttons of a list of pages, with an ellipsis wherever two
    neighbours in the list are more than one page apart. *)
Fixpoint gapsAfter (prev : Z) (pages : list Z) : list PageItem :=
  match pages with
  | [] => []
  | p :: rest =>
      ((if p - prev >? 1 then [Dots] else []) ++ Page p :: gapsAfter p rest)%list
  end.

Definition withGaps (pages : list Z) : list PageItem :=
  match pages with
  | [] => []
  | p :: rest => Page p :: gapsAfter p rest
  end.

End PagerSpec.

(** ** [Set] of strings

    A set is the list of its elements in insertion order. *)

Module JsSet.

(** [set.has(x)]. *)
Definition has (set : list string) (x : string) : bool :=
  existsb (String.eqb x) set.

(** [set.add(x)]. *)
Definition add (set : list string) (x : string) : list string :=
  if has set x then set else (set ++ [x])%list.

(** [new Set(iterable)]. *)
Definition ofList (l : list string) : list string := fold_left add l [].

End JsSet.

(** ** The [Dashboard] view: the bar charts *)

Module Charts.

(** [[...new Set(filteredEntries.map((e) => e.property))]]. *)
Definition properties (filteredEntries : list Entry.t) : list string :=
  JsSet.ofList (map Entry.property filteredEntries).

(** The entries of one bar: [filter((e) => e.property === prop &&
    e.type === type)]. *)
Definition barEntries (prop type : string) (filteredEntries : list Entry.t)
  : list Entry.t :=
  filter
    (fun e =>
       String.eqb (Entry.property e) prop && String.eqb (Entry.type e) type)
    filteredEntries.




End Charts.

(** Amounts that are whole numbers, on which addition is exact. *)
Module WholeAmounts.


(** The whole amount of an entry, and of a list of entries. *)
Definition whole (e : Entry.t) : Z :=
  match Entry.amount e with Fin q => Qnum q | _ => 0 end.

Definition total (l : list Entry.t) : Z := fold_right Z.add 0 (map whole l).


End WholeAmounts.

Module ChartScenario.

Definition entry (id type property : string) (amount : Z) : Entry.t :=
  {| Entry.id := id; Entry.name := "n"; Entry.contact := "c";
     Entry.type := type; Entry.category := "Rent"; Entry.amount := amount;
     Entry.date := "2024-01-15"; Entry.renewDate := "";
     Entry.renewDateReminder := 0; Entry.property := property |}.

Definition entries : list Entry.t :=
  [entry "a" "Income" "Home" 1000; entry "b" "Expense" "Home" 250;
   entry "c" "Income" "Office" 500; entry "d" "Income" "Home" 200;
   entry "e" "Transfer" "Office" 40].

End ChartScenario.

(** How pressing a reminder is: a status only moves up this scale as
    the days pass. *)
Definition urgency (s : Status) : Z :=
  match s with
  | Approaching => 0
  | Due => 1
  | PastDue => 2
  end.

(** The order a sorted view is expected to have. *)
Module OrderSpec.

(** [a] comes no later than [b] by date, in the direction of the sort. *)
Definition byDate (h : Host) (d : Direction) (a b : Entry.t) : Prop :=
  exists ta tb,
    date_parse h (Entry.date a) = Some ta
    /\ date_parse h (Entry.date b) = Some tb
    /\ match d with Asc => ta <= tb | Desc => tb <= ta end.

(** [a] comes no later than [b] by amount, in the direction of the
    sort. *)
Definition byAmount (d : Direction) (a b : Entry.t) : Prop :=
  match d with
  | Asc => js_le (Entry.amount a) (Entry.amount b) = true
  | Desc => js_le (Entry.amount b) (Entry.amount a) = true
  end.

End OrderSpec.

(** ** Deleting an entry ([deleteEntry] in [services/api.ts])

    The store is outside the repository: what it answers to the calls
    of one attempt is given by the attempt number. *)

Module ApiDelete.

(** What the store does during one attempt. *)
Inductive Answer : Type :=
| Gone                      (** [getDoc] finds no document *)
| Removed                   (** [getDoc] finds it and [deleteDoc] succeeds *)
| Fails (message : string). (** [getDoc] or [deleteDoc] raises an error *)

(** How a call ends. *)
Inductive Result : Type :=
| Resolved
| Rejected (message : string)
| Unfinished.               (** the loop was cut short *)

(** What the caller can observe: the attempts made, the waits in
    milliseconds, and how the call ended. *)
Record Run : Type := {
  attempts : list Z;
  waits : list Z;
  result : Result
}.

Definition maxRetries : Z := 3.

(** The error caught in one attempt, if any. *)
Definition caught (id : string) (a : Answer) : option string :=
  match a with
  | Gone => Some ("No document to delete: " ++ id)
  | Removed => None
  | Fails message => Some message
  end.

(** The [while] loop, with a bound on the number of iterations. *)
Fixpoint loop (fuel : nat) (store : Z -> Answer) (id : string) (attempt : Z)
  : Run :=
  match fuel with
  | O => {| attempts := []; waits := []; result := Unfinished |}
  | S fuel' =>
      if attempt <=? maxRetries then
        match caught id (store attempt) with
        | None => {| attempts := [attempt]; waits := []; result := Resolved |}
        | Some message =>
            if includes message "No document to delete" then
              {| attempts := [attempt]; waits := [];
                 result := Rejected message |}
            else if attempt =? maxRetries then
              {| attempts := [attempt]; waits := [];
                 result :=
                   Rejected ("Failed to delete entry after 3 attempts: "
                             ++ message) |}
            else
              let rest := loop fuel' store id (attempt + 1) in
              {| attempts := attempt :: attempts rest;
                 waits := 1000 * attempt :: waits rest;
                 result := result rest |}
        end
      else {| attempts := []; waits := []; result := Resolved |}
  end.

Definition deleteEntry (fuel : nat) (store : Z -> Answer) (id : string) : Run :=
  loop fuel store id 1.

End ApiDelete.

(** How [deleteEntry] is expected to end. *)
Module ApiDeleteSpec.

Import ApiDelete.

(** An attempt after which the loop tries again: an error that does not
    speak of a missing document. *)
Definition transient (a : Answer) : bool :=
  match a with
  | Fails message => negb (includes message "No document to delete")
  | _ => false
  end.

(** How the attempt that ends the call ends it. *)
Definition verdict (id : string) (a : Answer) : Result :=
  match a with
  | Removed => Resolved
  | Gone => Rejected ("No document to delete: " ++ id)
  | Fails message =>
      if includes message "No document to delete" then Rejected message
      else Rejected ("Failed to delete entry after 3 attempts: " ++ message)
  end.

End ApiDeleteSpec.

(** ** The settings form ([Settings.tsx]) *)

Module SettingsForm.

(** [s.split(',')]. *)
Fixpoint splitComma (s : string) : list string :=
  match s with
  | EmptyString => [EmptyString]
  | String c s' =>
      if Ascii.eqb c ","%char then EmptyString :: splitComma s'
      else match splitComma s' with
           | w :: ws => String c w :: ws
           | [] => [String c EmptyString]
           end
  end.

(** The comparison behind [sort()] without a comparator: strings by
    their code units. *)
Definition defaultCompare (a b : string) : jsnum :=
  match String.compare a b with
  | Lt => ofZ (-1)
  | Eq => 0
  | Gt => 1
  end.

(** A list field of the form, as [onSubmit] stores it:
    [split(',').map((item) => item.trim()).filter(Boolean).sort()]. *)
Definition parseList (field : string) : list string :=
  js_sort defaultCompare (filter nonEmpty (map trim (splitComma field))).

(** A stored list, as the form shows it: [join(', ')]. *)
Definition showList (items : list string) : string :=
  String.concat ", " items.

End SettingsForm.

(** Notions about the items of a list field. *)
Module SettingsSpec.

(** No comma in a string. *)
Fixpoint commaFree (s : string) : bool :=
  match s with
  | EmptyString => true
  | String c s' => negb (Ascii.eqb c ","%char) && commaFree s'
  end.


(** [a] is not after [b] in the order of code units. *)
Definition notAfter (a b : string) : Prop := String.compare a b <> Gt.

End SettingsSpec.

(** ** Writing an entry ([addEntry] and [updateEntry] in
    [services/api.ts])

    Both hand the fields of the entry, without its [id], to the store,
    which keeps each value as it is; [updateEntry] writes the document
    named by the [id], [addEntry] one that the store names. *)

Module ApiWrite.

Import Api.

Definition stored (docId : string) (e : Entry.t) : Doc :=
  {| doc_id := docId;
     d_name := Some (Entry.name e);
     d_contact := Some (Entry.contact e);
     d_type := Some (Entry.type e);
     d_category := Some (Entry.category e);
     d_amount := SNum (Entry.amount e);
     d_date := DText (Entry.date e);
     d_renewDate := DText (Entry.renewDate e);
     d_renewDateReminder := SNum (Entry.renewDateReminder e);
     d_property := Some (Entry.property e) |}.

End ApiWrite.

(** ** Importing a CSV file ([handleCSVImport] in [Settings.tsx])

    The parser of the file, the generator of identifiers, [parseFloat]
    and the store are outside the repository: the rows are taken as
    parsed, and what [uuidv4], [parseFloat], [addDoc] and [saveSettings]
    answer is given. *)

Module CsvImport.

(** A row of the file, by column name; a column that the file does not
    have is [undefined]. *)
Record Row : Type := {
  r_id : option string;
  r_name : option string;
  r_contact : option string;
  r_type : option string;
  r_category : option string;
  r_amount : option string;
  r_date : option string;
  r_renewDate : option string;
  r_renewDateReminder : option string;
  r_property : option string
}.

Record SettingsData : Type := {
  properties : list string;
  incomeCategories : list string;
  expenseCategories : list string;
  pdfTemplate : string;
  pdfFilename : string
}.

(** The three sets and the four counters of the loop, with what has
    reached the store and the waits so far. *)
Record Progress : Type := {
  updatedProperties : list string;
  updatedIncomeCategories : list string;
  updatedExpenseCategories : list string;
  newProperties : Z;
  newIncomeCategories : Z;
  newExpenseCategories : Z;
  newEntries : Z;
  written : list Entry.t;
  waits : list Z
}.

(** How the import ends: with the settings of the component replaced
    and the counts reported, or with an error reported. *)
Inductive Ending : Type :=
| Imported (settings : SettingsData)
           (entries properties incomeCategories expenseCategories : Z)
| Failed.

(** What surrounds one import. *)
Record World : Type := {
  parseFloat : string -> jsnum;
  (** [new Date().toISOString().split('T')[0]]. *)
  today : string;
  (** [uuidv4()] during the row of a given index. *)
  uuidv4 : nat -> string;
  (** Whether [addDoc] succeeds for the row of a given index, at the
      first and at the second attempt. *)
  addDoc : nat -> Z -> bool;
  (** Whether [saveSettings] succeeds at the first and at the second
      attempt. *)
  saveSettings : Z -> bool
}.

Section Handler.

Context (h : Host) (w : World).

(** [Number(v)] and [parseFloat(v)] on a column. *)
Definition number (v : option string) : jsnum :=
  match v with
  | Some s => string_toNumber h s
  | None => NaN
  end.

Definition float (v : option string) : jsnum :=
  match v with
  | Some s => parseFloat w s
  | None => NaN
  end.

Definition rowEntry (i : nat) (row : Row) : Entry.t :=
  {| Entry.id := Api.orElse (r_id row) (uuidv4 w i);
     Entry.name := Api.orElse (r_name row) "";
     Entry.contact := Api.orElse (r_contact row) "";
     Entry.type :=
       match r_type row with
       | Some t =>
           if String.eqb t "Income" || String.eqb t "Expense" then t
           else "Income"
       | None => "Income"
       end;
     Entry.category := Api.orElse (r_category row) "";
     Entry.amount :=
       if js_truthy (float (r_amount row)) then float (r_amount row) else 0;
     Entry.date := Api.orElse (r_date row) (today w);
     Entry.renewDate := Api.orElse (r_renewDate row) (today w);
     Entry.renewDateReminder :=
       if Api.allowedReminder (number (r_renewDateReminder row))
       then number (r_renewDateReminder row) else 0;
     Entry.property := Api.orElse (r_property row) "" |}.

(** The three guarded additions to the sets. *)
Definition noteProperty (p : Progress) (entry : Entry.t) : Progress :=
  if negb (JsSet.has (updatedProperties p) (Entry.property entry))
     && nonEmpty (Entry.property entry)
  then {| updatedProperties :=
            JsSet.add (updatedProperties p) (Entry.property entry);
          updatedIncomeCategories := updatedIncomeCategories p;
          updatedExpenseCategories := updatedExpenseCategories p;
          newProperties := newProperties p + 1;
          newIncomeCategories := newIncomeCategories p;
          newExpenseCategories := newExpenseCategories p;
          newEntries := newEntries p;
          written := written p;
          waits := waits p |}
  else p.

Definition noteIncomeCategory (p : Progress) (entry : Entry.t) : Progress :=
  if String.eqb (Entry.type entry) "Income"
     && negb (JsSet.has (updatedIncomeCategories p) (Entry.category entry))
     && nonEmpty (Entry.category entry)
  then {| updatedProperties := updatedProperties p;
          updatedIncomeCategories :=
            JsSet.add (updatedIncomeCategories p) (Entry.category entry);
          updatedExpenseCategories := updatedExpenseCategories p;
          newProperties := newProperties p;
          newIncomeCategories := newIncomeCategories p + 1;
          newExpenseCategories := newExpenseCategories p;
          newEntries := newEntries p;
          written := written p;
          waits := waits p |}
  else p.

Definition noteExpenseCategory (p : Progress) (entry : Entry.t) : Progress :=
  if String.eqb (Entry.type entry) "Expense"
     && negb (JsSet.has (updatedExpenseCategories p) (Entry.category entry))
     && nonEmpty (Entry.category entry)
  then {| updatedProperties := updatedProperties p;
          updatedIncomeCategories := updatedIncomeCategories p;
          updatedExpenseCategories :=
            JsSet.add (updatedExpenseCategories p) (Entry.category entry);
          newProperties := newProperties p;
          newIncomeCategories := newIncomeCategories p;
          newExpenseCategories := newExpenseCategories p + 1;
          newEntries := newEntries p;
          written := written p;
          waits := waits p |}
  else p.

Definition note (p : Progress) (entry : Entry.t) : Progress :=
  noteExpenseCategory (noteIncomeCategory (noteProperty p entry) entry) entry.

(** A call tried twice, one second apart: the waits when one of the two
    attempts succeeds, [None] when the second error is raised. *)
Definition twice (attempt : Z -> bool) : option (list Z) :=
  if attempt 1 then Some []
  else if attempt 2 then Some [1000]
  else None.

(** One more entry in the store. *)
Definition added (p : Progress) (entry : Entry.t) (ws : list Z) : Progress :=
  {| updatedProperties := updatedProperties p;
     updatedIncomeCategories := updatedIncomeCategories p;
     updatedExpenseCategories := updatedExpenseCategories p;
     newProperties := newProperties p;
     newIncomeCategories := newIncomeCategories p;
     newExpenseCategories := newExpenseCategories p;
     newEntries := newEntries p + 1;
     written := (written p ++ [entry])%list;
     waits := (waits p ++ ws)%list |}.

Definition waited (p : Progress) (ws : list Z) : Progress :=
  {| updatedProperties := updatedProperties p;
     updatedIncomeCategories := updatedIncomeCategories p;
     updatedExpenseCategories := updatedExpenseCategories p;
     newProperties := newProperties p;
     newIncomeCategories := newIncomeCategories p;
     newExpenseCategories := newExpenseCategories p;
     newEntries := newEntries p;
     written := written p;
     waits := (waits p ++ ws)%list |}.

(** The loop over the rows, from the row of index [i]: the progress
    made, and whether the loop ran to its end. *)
Fixpoint importRows (i : nat) (rows : list Row) (p : Progress)
  : Progress * bool :=
  match rows with
  | [] => (p, true)
  | row :: rest =>
      let entry := rowEntry i row in
      let p' := note p entry in
      match twice (addDoc w i) with
      | Some ws => importRows (S i) rest (added p' entry ws)
      | None => (waited p' [1000], false)
      end
  end.

Definition start (currentSettings : SettingsData) : Progress :=
  {| updatedProperties := JsSet.ofList (properties currentSettings);
     updatedIncomeCategories := JsSet.ofList (incomeCategories currentSettings);
     updatedExpenseCategories :=
       JsSet.ofList (expenseCategories currentSettings);
     newProperties := 0;
     newIncomeCategories := 0;
     newExpenseCategories := 0;
     newEntries := 0;
     written := [];
     waits := [] |}.

Definition updatedSettings (currentSettings : SettingsData) (p : Progress)
  : SettingsData :=
  {| properties :=
       js_sort SettingsForm.defaultCompare (updatedProperties p);
     incomeCategories :=
       js_sort SettingsForm.defaultCompare (updatedIncomeCategories p);
     expenseCategories :=
       js_sort SettingsForm.defaultCompare (updatedExpenseCategories p);
     pdfTemplate := pdfTemplate currentSettings;
     pdfFilename := pdfFilename currentSettings |}.

(** [handleCSVImport]: what reached the store, the waits, and the
    ending. *)
Definition handleCSVImport (currentSettings : SettingsData)
  (data : list Row) : list Entry.t * list Z * Ending :=
  let (p, finished) := importRows 0 data (start currentSettings) in
  if finished then
    match twice (saveSettings w) with
    | Some ws =>
        (written p, (waits p ++ ws)%list,
         Imported (updatedSettings currentSettings p) (newEntries p)
           (newProperties p) (newIncomeCategories p)
           (newExpenseCategories p))
    | None => (written p, (waits p ++ [1000])%list, Failed)
    end
  else (written p, waits p, Failed).

End Handler.

End CsvImport.

(** What an import is expected to do. *)
Module CsvImportSpec.

Import CsvImport.

Section Rows.

Context (h : Host) (w : World).

(** The entries of the rows, the first row having index [i]. *)
Fixpoint entriesFrom (i : nat) (rows : list Row) : list Entry.t :=
  match rows with
  | [] => []
  | row :: rest =>
      rowEntry h w i row :: entriesFrom (S i) rest
  end.

End Rows.

(** One of the two attempts succeeds. *)
Definition succeeds (attempt : Z -> bool) : bool := attempt 1 || attempt 2.

(** One guarded addition to a set: of the name of an entry that
    [counts] selects, unless the name is empty. *)
Definition collect (counts : Entry.t -> bool) (name : Entry.t -> string)
  (set : list string) (e : Entry.t) : list string :=
  if counts e && nonEmpty (name e) then JsSet.add set (name e) else set.

Definition isIncome (e : Entry.t) : bool := String.eqb (Entry.type e) "Income".
Definition isExpense (e : Entry.t) : bool :=
  String.eqb (Entry.type e) "Expense".
Definition always (e : Entry.t) : bool := true.

(** The names that a list of entries adds to a set: those of the entries
    that [counts] selects, the empty name apart. *)
Definition named (counts : Entry.t -> bool) (name : Entry.t -> string)
  (entries : list Entry.t) (x : string) : Prop :=
  x <> "" /\ exists e, In e entries /\ counts e = true /\ name e = x.

End CsvImportSpec.

(** A list of the settings after an import, and the count reported for
    it: the old names and those the entries add, each once, in the order
    of code units; the count is the number of names that are new. *)
Module ImportedList.

Import CsvImportSpec.

Definition grown (old : list string) (counts : Entry.t -> bool)
  (name : Entry.t -> string) (entries : list Entry.t)
  (new : list string) (count : Z) : Prop :=
  StronglySorted SettingsSpec.notAfter new
  /\ NoDup new
  /\ (forall x, In x new <-> In x old \/ named counts name entries x)
  /\ count
     = Z.of_nat (List.length new)
       - Z.of_nat (List.length (JsSet.ofList old)).

End ImportedList.

(** A world for the examples: [parseFloat] on decimal integers, every
    call to the store succeeding at the second attempt. *)
Module ImportScenario.

Import CsvImport.

Definition world : World :=
  {| parseFloat :=
       fun s => match RefHost.parseInteger s with
                | Some z => ofZ z
                | None => NaN
                end;
     today := "2025-05-21";
     uuidv4 := fun i => "generated";
     addDoc := fun i attempt => attempt =? 2;
     saveSettings := fun attempt => attempt =? 2 |}.

Definition row (id type category amount property : string) : Row :=
  {| r_id := Some id; r_name := Some "n"; r_contact := None;
     r_type := Some type; r_category := Some category;
     r_amount := Some amount; r_date := Some "2025-01-31";
     r_renewDate := None; r_renewDateReminder := Some "7";
     r_property := Some property |}.

Definition data : list Row :=
  [row "a" "Income" "Rent" "1200" "Home";
   row "" "Transfer" "Gift" "abc" "Shop";
   row "c" "Expense" "Travel" "300" "Home"].

Definition current : SettingsData :=
  {| properties := ["Home"; "Office"];
     incomeCategories := ["Salary"];
     expenseCategories := ["Travel"];
     pdfTemplate := "{{name}}";
     pdfFilename := "{{name}}_{{date}}.pdf" |}.

End ImportScenario.

(** ** The [Dashboard] view: the months of the filter menu *)

Module Months.

(** [s.split(sep)] at a separator of one character. *)
Fixpoint split (sep : ascii) (s : string) : list string :=
  match s with
  | EmptyString => [EmptyString]
  | String c s' =>
      if Ascii.eqb c sep then EmptyString :: split sep s'
      else match split sep s' with
           | w :: ws => String c w :: ws
           | [] => [String c EmptyString]
           end
  end.

Section Menu.

Context (h : Host).

(** The [forEach] pass: the set of month labels, and the dates written
    to the console as invalid. *)
Definition collectMonths (entries : list Entry.t) : list string * list string :=
  fold_left
    (fun (st : list string * list string) entry =>
       match date_parse h (Entry.date entry) with
       | None => (fst st, (snd st ++ [Entry.date entry])%list)
       | Some t => (JsSet.add (fst st) (date_monthYear h t), snd st)
       end)
    entries ([], []).

(** The date that the comparison makes of a label:
    [new Date(`${month} 1, ${year}`)]. *)
Definition firstOfMonth (label : string) : string :=
  let fields := split " " label in
  tmpl (nth_error fields 0) ++ " 1, " ++ tmpl (nth_error fields 1).

Definition compareMonths (a b : string) : jsnum :=
  js_sub (getTime h (firstOfMonth a)) (getTime h (firstOfMonth b)).

Definition uniqueMonths (entries : list Entry.t) : list string :=
  js_sort compareMonths (fst (collectMonths entries)).

End Menu.

End Months.

(** What a month label is expected to be on the runtime. *)
Module MonthSpec.

(** A character that a string does not hold. *)
Fixpoint lacks (a : ascii) (s : string) : bool :=
  match s with
  | EmptyString => true
  | String c s' => negb (Ascii.eqb c a) && lacks a s'
  end.

(** The filters that are not months. *)
Definition fixedFilters : list string :=
  ["Last 7 Days"; "Last 30 Days"; "Current Month"; "Current Year";
   "Custom Range"].

(** The label of the time [t] is a month name and a year that the
    runtime reads back to the month and the year of [t]. *)
Definition readsBack (h : Host) (t : Z) : Prop :=
  exists month year,
    date_monthYear h t = month ++ " " ++ year
    /\ lacks " " month = true
    /\ lacks "-" month = true
    /\ lacks "-" year = true
    /\ ~ In (month ++ " " ++ year) fixedFilters
    /\ option_map (date_getMonth h) (date_parse h (month ++ " 1, 2000"))
       = Some (date_getMonth h t)
    /\ parseInt h year = Some (date_getFullYear h t).

(** Two times of one month and year have one label. *)
Definition sameLabel (h : Host) (t t' : Z) : Prop :=
  date_getMonth h t = date_getMonth h t' ->
  date_getFullYear h t = date_getFullYear h t' ->
  date_monthYear h t = date_monthYear h t'.

End MonthSpec.

(** The reference host, reading the form [Mon D, YYYY] too. *)
Module LegacyHost.

(** The index of a month name. *)
Fixpoint monthIndex (name : string) (names : list string) (i : Z) : option Z :=
  match names with
  | [] => None
  | n :: names' =>
      if String.eqb name n then Some i else monthIndex name names' (i + 1)
  end.

(** A day followed by a comma. *)
Definition dayComma (s : string) : option Z :=
  match Months.split "," s with
  | [d; EmptyString] => RefHost.digits d
  | _ => None
  end.

Definition parseLegacy (s : string) : option Z :=
  match Months.split " " s with
  | [m; d; y] =>
      match monthIndex m RefHost.monthNames 0, dayComma d,
            RefHost.fixedDigits 4 y with
      | Some m, Some d, Some y =>
          if (1 <=? d) && (d <=? RefHost.daysInMonth y (m + 1))
          then Some (RefHost.daysFromCivil y (m + 1) d * RefHost.msPerDay)
          else None
      | _, _, _ => None
      end
  | _ => None
  end.

Definition parse (s : string) : option Z :=
  match RefHost.parse s with
  | Some t => Some t
  | None => parseLegacy s
  end.

Definition host : Host :=
  {| date_parse := parse;
     date_getMonth := RefHost.getMonth;
     date_getFullYear := RefHost.getFullYear;
     date_getDate := RefHost.getDate;
     date_setDate := RefHost.setDate;
     date_ofYMD := RefHost.ofYMD;
     date_monthYear := RefHost.monthYear;
     localeCompare := RefHost.compareCodes;
     toLowerCase := RefHost.lower;
     number_toString := RefHost.numberToString;
     string_toNumber := RefHost.stringToNumber;
     parseInt := RefHost.parseInteger |}.

End LegacyHost.

(** * Properties *)

(** ** The reference host and the formatters at sample inputs *)

Example words_0 : Words.numberToWordsIndian 0 = "Zero".
Proof. reflexivity. Qed.

Example words_100000 : Words.numberToWordsIndian 100000 = "One Lakh".
Proof. vm_compute. reflexivity. Qed.

Example words_100005 : Words.numberToWordsIndian 100005 = "One Lakh and Five".
Proof. vm_compute. reflexivity. Qed.

Example words_1234567 :
  Words.numberToWordsIndian 1234567
  = "Twelve Lakh Thirty Four Thousand Five Hundred and Sixty Seven".
Proof. vm_compute. reflexivity. Qed.

Example words_100_5 :
  Words.numberToWordsIndian (Fin (201 # 2)) = "One Hundred and".
Proof. vm_compute. reflexivity. Qed.

Example words_25_5 :
  Words.numberToWordsIndian (Fin (51 # 2)) = "Twenty undefined".
Proof. vm_compute. reflexivity. Qed.

Example rec_101 : WordsRec.numberToWordsIndian 101 = WordsRec.Returns "One Hundred One".
Proof. vm_compute. reflexivity. Qed.

Example rec_1234567 :
  WordsRec.numberToWordsIndian 1234567
  = WordsRec.Returns "Twelve Lakh Thirty Four Thousand Five Hundred Sixty Seven".
Proof. vm_compute. reflexivity. Qed.

Example ref_parse_day : RefHost.parse "2025-05-21" = Some 1747785600000.
Proof. vm_compute. reflexivity. Qed.

Example ref_parse_bad : RefHost.parse "21/05/2025" = None.
Proof. vm_compute. reflexivity. Qed.

Example ref_parse_feb30 : RefHost.parse "2025-02-30" = None.
Proof. vm_compute. reflexivity. Qed.

Example ref_month_year : RefHost.monthYear 1747785600000 = "May 2025".
Proof. vm_compute. reflexivity. Qed.

Example ref_number_string :
  RefHost.numberToString 1500 = "1500"
  /\ RefHost.numberToString (Fin (201 # 2)) = "100.5"
  /\ RefHost.numberToString (Fin (-5 # 4)) = "-1.25".
Proof. repeat split; vm_compute; reflexivity. Qed.

Example ref_epoch :
  RefHost.parse "1970-01-01" = Some 0
  /\ RefHost.parse "2000-02-29" = Some 951782400000
  /\ RefHost.getDate 951782400000 = 29
  /\ RefHost.getMonth 951782400000 = 1
  /\ RefHost.getFullYear 951782400000 = 2000.
Proof. repeat split; vm_compute; reflexivity. Qed.

(** ** Numbers at integers *)

Section IntegerArithmetic.

Lemma Qcompare_inject_Z (a b : Z) : (inject_Z a ?= inject_Z b)%Q = (a ?= b).
Proof. unfold Qcompare; simpl. now rewrite !Z.mul_1_r. Qed.

Lemma Qeq_bool_inject_Z (a b : Z) : Qeq_bool (inject_Z a) (inject_Z b) = (a =? b).
Proof. unfold Qeq_bool; simpl. now rewrite !Z.mul_1_r. Qed.

Lemma Qle_bool_inject_Z (a b : Z) : Qle_bool (inject_Z a) (inject_Z b) = (a <=? b).
Proof. unfold Qle_bool; simpl. now rewrite !Z.mul_1_r. Qed.

Lemma js_gt_int (a b : Z) : js_gt a b = (b <? a).
Proof.
  unfold js_gt, ofZ; simpl. rewrite Qcompare_inject_Z, Z.ltb_antisym.
  unfold Z.leb. destruct (a ?= b); reflexivity.
Qed.

Lemma js_lt_int (a b : Z) : js_lt a b = (a <? b).
Proof.
  unfold js_lt, ofZ; simpl. rewrite Qcompare_inject_Z.
  unfold Z.ltb. destruct (a ?= b); reflexivity.
Qed.

Lemma js_seq_int (a b : Z) : js_seq a b = (a =? b).
Proof.
  unfold js_seq, ofZ; simpl. rewrite Qcompare_inject_Z.
  destruct (Z.compare_spec a b) as [->|H|H].
  - now rewrite Z.eqb_refl.
  - symmetry. apply Z.eqb_neq. lia.
  - symmetry. apply Z.eqb_neq. lia.
Qed.

Lemma js_sub_int (a b : Z) : js_sub a b = ofZ (a - b).
Proof.
  unfold js_sub, ofZ, inject_Z, Qminus, Qplus, Qopp; simpl.
  do 2 f_equal. lia.
Qed.

Lemma js_floor_div_int (n d : Z) :
  d <> 0 -> js_floor (js_div n d) = ofZ (n / d).
Proof.
  intros Hd. unfold js_div, ofZ.
  change 0%Q with (inject_Z 0). rewrite Qeq_bool_inject_Z.
  destruct (Z.eqb_spec d 0) as [->|_]; [contradiction|].
  unfold js_floor. now rewrite <- Zdiv_Qdiv.
Qed.

Lemma Qred_inject_Z (k : Z) : Qred (inject_Z k) = inject_Z k.
Proof. apply Qred_identity. simpl. apply Z.gcd_1_r. Qed.

Lemma js_rem_int (n d : Z) :
  0 <= n -> 0 < d -> js_rem n d = ofZ (n mod d).
Proof.
  intros Hn Hd. unfold js_rem, ofZ.
  change 0%Q with (inject_Z 0). rewrite Qeq_bool_inject_Z.
  destruct (Z.eqb_spec d 0) as [->|_]; [lia|].
  f_equal. rewrite <- (Qred_inject_Z (n mod d)). apply Qred_complete.
  assert (Ht : Qtrunc (inject_Z n / inject_Z d) = n / d).
  { unfold Qtrunc.
    assert (Hle : Qle_bool 0 (inject_Z n / inject_Z d) = true).
    { apply Qle_bool_iff. apply Qle_shift_div_l.
      - change 0%Q with (inject_Z 0). rewrite <- Zlt_Qlt. exact Hd.
      - rewrite Qmult_0_l. change 0%Q with (inject_Z 0). now rewrite <- Zle_Qle. }
    rewrite Hle. now rewrite <- Zdiv_Qdiv. }
  rewrite Ht, <- inject_Z_mult.
  rewrite (Z.mod_eq n d) by lia.
  replace (n - d * (n / d)) with (n + - (d * (n / d))) by lia.
  rewrite inject_Z_plus, inject_Z_opp. reflexivity.
Qed.

Lemma js_index_int {A : Type} (arr : list A) (k : Z) :
  0 <= k -> js_index arr k = nth_error arr (Z.to_nat k).
Proof.
  intros Hk. unfold js_index, ofZ. rewrite Qfloor_Z.
  rewrite Qeq_bool_inject_Z, Z.eqb_refl.
  destruct (Z.leb_spec 0 k); [reflexivity | lia].
Qed.

Lemma js_index_neg {A : Type} (arr : list A) (k : Z) :
  k < 0 -> js_index arr k = None.
Proof.
  intros Hk. unfold js_index, ofZ. rewrite Qfloor_Z.
  destruct (Z.leb_spec 0 k); [lia|]. now rewrite andb_false_r.
Qed.

End IntegerArithmetic.

(** ** Strings: trimming and joining *)

Section Strings.

Lemma append_nil_r (s : string) : s ++ "" = s.
Proof. induction s; simpl; congruence. Qed.

Lemma append_assoc (a b c : string) : (a ++ b) ++ c = a ++ b ++ c.
Proof. induction a; simpl; congruence. Qed.

Lemma append_eq_nil (a b : string) : a ++ b = "" -> a = "" /\ b = "".
Proof. destruct a; simpl; [tauto | discriminate]. Qed.

Lemma trimStart_clean (s : string) : starts_clean s = true -> trimStart s = s.
Proof. destruct s as [|c s]; simpl; [discriminate|]. now destruct (is_space c). Qed.

Lemma starts_clean_app (a b : string) :
  starts_clean a = true -> starts_clean (a ++ b) = true.
Proof. destruct a; simpl; [discriminate | tauto]. Qed.

Lemma ends_clean_app (a b : string) : ends_clean b -> ends_clean (a ++ b).
Proof.
  intros [Hne Hb]. split.
  - intros H. apply append_eq_nil in H. tauto.
  - induction a as [|c a IH]; simpl; [exact Hb|].
    rewrite IH. destruct (a ++ b) eqn:E; [|reflexivity].
    apply append_eq_nil in E. tauto.
Qed.

Lemma trim_clean (s : string) :
  starts_clean s = true -> ends_clean s -> trim s = s.
Proof.
  intros Hs [_ He]. unfold trim. now rewrite trimStart_clean.
Qed.

Lemma concat_cons2 (sep x y : string) (l : list string) :
  String.concat sep (x :: y :: l) = x ++ sep ++ String.concat sep (y :: l).
Proof. reflexivity. Qed.

Lemma concat_starts_clean (sep x : string) (l : list string) :
  starts_clean x = true -> starts_clean (String.concat sep (x :: l)) = true.
Proof.
  intros H. destruct l; simpl; [exact H | now apply starts_clean_app].
Qed.

Lemma concat_ends_clean (sep : string) (l : list string) (z : string) :
  ends_clean z -> ends_clean (String.concat sep (l ++ [z])).
Proof.
  intros H. induction l as [|x l IH]; simpl; [exact H|].
  destruct (l ++ [z])%list eqn:E.
  - now destruct l.
  - rewrite <- append_assoc. now apply ends_clean_app.
Qed.

Lemma join_Some (sep : string) (l : list string) :
  join sep (map Some l) = String.concat sep l.
Proof. unfold join. rewrite map_map. now rewrite map_id. Qed.

Lemma splice_insert_last {A : Type} (x d : A) (l : list A) :
  l <> [] ->
  splice_insert (List.length l - 1) x l = (removelast l ++ [x; last l d])%list.
Proof.
  intros Hl. unfold splice_insert.
  destruct (exists_last Hl) as [l' [a ->]].
  rewrite removelast_last, last_last, length_app. simpl.
  replace (List.length l' + 1 - 1)%nat with (List.length l' + 0)%nat by lia.
  rewrite firstn_app_2, skipn_app. simpl.
  rewrite skipn_all2 by lia.
  replace (List.length l' + 0 - List.length l')%nat with 0%nat by lia.
  simpl. now rewrite app_nil_r.
Qed.

End Strings.

(** ** Exhaustive checks over an initial segment of the integers *)

Section Bounded.

Lemma below_spec (k : nat) (P : Z -> bool) :
  below k P = true -> forall v, 0 <= v < Z.of_nat k -> P v = true.
Proof.
  unfold below. rewrite forallb_forall. intros H v Hv.
  rewrite <- (Z2Nat.id v) by lia. apply H.
  apply in_seq. lia.
Qed.

End Bounded.

(** ** The buckets of an integer amount *)

Section BucketFacts.

Import Buckets.

Lemma bucket_bounds (n : Z) :
  0 <= n ->
  0 <= crore n /\ 0 <= lakh n < 100 /\ 0 <= thousand n < 100
  /\ 0 <= hundred n < 10 /\ 0 <= remainder n < 100.
Proof.
  intros Hn. unfold crore, lakh, thousand, hundred, remainder.
  pose proof (Z.mod_pos_bound n 10000000 ltac:(lia)).
  pose proof (Z.mod_pos_bound n 100000 ltac:(lia)).
  pose proof (Z.mod_pos_bound n 1000 ltac:(lia)).
  pose proof (Z.mod_pos_bound n 100 ltac:(lia)).
  repeat split; try (apply Z.div_pos; lia); try lia;
    apply Z.div_lt_upper_bound; lia.
Qed.

Lemma crore_of_int (n : Z) : 0 <= n -> crore_of n = ofZ (crore n).
Proof. intros. unfold crore_of. now rewrite js_floor_div_int by lia. Qed.

Lemma lakh_of_int (n : Z) : 0 <= n -> lakh_of n = ofZ (lakh n).
Proof.
  intros. unfold lakh_of. rewrite js_rem_int by lia.
  now rewrite js_floor_div_int by lia.
Qed.

Lemma thousand_of_int (n : Z) : 0 <= n -> thousand_of n = ofZ (thousand n).
Proof.
  intros. unfold thousand_of. rewrite js_rem_int by lia.
  now rewrite js_floor_div_int by lia.
Qed.

Lemma hundred_of_int (n : Z) : 0 <= n -> hundred_of n = ofZ (hundred n).
Proof.
  intros. unfold hundred_of. rewrite js_rem_int by lia.
  now rewrite js_floor_div_int by lia.
Qed.

Lemma remainder_of_int (n : Z) : 0 <= n -> remainder_of n = ofZ (remainder n).
Proof. intros. unfold remainder_of. now rewrite js_rem_int by lia. Qed.

Lemma push_if_rendered {A : Type} (v : Z) (x : A) (l : list A) :
  0 <= v -> push_if (js_gt v 0) x l = (l ++ if v =? 0 then [] else [x])%list.
Proof.
  intros Hv. rewrite js_gt_int. unfold push_if.
  destruct (Z.ltb_spec 0 v), (Z.eqb_spec v 0); try lia; trivial.
  now rewrite app_nil_r.
Qed.

Lemma two_digit_check : below 100 two_digit_ok = true.
Proof. vm_compute. reflexivity. Qed.

Lemma two_digit_small (v : Z) :
  0 < v < 100 ->
  exists s, convertTwoDigits v = Some s
            /\ starts_clean s = true /\ ends_clean s /\ s <> "and".
Proof.
  intros Hv. pose proof (below_spec 100 _ two_digit_check v ltac:(lia)) as H.
  unfold two_digit_ok in H.
  destruct (Z.eqb_spec v 0); [lia|]. simpl in H.
  destruct (convertTwoDigits v) as [s|]; [|discriminate].
  exists s. repeat rewrite andb_true_iff in H.
  destruct H as [[[H1 H2] H3] H4].
  repeat split; trivial.
  - intros ->. discriminate.
  - now apply String.eqb_eq.
  - intros ->. discriminate.
Qed.

End BucketFacts.

(** ** The renderings of the buckets *)

Section Renderings.

Import Buckets.

Lemma string_length_app (a b : string) :
  String.length (a ++ b) = (String.length a + String.length b)%nat.
Proof. induction a; simpl; congruence. Qed.

Lemma two_digit_large (v : Z) :
  100 <= v ->
  tmpl (convertTwoDigits v)
  = "undefined"
    ++ (if v mod 10 =? 0 then ""
        else " " ++ tmpl (nth_error units (Z.to_nat (v mod 10)))).
Proof.
  intros Hv. unfold convertTwoDigits.
  rewrite js_seq_int, !js_lt_int.
  destruct (Z.eqb_spec v 0); [lia|].
  destruct (Z.ltb_spec v 10); [lia|].
  destruct (Z.ltb_spec v 20); [lia|].
  rewrite js_floor_div_int, js_rem_int, js_seq_int by lia.
  pose proof (Z.mod_pos_bound v 10 ltac:(lia)).
  assert (Hten : 10 <= v / 10) by (apply Z.div_le_lower_bound; lia).
  rewrite !js_index_int by lia.
  assert (Hnone : nth_error tens (Z.to_nat (v / 10)) = None).
  { apply nth_error_None. simpl. lia. }
  rewrite Hnone. destruct (v mod 10 =? 0); reflexivity.
Qed.

Lemma two_digit_starts_clean (v : Z) :
  0 < v -> starts_clean (tmpl (convertTwoDigits v)) = true.
Proof.
  intros Hv. destruct (Z.lt_ge_cases v 100) as [Hlt|Hge].
  - destruct (two_digit_small v ltac:(lia)) as (s & -> & Hs & _). exact Hs.
  - rewrite two_digit_large by exact Hge. reflexivity.
Qed.

(** A magnitude part [<two digits> <word>]. *)
Lemma magnitude_part_ok (v : Z) (word : string) :
  0 < v -> ends_clean word -> (3 < String.length word)%nat ->
  let s := tmpl (convertTwoDigits v) ++ word in
  starts_clean s = true /\ ends_clean s /\ s <> "and".
Proof.
  intros Hv Hw Hlen s. subst s. repeat split.
  - apply starts_clean_app. now apply two_digit_starts_clean.
  - apply (ends_clean_app _ _ Hw).
  - apply (ends_clean_app _ _ Hw).
  - intros H. apply (f_equal String.length) in H.
    rewrite string_length_app in H. simpl in H. lia.
Qed.

Lemma hundred_check : below 10 hundred_ok = true.
Proof. vm_compute. reflexivity. Qed.

Lemma hundred_part_ok (v : Z) :
  0 < v < 10 ->
  let s := tmpl (js_index units v) ++ " Hundred" in
  starts_clean s = true /\ ends_clean s /\ s <> "and".
Proof.
  intros Hv s. pose proof (below_spec 10 _ hundred_check v ltac:(lia)) as H.
  unfold hundred_ok in H. destruct (Z.eqb_spec v 0); [lia|]. simpl in H.
  apply andb_true_iff in H. destruct H as [H1 H2].
  apply String.eqb_eq in H2. subst s. repeat split; trivial.
  - intros H. apply append_eq_nil in H. destruct H; discriminate.
  - intros H. apply (f_equal String.length) in H.
    rewrite string_length_app in H. simpl in H. lia.
Qed.

Lemma ends_clean_word (w : string) :
  w <> "" -> trimEnd w = w -> ends_clean w.
Proof. now split. Qed.

Lemma Forall_rendered (v : Z) (s : string) :
  (v <> 0 -> part_ok s) -> Forall part_ok (rendered v s).
Proof.
  intros H. unfold rendered. destruct (Z.eqb_spec v 0); constructor; auto.
Qed.

Lemma renderings_ok (n : Z) : 0 <= n -> Forall part_ok (renderings n).
Proof.
  intros Hn. destruct (bucket_bounds n Hn) as (Hc & Hl & Ht & Hh & Hr).
  unfold renderings.
  apply Forall_app; split; [|apply Forall_app; split;
    [|apply Forall_app; split; [|apply Forall_app; split]]];
    apply Forall_rendered; intros Hnz.
  - apply magnitude_part_ok; [lia | now split | simpl; lia].
  - apply magnitude_part_ok; [lia | now split | simpl; lia].
  - apply magnitude_part_ok; [lia | now split | simpl; lia].
  - apply hundred_part_ok. lia.
  - destruct (two_digit_small (remainder n) ltac:(lia)) as (s & -> & H1 & H2 & H3).
    exact (conj H1 (conj H2 H3)).
Qed.

Lemma renderings_length (n : Z) : List.length (renderings n) = nonzero n.
Proof.
  unfold renderings, nonzero, values, rendered. simpl.
  destruct (crore n =? 0), (lakh n =? 0), (thousand n =? 0),
    (hundred n =? 0), (remainder n =? 0); reflexivity.
Qed.

Lemma parts_int (n : Z) :
  0 <= n -> parts n = map Some (renderings n).
Proof.
  intros Hn. destruct (bucket_bounds n Hn) as (Hc & Hl & Ht & Hh & Hr).
  unfold parts.
  rewrite crore_of_int, lakh_of_int, thousand_of_int, hundred_of_int,
    remainder_of_int by exact Hn.
  rewrite !push_if_rendered by lia.
  unfold renderings, rendered. rewrite !map_app. simpl.
  assert (Hrem : (if remainder n =? 0 then []
                  else [convertTwoDigits (remainder n)])
                 = map Some (if remainder n =? 0 then []
                             else [tmpl (convertTwoDigits (remainder n))])).
  { destruct (Z.eqb_spec (remainder n) 0); [reflexivity|].
    destruct (two_digit_small (remainder n) ltac:(lia)) as (s & -> & _).
    reflexivity. }
  rewrite Hrem.
  destruct (crore n =? 0), (lakh n =? 0), (thousand n =? 0),
    (hundred n =? 0), (remainder n =? 0); reflexivity.
Qed.

Lemma nonZeroUnits_int (n : Z) :
  0 <= n -> List.length (nonZeroUnits n) = nonzero n.
Proof.
  intros Hn. destruct (bucket_bounds n Hn) as (Hc & Hl & Ht & Hh & Hr).
  unfold nonZeroUnits.
  rewrite crore_of_int, lakh_of_int, thousand_of_int, hundred_of_int,
    remainder_of_int by exact Hn.
  rewrite !push_if_rendered by lia.
  unfold nonzero, values. simpl.
  destruct (crore n =? 0), (lakh n =? 0), (thousand n =? 0),
    (hundred n =? 0), (remainder n =? 0); reflexivity.
Qed.

Lemma nonzero_positive (n : Z) : 0 <= n -> (0 < nonzero n)%nat -> n <> 0.
Proof. intros _ H ->. vm_compute in H. lia. Qed.

End Renderings.

(** ** The bucket formatter at integers *)

Section BucketOutput.

Import Buckets.

Lemma with_and_map_Some (rs : list string) :
  rs <> [] ->
  splice_insert (List.length (map Some rs) - 1) (Some "and") (map Some rs)
  = map Some (with_and rs).
Proof.
  intros Hrs. rewrite (splice_insert_last _ (Some "")) by (now destruct rs).
  unfold with_and. destruct (exists_last Hrs) as [l [a ->]].
  rewrite map_app. simpl.
  rewrite !removelast_last, !last_last, map_app. reflexivity.
Qed.

Lemma with_and_clean (rs : list string) :
  (1 < List.length rs)%nat -> Forall part_ok rs ->
  trim (String.concat " " (with_and rs)) = String.concat " " (with_and rs).
Proof.
  intros Hlen Hok. unfold with_and.
  destruct rs as [|x rs]; [simpl in Hlen; lia|].
  destruct rs as [|y rs]; [simpl in Hlen; lia|].
  assert (Hx : part_ok x) by (now inversion Hok).
  assert (Hlast : part_ok (last (x :: y :: rs) "")).
  { rewrite Forall_forall in Hok. apply Hok.
    destruct (exists_last (l := x :: y :: rs) ltac:(discriminate)) as [l [a E]].
    rewrite E, last_last, <- E. rewrite E. apply in_or_app. right. now left. }
  apply trim_clean.
  - change (removelast (x :: y :: rs)) with (x :: removelast (y :: rs)).
    apply concat_starts_clean. apply Hx.
  - replace (removelast (x :: y :: rs) ++ ["and"; last (x :: y :: rs) ""])%list
      with ((removelast (x :: y :: rs) ++ ["and"]) ++ [last (x :: y :: rs) ""])%list
      by (now rewrite <- app_assoc).
    apply concat_ends_clean. apply Hlast.
Qed.

(** The bucket formatter on a positive integer: the renderings joined by
    single spaces, with "and" before the last one when there are several. *)
Lemma bucket_words_int (n : Z) :
  0 < n ->
  Words.numberToWordsIndian n
  = String.concat " "
      (if (1 <? nonzero n)%nat then with_and (renderings n) else renderings n).
Proof.
  intros Hn. unfold Words.numberToWordsIndian.
  rewrite js_seq_int. destruct (Z.eqb_spec n 0); [lia|].
  rewrite parts_int, nonZeroUnits_int by lia.
  pose proof (renderings_ok n ltac:(lia)) as Hok.
  pose proof (renderings_length n) as Hlen.
  destruct (Nat.ltb_spec 1 (nonzero n)) as [H1|H1].
  - rewrite with_and_map_Some by (intros E; rewrite E in Hlen; simpl in Hlen; lia).
    rewrite join_Some. apply with_and_clean; [lia | exact Hok].
  - rewrite join_Some.
    destruct (renderings n) as [|x [|y rs]]; [reflexivity | | simpl in Hlen; lia].
    inversion Hok as [|? ? [Hs [He _]] _]; subst. simpl.
    now apply trim_clean.
Qed.


End BucketOutput.



(** ** The recursive formatter at integers *)

Section RecursiveTiers.

Import Buckets.

Lemma renderings_tail (m : Z) :
  renderings m
  = (rendered (crore m) (tmpl (convertTwoDigits (crore m)) ++ " Crore")
     ++ tail4 m)%list.
Proof. reflexivity. Qed.

(** Goals about quotients and remainders by the bucket sizes. *)
Ltac divmod := unfold crore, lakh, thousand, hundred, remainder in *;
  Z.div_mod_to_equations; lia.

Lemma tail1_mod (m b : Z) :
  0 <= m -> (b = 1000 \/ b = 100000 \/ b = 10000000) ->
  tail1 (m mod b) = tail1 m.
Proof.
  intros Hm Hb. unfold tail1.
  replace (remainder (m mod b)) with (remainder m); [reflexivity|].
  destruct Hb as [->|[->| ->]]; divmod.
Qed.

Lemma tail1_mod100 (m : Z) : 0 <= m -> tail1 (m mod 100) = tail1 m.
Proof.
  intros Hm. unfold tail1.
  replace (remainder (m mod 100)) with (remainder m); [reflexivity|].
  divmod.
Qed.

Lemma tail2_mod (m b : Z) :
  0 <= m -> (b = 1000 \/ b = 100000 \/ b = 10000000) ->
  tail2 (m mod b) = tail2 m.
Proof.
  intros Hm Hb. unfold tail2. rewrite tail1_mod by assumption.
  replace (hundred (m mod b)) with (hundred m); [reflexivity|].
  destruct Hb as [->|[->| ->]]; divmod.
Qed.

Lemma tail3_mod (m b : Z) :
  0 <= m -> (b = 100000 \/ b = 10000000) ->
  tail3 (m mod b) = tail3 m.
Proof.
  intros Hm Hb. unfold tail3. rewrite tail2_mod by tauto.
  replace (thousand (m mod b)) with (thousand m); [reflexivity|].
  destruct Hb as [->| ->]; divmod.
Qed.

Lemma tail4_mod (m : Z) : 0 <= m -> tail4 (m mod 10000000) = tail4 m.
Proof.
  intros Hm. unfold tail4. rewrite tail3_mod by tauto.
  replace (lakh (m mod 10000000)) with (lakh m); [reflexivity|].
  divmod.
Qed.

Lemma tail1_nil (m : Z) : 0 <= m -> (tail1 m = [] <-> m mod 100 = 0).
Proof.
  intros Hm. unfold tail1, rendered, remainder.
  destruct (Z.eqb_spec (m mod 100) 0); split; trivial; discriminate || lia.
Qed.

Lemma tail2_nil (m : Z) : 0 <= m -> (tail2 m = [] <-> m mod 1000 = 0).
Proof.
  intros Hm. unfold tail2, rendered.
  destruct (Z.eqb_spec (hundred m) 0) as [E|E]; simpl.
  - rewrite tail1_nil by exact Hm. divmod.
  - split; [discriminate | intros; exfalso; divmod].
Qed.

Lemma tail3_nil (m : Z) : 0 <= m -> (tail3 m = [] <-> m mod 100000 = 0).
Proof.
  intros Hm. unfold tail3, rendered.
  destruct (Z.eqb_spec (thousand m) 0) as [E|E]; simpl.
  - rewrite tail2_nil by exact Hm. divmod.
  - split; [discriminate | intros; exfalso; divmod].
Qed.

Lemma tail4_nil (m : Z) : 0 <= m -> (tail4 m = [] <-> m mod 10000000 = 0).
Proof.
  intros Hm. unfold tail4, rendered.
  destruct (Z.eqb_spec (lakh m) 0) as [E|E]; simpl.
  - rewrite tail3_nil by exact Hm. divmod.
  - split; [discriminate | intros; exfalso; divmod].
Qed.

Lemma opt_suffix_concat (head : string) (r : Z) (L : list string) :
  (L = [] <-> r = 0) ->
  head ++ opt_suffix r (Some (String.concat " " L))
  = String.concat " " (head :: L).
Proof.
  intros H. unfold opt_suffix. destruct (Z.eqb_spec r 0) as [E|E].
  - apply H in E. subst L. simpl. apply append_nil_r.
  - destruct L as [|y L]; [exfalso; apply E; now apply H|]. reflexivity.
Qed.

Lemma opt_eqb_eq (a b : option string) : opt_eqb a b = true -> a = b.
Proof.
  destruct a, b; simpl; try discriminate; trivial.
  intros H. apply String.eqb_eq in H. now subst.
Qed.

Lemma two_digit_agree_check :
  below 100 (fun v => opt_eqb (numToWords v) (convertTwoDigits v)) = true.
Proof. vm_compute. reflexivity. Qed.

(** Below one hundred the inner function is the two-digit converter. *)
Lemma numToWords_two_digit (v : Z) :
  0 <= v < 100 -> numToWords v = convertTwoDigits v.
Proof.
  intros Hv. apply opt_eqb_eq.
  exact (below_spec 100 _ two_digit_agree_check v ltac:(lia)).
Qed.

(** One unfolding of [numToWords], choosing the branch by [lia]. *)
Ltac step_numToWords :=
  rewrite numToWords_unfold_eq; unfold numToWords_unfold;
  repeat (match goal with
          | |- context [Z.eq_dec ?a ?b] => destruct (Z.eq_dec a b); [lia|]
          | |- context [Z_lt_dec ?a ?b] => destruct (Z_lt_dec a b); try lia
          end;
          cbv beta iota delta
            [numToWords_unfold_clause_1
             numToWords_unfold_clause_1_clause_2
             numToWords_unfold_clause_1_clause_2_clause_2
             numToWords_unfold_clause_1_clause_2_clause_2_clause_2
             numToWords_unfold_clause_1_clause_2_clause_2_clause_2_clause_2
             numToWords_unfold_clause_1_clause_2_clause_2_clause_2_clause_2_clause_2
             numToWords_unfold_clause_1_clause_2_clause_2_clause_2_clause_2_clause_2_clause_2]).

Lemma tier1 (m : Z) :
  0 <= m < 100 -> numToWords m = Some (String.concat " " (tail1 m)).
Proof.
  intros Hm. rewrite numToWords_two_digit by exact Hm.
  unfold tail1, rendered, remainder. rewrite Z.mod_small by lia.
  destruct (Z.eqb_spec m 0) as [->|Hnz]; [reflexivity|].
  destruct (two_digit_small m ltac:(lia)) as (s & -> & _). reflexivity.
Qed.

Lemma tier2 (m : Z) :
  0 <= m < 1000 -> numToWords m = Some (String.concat " " (tail2 m)).
Proof.
  intros Hm. destruct (Z.lt_ge_cases m 100) as [Hlt|Hge].
  - rewrite tier1 by lia. unfold tail2, rendered.
    replace (hundred m) with 0 by divmod. reflexivity.
  - step_numToWords. rewrite Z.rem_mod_nonneg by lia.
    pose proof (Z.mod_pos_bound m 100 ltac:(lia)).
    rewrite tier1 by lia.
    rewrite tail1_mod100 by lia.
    unfold tail2, rendered. replace (hundred m) with (m / 100) by divmod.
    destruct (Z.eqb_spec (m / 100) 0); [exfalso; divmod|].
    rewrite <- append_assoc. apply f_equal.
    apply opt_suffix_concat. now apply tail1_nil.
Qed.

Lemma tier3 (m : Z) :
  0 <= m < 100000 -> numToWords m = Some (String.concat " " (tail3 m)).
Proof.
  intros Hm. destruct (Z.lt_ge_cases m 1000) as [Hlt|Hge].
  - rewrite tier2 by lia. unfold tail3, rendered.
    replace (thousand m) with 0 by divmod. reflexivity.
  - step_numToWords. rewrite Z.rem_mod_nonneg by lia.
    pose proof (Z.mod_pos_bound m 1000 ltac:(lia)).
    rewrite (tier2 (m mod 1000)) by lia. rewrite tail2_mod by (lia || tauto).
    rewrite numToWords_two_digit by divmod.
    unfold tail3, rendered. replace (thousand m) with (m / 1000) by divmod.
    destruct (Z.eqb_spec (m / 1000) 0); [exfalso; divmod|].
    rewrite <- append_assoc. apply f_equal.
    apply opt_suffix_concat. now apply tail2_nil.
Qed.

Lemma tier4 (m : Z) :
  0 <= m < 10000000 -> numToWords m = Some (String.concat " " (tail4 m)).
Proof.
  intros Hm. destruct (Z.lt_ge_cases m 100000) as [Hlt|Hge].
  - rewrite tier3 by lia. unfold tail4, rendered.
    replace (lakh m) with 0 by divmod. reflexivity.
  - step_numToWords. rewrite Z.rem_mod_nonneg by lia.
    pose proof (Z.mod_pos_bound m 100000 ltac:(lia)).
    rewrite (tier3 (m mod 100000)) by lia. rewrite tail3_mod by (lia || tauto).
    rewrite numToWords_two_digit by divmod.
    unfold tail4, rendered. replace (lakh m) with (m / 100000) by divmod.
    destruct (Z.eqb_spec (m / 100000) 0); [exfalso; divmod|].
    rewrite <- append_assoc. apply f_equal.
    apply opt_suffix_concat. now apply tail3_nil.
Qed.

(** The inner function below one hundred crore: the bucket renderings
    joined by single spaces. *)
Lemma tier5 (m : Z) :
  0 <= m < 1000000000 ->
  numToWords m = Some (String.concat " " (renderings m)).
Proof.
  intros Hm. rewrite renderings_tail.
  destruct (Z.lt_ge_cases m 10000000) as [Hlt|Hge].
  - rewrite tier4 by lia. unfold rendered.
    replace (crore m) with 0 by divmod. reflexivity.
  - step_numToWords. rewrite Z.rem_mod_nonneg by lia.
    pose proof (Z.mod_pos_bound m 10000000 ltac:(lia)).
    rewrite (tier4 (m mod 10000000)) by lia. rewrite tail4_mod by lia.
    rewrite numToWords_two_digit by divmod.
    unfold rendered. change (m / 10000000) with (crore m).
    destruct (Z.eqb_spec (crore m) 0); [exfalso; divmod|].
    rewrite <- append_assoc. apply f_equal.
    apply opt_suffix_concat. now apply tail4_nil.
Qed.

End RecursiveTiers.

(** ** The two formatters compared *)

Section BothFormatters.

Import Buckets.

Lemma concat_clean (rs : list string) :
  Forall part_ok rs -> trim (String.concat " " rs) = String.concat " " rs.
Proof.
  intros Hok. destruct rs as [|x rs]; [reflexivity|].
  assert (Hx : part_ok x) by (now inversion Hok).
  apply trim_clean.
  - apply concat_starts_clean. apply Hx.
  - destruct (exists_last (l := x :: rs) ltac:(discriminate)) as [l [a E]].
    rewrite E. apply concat_ends_clean.
    rewrite Forall_forall in Hok.
    apply (Hok a). rewrite E. apply in_or_app. right. now left.
Qed.

Lemma concat_snoc (sep : string) (l : list string) (a : string) :
  l <> [] ->
  String.concat sep (l ++ [a]) = String.concat sep l ++ sep ++ a.
Proof.
  induction l as [|x l IH]; [congruence|]. intros _.
  destruct l as [|y l]; [reflexivity|].
  change ((x :: y :: l) ++ [a])%list with (x :: (y :: l) ++ [a])%list.
  change (String.concat sep (x :: (y :: l) ++ [a]))
    with (x ++ sep ++ String.concat sep ((y :: l) ++ [a])).
  rewrite IH by discriminate.
  rewrite concat_cons2. now rewrite !append_assoc.
Qed.

Lemma with_and_longer (rs : list string) :
  (1 < List.length rs)%nat ->
  String.length (String.concat " " (with_and rs))
  = (String.length (String.concat " " rs) + 4)%nat.
Proof.
  intros Hlen. unfold with_and.
  destruct (exists_last (l := rs)) as [l [a ->]].
  { intros ->. simpl in Hlen. lia. }
  rewrite removelast_last, last_last.
  assert (Hl : l <> []).
  { intros ->. simpl in Hlen. lia. }
  replace (l ++ ["and"; a])%list with ((l ++ ["and"]) ++ [a])%list
    by (now rewrite <- app_assoc).
  rewrite !concat_snoc by (trivial; now destruct l).
  rewrite !string_length_app. simpl. lia.
Qed.

Lemma recursive_words_int (n : Z) :
  0 <= n < 1000000000 ->
  WordsRec.numberToWordsIndian n
  = Returns (if n =? 0 then "Zero" else String.concat " " (renderings n)).
Proof.
  intros Hn. unfold WordsRec.numberToWordsIndian.
  rewrite js_seq_int. destruct (Z.eqb_spec n 0); [reflexivity|].
  unfold js_floor, ofZ. rewrite !Qfloor_Z.
  rewrite tier5 by exact Hn.
  rewrite concat_clean; [reflexivity|]. apply renderings_ok. lia.
Qed.

End BothFormatters.

(** C10 (as amended). Below one hundred crore the recursive formatter
    returns the bucket renderings joined by single spaces, with no "and";
    so it agrees with the bucket formatter exactly when at most one bucket
    is non-zero. *)
Theorem formatters_agree_iff_single_bucket (n : Z) :
  0 <= n < 1000000000 ->
  WordsRec.numberToWordsIndian n
  = Returns (if n =? 0 then "Zero"
             else String.concat " " (Buckets.renderings n))
  /\ (WordsRec.numberToWordsIndian n = Returns (Words.numberToWordsIndian n)
      <-> (Buckets.nonzero n <= 1)%nat).
Proof.
  intros Hn. split; [now apply recursive_words_int|].
  rewrite recursive_words_int by exact Hn.
  destruct (Z.eqb_spec n 0) as [->|Hnz].
  - split; [intros _; vm_compute; lia | reflexivity].
  - rewrite bucket_words_int by lia.
    destruct (Nat.ltb_spec 1 (Buckets.nonzero n)) as [H1|H1].
    + split; [|lia]. intros H. exfalso.
      injection H as H. apply (f_equal String.length) in H.
      rewrite with_and_longer in H by (now rewrite renderings_length).
      lia.
    + split; [lia | reflexivity].
Qed.

Lemma formatters_agree_iff_single_bucket_witness :
  0 <= 1200000 < 1000000000
  /\ WordsRec.numberToWordsIndian 1200000
     = Returns (Words.numberToWordsIndian 1200000).
Proof.
  assert (H : 0 <= 1200000 < 1000000000) by lia.
  split; [exact H|].
  apply (proj2 (formatters_agree_iff_single_bucket 1200000 H)).
  vm_compute. lia.
Defined.

(** The two formatters differ on 101: "One Hundred One" against
    "One Hundred and One". *)
Lemma formatters_differ_101 :
  WordsRec.numberToWordsIndian 101 = Returns "One Hundred One"
  /\ Words.numberToWordsIndian 101 = "One Hundred and One"
  /\ WordsRec.numberToWordsIndian 101
     <> Returns (Words.numberToWordsIndian 101).
Proof.
  repeat split; try (vm_compute; reflexivity).
  intros H. vm_compute in H. discriminate.
Qed.

(** C2. The bucket formatter does not truncate: on 100.5 it returns
    "One Hundred and" where the floor, 100, gives "One Hundred", and on
    25.5 it returns "Twenty undefined"; its recursive sibling, which
    floors first, returns "One Hundred" and "Twenty Five". *)
Theorem toWords_fraction_not_floored :
  Words.numberToWordsIndian (Fin (201 # 2)) = "One Hundred and"
  /\ Words.numberToWordsIndian (js_floor (Fin (201 # 2))) = "One Hundred"
  /\ Words.numberToWordsIndian (Fin (51 # 2)) = "Twenty undefined"
  /\ WordsRec.numberToWordsIndian (Fin (201 # 2)) = Returns "One Hundred"
  /\ WordsRec.numberToWordsIndian (Fin (51 # 2)) = Returns "Twenty Five".
Proof. repeat split; vm_compute; reflexivity. Qed.

(** The recursive sibling ignores the fractional part of any number from
    one upwards. *)
Lemma recursive_words_floor (q : Q) :
  (1 <= q)%Q ->
  WordsRec.numberToWordsIndian (Fin q)
  = WordsRec.numberToWordsIndian (js_floor (Fin q)).
Proof.
  intros Hq. unfold WordsRec.numberToWordsIndian, js_floor.
  assert (Hf : 1 <= Qfloor q).
  { change 1 with (Qfloor (inject_Z 1)). now apply Qfloor_resp_le. }
  assert (H1 : js_seq (Fin q) 0 = false).
  { unfold js_seq, js_compare, ofZ.
    assert (0 < q)%Q by (eapply Qlt_le_trans; [|exact Hq]; reflexivity).
    apply Qgt_alt in H. change (inject_Z 0) with 0%Q. now rewrite H. }
  assert (H2 : js_seq (Fin (inject_Z (Qfloor q))) 0 = false).
  { change (Fin (inject_Z (Qfloor q))) with (ofZ (Qfloor q)).
    rewrite js_seq_int. apply Z.eqb_neq. lia. }
  rewrite H1, H2. cbv beta iota. now rewrite !Qfloor_Z.
Qed.

(** ** The sort *)

Section SortFacts.

Context {A : Type} (cmp : A -> A -> jsnum).

Lemma sort_insert_perm (x : A) (l : list A) :
  Permutation (sort_insert cmp x l) (x :: l).
Proof.
  induction l as [|y l IH]; simpl; [reflexivity|].
  destruct (js_gt (cmp x y) 0); [|reflexivity].
  rewrite IH. apply perm_swap.
Qed.

Lemma js_sort_perm (l : list A) : Permutation (js_sort cmp l) l.
Proof.
  induction l as [|x l IH]; simpl; [reflexivity|].
  rewrite sort_insert_perm. now constructor.
Qed.

Lemma js_sort_in (l : list A) (x : A) : In x (js_sort cmp l) <-> In x l.
Proof.
  split; apply Permutation_in; [|symmetry]; apply js_sort_perm.
Qed.



Section Sorted.

Context (P : A -> Prop) (R : A -> A -> Prop).
Hypothesis R_trans : forall x y z, R x y -> R y z -> R x z.
Hypothesis cmp_gt : forall x y, P x -> P y -> js_gt (cmp x y) 0 = true -> R y x.
Hypothesis cmp_le : forall x y, P x -> P y -> js_gt (cmp x y) 0 = false -> R x y.

Lemma sort_insert_sorted (x : A) (l : list A) :
  P x -> Forall P l -> StronglySorted R l ->
  StronglySorted R (sort_insert cmp x l).
Proof.
  intros Px Pl Hs. induction Hs as [|y l Hs IH Hy]; simpl.
  - repeat constructor.
  - inversion Pl as [|? ? Py Pl']; subst.
    destruct (js_gt (cmp x y) 0) eqn:E.
    + constructor; [now apply IH|].
      rewrite Forall_forall. intros z Hz.
      apply (Permutation_in _ (sort_insert_perm x l)) in Hz.
      destruct Hz as [<-|Hz]; [now apply cmp_gt|].
      rewrite Forall_forall in Hy. now apply Hy.
    + constructor; [now constructor|].
      constructor; [now apply cmp_le|].
      rewrite Forall_forall in *. intros z Hz.
      apply R_trans with y; [now apply cmp_le | now apply Hy].
Qed.

Lemma js_sort_sorted (l : list A) :
  Forall P l -> StronglySorted R (js_sort cmp l).
Proof.
  induction l as [|x l IH]; intros Hl; simpl; [constructor|].
  inversion Hl as [|? ? Px Pl]; subst.
  apply sort_insert_sorted.
  - exact Px.
  - apply Forall_forall. intros z Hz. apply (proj1 (js_sort_in _ _)) in Hz.
    rewrite Forall_forall in Pl. now apply Pl.
  - now apply IH.
Qed.

End Sorted.

End SortFacts.

(** ** Rounding up at integers *)

Lemma js_ceil_div_int (a b : Z) :
  0 < b -> js_ceil (js_div a b) = ofZ (- ((- a) / b)).
Proof.
  intros Hb. unfold js_div, ofZ.
  change 0%Q with (inject_Z 0). rewrite Qeq_bool_inject_Z.
  destruct (Z.eqb_spec b 0) as [->|_]; [lia|].
  unfold js_ceil, Qceiling. do 3 f_equal.
  rewrite Zdiv_Qdiv. apply Qfloor_comp.
  rewrite inject_Z_opp. unfold Qdiv. ring.
Qed.

(** ** Reminders *)

Section Reminders.

Import ReminderSpec.

Context (h : Host).

Lemma daysUntilRenew_ceiling (r t0 : Z) :
  (daysUntilRenew r t0 - 1) * 86400000 < r - t0
  <= daysUntilRenew r t0 * 86400000.
Proof. unfold daysUntilRenew. Z.div_mod_to_equations. lia. Qed.

Lemma daysUntil_parsed (d today : string) (r t0 : Z) :
  date_parse h d = Some r -> date_parse h today = Some t0 ->
  Dashboard.daysUntil h d today = ofZ (daysUntilRenew r t0).
Proof.
  intros Hd Ht. unfold Dashboard.daysUntil, getTime. rewrite Hd, Ht.
  cbn [js_isNaN ofZ orb]. change (Fin (inject_Z r)) with (ofZ r).
  change (Fin (inject_Z t0)) with (ofZ t0).
  rewrite js_sub_int, js_ceil_div_int by lia.
  unfold daysUntilRenew. do 3 f_equal. lia.
Qed.

Lemma daysUntil_unparsed (d today : string) :
  date_parse h d = None -> Dashboard.daysUntil h d today = PInf.
Proof. intros Hd. unfold Dashboard.daysUntil, getTime. now rewrite Hd. Qed.

Lemma nonNull_step {A B : Type} (f : A -> bool) (g : A -> option B)
  (x : A) (l : list A) :
  Dashboard.nonNull (map g (filter f (x :: l)))
  = ((if f x then match g x with Some y => [y] | None => [] end else [])
     ++ Dashboard.nonNull (map g (filter f l)))%list.
Proof. simpl. destruct (f x); [|reflexivity]. simpl. now destruct (g x). Qed.

Lemma reminder_head (today : string) (t0 : Z) (e : Entry.t) :
  date_parse h today = Some t0 ->
  (if js_gt (Entry.renewDateReminder e) 0
      && js_isFinite (Dashboard.daysUntil h (Entry.renewDate e) today)
   then match Dashboard.withStatus h today e with
        | Some y => [y]
        | None => []
        end
   else [])
  = selected h t0 e.
Proof.
  intros Ht. unfold selected.
  destruct (js_gt (Entry.renewDateReminder e) 0); [|reflexivity].
  destruct (date_parse h (Entry.renewDate e)) as [r|] eqn:Hr.
  - unfold Dashboard.withStatus.
    rewrite (daysUntil_parsed _ _ r t0 Hr Ht).
    rewrite js_seq_int, js_lt_int. unfold statusFor.
    cbn [andb js_isFinite ofZ].
    destruct (daysUntilRenew r t0 =? 0); [reflexivity|].
    destruct (daysUntilRenew r t0 <? 0); [reflexivity|].
    destruct (js_le (daysUntilRenew r t0) (Entry.renewDateReminder e));
      reflexivity.
  - rewrite (daysUntil_unparsed _ _ Hr). reflexivity.
Qed.

Lemma reminder_pipeline (today : string) (t0 : Z) (es : list Entry.t) :
  date_parse h today = Some t0 ->
  Dashboard.nonNull
    (map (Dashboard.withStatus h today)
       (filter
          (fun entry =>
             js_gt (Entry.renewDateReminder entry) 0
             && js_isFinite (Dashboard.daysUntil h (Entry.renewDate entry) today))
          es))
  = flat_map (selected h t0) es.
Proof.
  intros Ht. induction es as [|e es IH]; [reflexivity|].
  rewrite nonNull_step, IH. cbn [flat_map]. f_equal.
  now apply reminder_head.
Qed.

Lemma selected_parsed (t0 : Z) (es : list Entry.t) :
  Forall (fun a => exists r, date_parse h (Entry.renewDate (fst a)) = Some r)
    (flat_map (selected h t0) es).
Proof.
  apply Forall_forall. intros [e s] Hin. apply in_flat_map in Hin.
  destruct Hin as (e' & _ & Hin). unfold selected in Hin.
  destruct (js_gt (Entry.renewDateReminder e') 0); [|contradiction].
  destruct (date_parse h (Entry.renewDate e')) as [r|] eqn:Hr; [|contradiction].
  destruct (statusFor _ _); [|contradiction].
  destruct Hin as [E|[]]. injection E as <- <-. now exists r.
Qed.

Lemma renewBefore_trans (a b c : Entry.t * Status) :
  renewBefore h a b -> renewBefore h b c -> renewBefore h a c.
Proof.
  intros (ta & tb & Ha & Hb & Hab) (tb' & tc & Hb' & Hc & Hbc).
  rewrite Hb in Hb'. injection Hb' as <-.
  exists ta, tc. repeat split; trivial. lia.
Qed.

Lemma reminders_sorted (t0 : Z) (es : list Entry.t) :
  StronglySorted (renewBefore h)
    (js_sort
       (fun a b =>
          js_sub (getTime h (Entry.renewDate (fst a)))
                 (getTime h (Entry.renewDate (fst b))))
       (flat_map (selected h t0) es)).
Proof.
  apply js_sort_sorted
    with (P := fun a => exists r, date_parse h (Entry.renewDate (fst a)) = Some r).
  - apply renewBefore_trans.
  - intros x y [rx Hx] [ry Hy] Hgt. unfold getTime in Hgt.
    rewrite Hx, Hy, js_sub_int, js_gt_int in Hgt.
    exists ry, rx. repeat split; trivial. lia.
  - intros x y [rx Hx] [ry Hy] Hgt. unfold getTime in Hgt.
    rewrite Hx, Hy, js_sub_int, js_gt_int in Hgt.
    exists rx, ry. repeat split; trivial. lia.
  - apply selected_parsed.
Qed.

Lemma selected_in (t0 : Z) (es : list Entry.t) (e : Entry.t) (s : Status) :
  In (e, s) (flat_map (selected h t0) es)
  <-> In e es
      /\ js_gt (Entry.renewDateReminder e) 0 = true
      /\ exists r,
           date_parse h (Entry.renewDate e) = Some r
           /\ (daysUntilRenew r t0 <= 0
               \/ js_le (daysUntilRenew r t0) (Entry.renewDateReminder e) = true)
           /\ s = (if daysUntilRenew r t0 =? 0 then Due
                   else if daysUntilRenew r t0 <? 0 then PastDue
                   else Approaching).
Proof.
  rewrite in_flat_map. split.
  - intros (e' & Hin & Hsel). unfold selected in Hsel.
    destruct (js_gt (Entry.renewDateReminder e') 0) eqn:Hg; [|contradiction].
    destruct (date_parse h (Entry.renewDate e')) as [r|] eqn:Hr; [|contradiction].
    unfold statusFor in Hsel.
    destruct (Z.eqb_spec (daysUntilRenew r t0) 0) as [E0|E0].
    { destruct Hsel as [E|[]]. injection E as <- <-.
      split; [exact Hin|]. split; [exact Hg|]. exists r.
      split; [exact Hr|]. split; [left; lia|].
      now rewrite E0. }
    destruct (Z.ltb_spec (daysUntilRenew r t0) 0) as [E1|E1].
    { destruct Hsel as [E|[]]. injection E as <- <-.
      split; [exact Hin|]. split; [exact Hg|]. exists r.
      split; [exact Hr|]. split; [left; lia|].
      rewrite (proj2 (Z.eqb_neq _ _) E0). now rewrite (proj2 (Z.ltb_lt _ _) E1). }
    destruct (js_le _ _) eqn:E2; [|contradiction].
    destruct Hsel as [E|[]]. injection E as <- <-.
    split; [exact Hin|]. split; [exact Hg|]. exists r.
    split; [exact Hr|]. split; [now right|].
    rewrite (proj2 (Z.eqb_neq _ _) E0). now rewrite (proj2 (Z.ltb_ge _ _) E1).
  - intros (Hin & Hg & r & Hr & Hwin & ->). exists e. split; [exact Hin|].
    unfold selected. rewrite Hg, Hr. unfold statusFor.
    destruct (Z.eqb_spec (daysUntilRenew r t0) 0); [now left|].
    destruct (Z.ltb_spec (daysUntilRenew r t0) 0); [now left|].
    destruct Hwin as [Hle|Hle]; [lia|]. rewrite Hle. now left.
Qed.

End Reminders.

(** C3. With a parsable [today], the reminder list holds exactly the
    entries with a positive reminder and a parsable renewal date whose
    day count, the ceiling of the distance in days, is at most the
    reminder or at most zero; the status is Due at zero, PastDue below
    it and Approaching otherwise; the list is in ascending order of
    renewal date. *)
Theorem reminders_exact_and_sorted (h : Host) (today : string) (t0 : Z)
  (es : list Entry.t) :
  date_parse h today = Some t0 ->
  Permutation (Dashboard.reminderEntries h today es)
    (flat_map (ReminderSpec.selected h t0) es)
  /\ StronglySorted (ReminderSpec.renewBefore h)
       (Dashboard.reminderEntries h today es)
  /\ (forall e s,
        In (e, s) (Dashboard.reminderEntries h today es)
        <-> In e es
            /\ js_gt (Entry.renewDateReminder e) 0 = true
            /\ exists r,
                 date_parse h (Entry.renewDate e) = Some r
                 /\ (ReminderSpec.daysUntilRenew r t0 <= 0
                     \/ js_le (ReminderSpec.daysUntilRenew r t0)
                          (Entry.renewDateReminder e) = true)
                 /\ s = (if ReminderSpec.daysUntilRenew r t0 =? 0 then Due
                         else if ReminderSpec.daysUntilRenew r t0 <? 0
                              then PastDue
                         else Approaching))
  /\ (forall r,
        (ReminderSpec.daysUntilRenew r t0 - 1) * 86400000 < r - t0
        <= ReminderSpec.daysUntilRenew r t0 * 86400000).
Proof.
  intros Ht. unfold Dashboard.reminderEntries.
  rewrite (reminder_pipeline h today t0 es Ht).
  split; [apply js_sort_perm|].
  split; [apply reminders_sorted|].
  split; [|intros r; apply daysUntilRenew_ceiling].
  intros e s. rewrite js_sort_in. apply selected_in.
Qed.

Example reminder_scenario :
  Dashboard.reminderEntries RefHost.host "2025-05-21" ReminderScenario.entries
  = [(ReminderScenario.dayBefore, PastDue);
     (ReminderScenario.sameDay, Due);
     (ReminderScenario.inThree, Approaching)].
Proof. vm_compute. reflexivity. Qed.

Lemma reminders_exact_and_sorted_witness :
  date_parse RefHost.host "2025-05-21" = Some 1747785600000
  /\ StronglySorted (ReminderSpec.renewBefore RefHost.host)
       (Dashboard.reminderEntries RefHost.host "2025-05-21"
          ReminderScenario.entries).
Proof.
  assert (H : date_parse RefHost.host "2025-05-21" = Some 1747785600000)
    by (vm_compute; reflexivity).
  split; [exact H|].
  exact (proj1 (proj2 (reminders_exact_and_sorted RefHost.host "2025-05-21"
                         1747785600000 ReminderScenario.entries H))).
Defined.

(** ** Sort keys *)

Section SortKeys.

Import SortSpec.

Context (h : Host).
Hypothesis localeCompare_refl : forall s, localeCompare h s s = 0.






Lemma entries_compare_instant (sc : SortConfig) (a b : Entry.t) (ta tb : Z) :
  (key sc = KDate \/ key sc = KMonthYear) ->
  date_parse h (Entry.date a) = Some ta ->
  date_parse h (Entry.date b) = Some tb ->
  js_gt (EntriesView.compareEntries h sc a b) 0
  = match direction sc with Asc => tb <? ta | Desc => ta <? tb end.
Proof.
  intros Hk Ha Hb. unfold EntriesView.compareEntries, getTime.
  rewrite Ha, Hb.
  destruct Hk as [-> | ->]; destruct (direction sc);
    rewrite js_sub_int, js_gt_int;
    apply eq_true_iff_eq; rewrite !Z.ltb_lt; lia.
Qed.



End SortKeys.





(** ** Comparisons at integers and at the infinities *)

Lemma js_ge_int (a b : Z) : js_ge a b = (b <=? a).
Proof.
  unfold js_ge, ofZ; simpl. rewrite Qcompare_inject_Z.
  destruct (Z.compare_spec a b), (Z.leb_spec b a); trivial; lia.
Qed.

Lemma js_le_int (a b : Z) : js_le a b = (a <=? b).
Proof.
  unfold js_le, ofZ; simpl. rewrite Qcompare_inject_Z.
  destruct (Z.compare_spec a b), (Z.leb_spec a b); trivial; lia.
Qed.

Lemma js_unbounded (a : jsnum) :
  js_ge a NInf && js_le a PInf = negb (js_isNaN a).
Proof. now destruct a. Qed.

(** ** Summary metrics *)

(** C6. The net balance is the difference of the two sums and the
    transaction count the sum of the two counts; an average is the sum
    over the count when the count is positive and 0 otherwise, so it is
    a finite number whenever the sum is; on no entries the averages and
    the balance are 0. *)
Theorem summaryMetrics_guarded (t : Totals) :
  Dashboard.netBalance (Dashboard.summaryMetrics t)
  = js_sub (t_amount (income t)) (t_amount (expense t))
  /\ Dashboard.totalTransactions (Dashboard.summaryMetrics t)
     = t_count (income t) + t_count (expense t)
  /\ Dashboard.avgIncome (Dashboard.summaryMetrics t)
     = (if t_count (income t) >? 0
        then js_div (t_amount (income t)) (t_count (income t)) else 0)
  /\ Dashboard.avgExpense (Dashboard.summaryMetrics t)
     = (if t_count (expense t) >? 0
        then js_div (t_amount (expense t)) (t_count (expense t)) else 0)
  /\ (js_isFinite (t_amount (income t)) = true ->
      js_isFinite (Dashboard.avgIncome (Dashboard.summaryMetrics t)) = true)
  /\ (js_isFinite (t_amount (expense t)) = true ->
      js_isFinite (Dashboard.avgExpense (Dashboard.summaryMetrics t)) = true)
  /\ Dashboard.summaryMetrics (totals [])
     = {| Dashboard.netBalance := 0; Dashboard.avgIncome := 0;
             Dashboard.avgExpense := 0; Dashboard.totalTransactions := 0 |}.
Proof.
  assert (Hfin : forall (s : jsnum) (c : Z),
            js_isFinite s = true ->
            js_isFinite (if c >? 0 then js_div s c else 0) = true).
  { intros s c Hs. destruct (Z.gtb_spec c 0) as [Hc|Hc]; [|reflexivity].
    destruct s as [| | |q]; try discriminate.
    unfold js_div, ofZ. change 0%Q with (inject_Z 0).
    rewrite Qeq_bool_inject_Z.
    destruct (Z.eqb_spec c 0); [lia | reflexivity]. }
  repeat split; try reflexivity.
  - apply Hfin.
  - apply Hfin.
Qed.

Lemma summaryMetrics_guarded_witness :
  js_isFinite (t_amount (income (totals []))) = true
  /\ js_isFinite
       (Dashboard.avgIncome
          (Dashboard.summaryMetrics (totals []))) = true.
Proof.
  assert (H : js_isFinite (t_amount (income (totals []))) = true)
    by reflexivity.
  split; [exact H|].
  exact (proj1 (proj2 (proj2 (proj2 (proj2
           (summaryMetrics_guarded (totals []))))))
           H).
Defined.

(** ** Reading the reminder *)

(** C9. Whatever is stored, the reminder of the entry read from it is 0,
    5, 10 or 15: a stored value that [Number] maps into that set is
    kept, any other becomes 0; reading is total and yields one entry per
    document. *)
Theorem reminder_read_normalized (h : Host) (d : Api.Doc) :
  (js_seq (Entry.renewDateReminder (Api.toEntry h d)) 0 = true
   \/ js_seq (Entry.renewDateReminder (Api.toEntry h d)) 5 = true
   \/ js_seq (Entry.renewDateReminder (Api.toEntry h d)) 10 = true
   \/ js_seq (Entry.renewDateReminder (Api.toEntry h d)) 15 = true)
  /\ Entry.renewDateReminder (Api.toEntry h d)
     = (if Api.allowedReminder (Api.toNumber h (Api.d_renewDateReminder d))
        then Api.toNumber h (Api.d_renewDateReminder d)
        else 0)
  /\ (forall docs,
        List.length (Api.getEntries h docs) = List.length docs).
Proof.
  split; [|split; [reflexivity|]].
  - unfold Api.toEntry, Api.readReminder; cbn [Entry.renewDateReminder].
    destruct (Api.allowedReminder (Api.toNumber h (Api.d_renewDateReminder d)))
      eqn:E.
    + unfold Api.allowedReminder in E. cbn [existsb] in E.
      rewrite !orb_true_iff in E. intuition discriminate.
    + left. reflexivity.
  - intros docs. unfold Api.getEntries. apply length_map.
Qed.

Example reminder_read_samples :
  map (fun v => Api.readReminder RefHost.host v)
    [Api.SNum 5; Api.SNum 7; Api.SStr "10"; Api.SStr "soon"; Api.SMissing;
     Api.SNull; Api.SNum (Fin (15 # 2)); Api.SNum PInf; Api.SBool true;
     Api.SNum 15]
  = [ofZ 5; ofZ 0; ofZ 10; ofZ 0; ofZ 0; ofZ 0; ofZ 0; ofZ 0; ofZ 0; ofZ 15].
Proof. vm_compute. reflexivity. Qed.

(** ** The filter of the [Entries] view *)

Section EntriesFilter.

Import EntriesView.

Context (h : Host).

Lemma filter_idempotent {A : Type} (p : A -> bool) (l : list A) :
  filter p (filter p l) = filter p l.
Proof.
  induction l as [|x l IH]; [reflexivity|].
  simpl. destruct (p x) eqn:E; [|exact IH].
  simpl. now rewrite E, IH.
Qed.

Lemma keeps_all (term : string) (fc : FilterConfig) (e : Entry.t) :
  keeps h term fc e = true
  <-> matchesSearch h term e = true
      /\ matchesName h fc e = true
      /\ matchesContact h fc e = true
      /\ matchesType fc e = true
      /\ matchesCategory fc e = true
      /\ matchesAmount h fc e = true
      /\ matchesDate h fc e = true
      /\ matchesProperty fc e = true.
Proof. unfold keeps. rewrite !andb_true_iff. tauto. Qed.

Lemma matchesDate_unset (fc : FilterConfig) (e : Entry.t) :
  dateStart fc = "" -> dateEnd fc = "" ->
  matchesDate h fc e
  = match date_parse h (Entry.date e) with
    | Some t => (-8640000000000000 <=? t) && (t <=? 8640000000000000)
    | None => false
    end.
Proof.
  intros Hs He. unfold matchesDate, getTime. rewrite Hs, He.
  cbn [nonEmpty String.eqb negb].
  destruct (date_parse h (Entry.date e)) as [t|]; [|reflexivity].
  now rewrite js_ge_int, js_le_int.
Qed.

Lemma matchesAmount_unset (fc : FilterConfig) (e : Entry.t) :
  amountMin fc = "" -> amountMax fc = "" ->
  matchesAmount h fc e = negb (js_isNaN (Entry.amount e)).
Proof.
  intros Hs He. unfold matchesAmount. rewrite Hs, He.
  cbn [nonEmpty String.eqb negb]. apply js_unbounded.
Qed.

Lemma matchesDate_unparsable (fc : FilterConfig) (e : Entry.t) :
  date_parse h (Entry.date e) = None -> matchesDate h fc e = false.
Proof.
  intros He. unfold matchesDate, getTime. rewrite He.
  now destruct (nonEmpty (dateStart fc)), (getTime h (dateStart fc)).
Qed.

Lemma keeps_unparsable (term : string) (fc : FilterConfig) (e : Entry.t) :
  date_parse h (Entry.date e) = None -> keeps h term fc e = false.
Proof.
  intros He. unfold keeps. rewrite (matchesDate_unparsable fc e He).
  now rewrite andb_false_r.
Qed.

End EntriesFilter.

(** C8 (as amended). The filter is idempotent and keeps exactly the
    entries for which all eight predicates hold.  An unset search term,
    name, contact, type, category or property always passes; with no
    amount bound every amount that is a number passes; with no date
    bound an entry passes exactly when its date parses to a representable
    instant, so an entry with an unparsable date is dropped even then. *)
Theorem filter_idempotent_conjunctive (h : Host) (term : string)
  (fc : EntriesView.FilterConfig) (E : list Entry.t) :
  EntriesView.filterEntries h term fc (EntriesView.filterEntries h term fc E)
  = EntriesView.filterEntries h term fc E
  /\ (forall e,
        In e (EntriesView.filterEntries h term fc E)
        <-> In e E
            /\ EntriesView.matchesSearch h term e = true
            /\ EntriesView.matchesName h fc e = true
            /\ EntriesView.matchesContact h fc e = true
            /\ EntriesView.matchesType fc e = true
            /\ EntriesView.matchesCategory fc e = true
            /\ EntriesView.matchesAmount h fc e = true
            /\ EntriesView.matchesDate h fc e = true
            /\ EntriesView.matchesProperty fc e = true)
  /\ (forall e,
        EntriesView.matchesSearch h "" e = true
        /\ (EntriesView.f_name fc = "" ->
            EntriesView.matchesName h fc e = true)
        /\ (EntriesView.f_contact fc = "" ->
            EntriesView.matchesContact h fc e = true)
        /\ (EntriesView.f_type fc = "All" ->
            EntriesView.matchesType fc e = true)
        /\ (EntriesView.f_category fc = "All" ->
            EntriesView.matchesCategory fc e = true)
        /\ (EntriesView.f_property fc = "All" ->
            EntriesView.matchesProperty fc e = true)
        /\ (EntriesView.amountMin fc = "" -> EntriesView.amountMax fc = "" ->
            EntriesView.matchesAmount h fc e
            = negb (js_isNaN (Entry.amount e)))
        /\ (EntriesView.dateStart fc = "" -> EntriesView.dateEnd fc = "" ->
            EntriesView.matchesDate h fc e
            = match date_parse h (Entry.date e) with
              | Some t =>
                  (-8640000000000000 <=? t) && (t <=? 8640000000000000)
              | None => false
              end)).
Proof.
  split; [apply filter_idempotent|]. split.
  - intros e. unfold EntriesView.filterEntries.
    rewrite filter_In, keeps_all. tauto.
  - intros e. split; [reflexivity|].
    split; [intros H; unfold EntriesView.matchesName; now rewrite H|].
    split; [intros H; unfold EntriesView.matchesContact; now rewrite H|].
    split; [intros H; unfold EntriesView.matchesType; now rewrite H|].
    split; [intros H; unfold EntriesView.matchesCategory; now rewrite H|].
    split; [intros H; unfold EntriesView.matchesProperty; now rewrite H|].
    split; [apply matchesAmount_unset | apply matchesDate_unset].
Qed.

Lemma filter_idempotent_conjunctive_witness :
  EntriesView.f_name EntriesView.noFilter = ""
  /\ EntriesView.matchesName RefHost.host EntriesView.noFilter
       FilterScenario.good = true.
Proof.
  assert (H : EntriesView.f_name EntriesView.noFilter = "") by reflexivity.
  split; [exact H|].
  exact (proj1 (proj2 (proj2 (proj2
           (filter_idempotent_conjunctive RefHost.host ""
              EntriesView.noFilter [FilterScenario.good])) FilterScenario.good))
           H).
Defined.

(** With nothing set, the entry whose date does not parse is dropped:
    not every unset predicate passes. *)
Lemma filter_unset_drops_unparsable :
  EntriesView.filterEntries RefHost.host "" EntriesView.noFilter
    [FilterScenario.bad; FilterScenario.good]
  = [FilterScenario.good]
  /\ ~ In FilterScenario.bad
        (EntriesView.filterEntries RefHost.host "" EntriesView.noFilter
           [FilterScenario.bad; FilterScenario.good]).
Proof.
  split; [vm_compute; reflexivity|].
  intros H. vm_compute in H. destruct H as [H|[]]. discriminate.
Qed.

(** ** Entries whose date does not parse *)

Section DashboardFilter.

Import DateQuality.

Context (h : Host).

Lemma inWindow_log (f : string) (cr : Dashboard.CustomRange) (now t : Z) :
  filter isInvalidEntryDate (snd (Dashboard.inWindow h f cr now t)) = [].
Proof.
  unfold Dashboard.inWindow.
  repeat match goal with
         | |- context [if ?c then _ else _] => destruct c; try reflexivity
         end.
  repeat match goal with
         | |- context [match ?a with Some _ => _ | None => _ end] =>
             destruct a; try reflexivity
         end.
Qed.

Lemma dashboard_keeps_unparsable (f : string) (cr : Dashboard.CustomRange)
  (now : Z) (e : Entry.t) :
  date_parse h (Entry.date e) = None ->
  Dashboard.keeps h f cr now e = (false, [InvalidEntryDate (Entry.date e)]).
Proof. intros He. unfold Dashboard.keeps. now rewrite He. Qed.

Lemma dashboard_filter_cons (f : string) (cr : Dashboard.CustomRange)
  (now : Z) (e : Entry.t) (es : list Entry.t) :
  Dashboard.filteredEntries h f cr now (e :: es)
  = ((if fst (Dashboard.keeps h f cr now e)
      then e :: fst (Dashboard.filteredEntries h f cr now es)
      else fst (Dashboard.filteredEntries h f cr now es)),
     (snd (Dashboard.keeps h f cr now e)
      ++ snd (Dashboard.filteredEntries h f cr now es))%list).
Proof.
  simpl. destruct (Dashboard.keeps h f cr now e).
  now destruct (Dashboard.filteredEntries h f cr now es).
Qed.

Lemma dashboard_kept_parses (f : string) (cr : Dashboard.CustomRange)
  (now : Z) (es : list Entry.t) (e : Entry.t) :
  In e (fst (Dashboard.filteredEntries h f cr now es)) ->
  In e es /\ parses h e = true.
Proof.
  induction es as [|x es IH]; [contradiction|].
  rewrite dashboard_filter_cons. cbn [fst].
  destruct (fst (Dashboard.keeps h f cr now x)) eqn:K.
  - intros [<-|Hin].
    + split; [now left|]. unfold parses.
      destruct (date_parse h (Entry.date x)) eqn:Hp; [reflexivity|].
      rewrite dashboard_keeps_unparsable in K by exact Hp. discriminate.
    + destruct (IH Hin). split; [now right | assumption].
  - intros Hin. destruct (IH Hin). split; [now right | assumption].
Qed.

Lemma dashboard_log_unparsable (f : string) (cr : Dashboard.CustomRange)
  (now : Z) (es : list Entry.t) :
  filter isInvalidEntryDate (snd (Dashboard.filteredEntries h f cr now es))
  = map (fun e => InvalidEntryDate (Entry.date e))
      (filter (fun e => negb (parses h e)) es).
Proof.
  induction es as [|x es IH]; [reflexivity|].
  rewrite dashboard_filter_cons. cbn [snd]. rewrite filter_app, IH.
  cbn [filter]. unfold parses at 2, Dashboard.keeps.
  destruct (date_parse h (Entry.date x)) as [t|]; cbn [negb].
  - now rewrite inWindow_log.
  - reflexivity.
Qed.

Lemma entries_kept_ignores_unparsable (term : string)
  (fc : EntriesView.FilterConfig) (es : list Entry.t) :
  EntriesView.filterEntries h term fc es
  = EntriesView.filterEntries h term fc (filter (parses h) es).
Proof.
  unfold EntriesView.filterEntries.
  induction es as [|x es IH]; [reflexivity|].
  cbn [filter]. unfold parses at 1.
  destruct (date_parse h (Entry.date x)) eqn:Hp.
  - cbn [filter]. now rewrite IH.
  - rewrite keeps_unparsable by exact Hp. exact IH.
Qed.

Lemma dashboard_kept_ignores_unparsable (f : string)
  (cr : Dashboard.CustomRange) (now : Z) (es : list Entry.t) :
  fst (Dashboard.filteredEntries h f cr now es)
  = fst (Dashboard.filteredEntries h f cr now (filter (parses h) es)).
Proof.
  induction es as [|x es IH]; [reflexivity|].
  rewrite dashboard_filter_cons. cbn [fst filter].
  destruct (parses h x) eqn:Px.
  - rewrite dashboard_filter_cons. cbn [fst]. now rewrite IH.
  - unfold parses in Px.
    destruct (date_parse h (Entry.date x)) eqn:Hp; [discriminate|].
    rewrite dashboard_keeps_unparsable by exact Hp. exact IH.
Qed.

End DashboardFilter.

(** C7 (as amended). An entry whose date does not parse is dropped by the
    filter of either view, whatever the filter, and so is absent from
    whatever is computed from the filtered list; the pass goes on and
    treats the other entries as if it were not there.  The Dashboard
    filter puts one event on the error log for each such entry.  The
    reminder list looks at the renewal date only: such an entry is
    listed when its renewal date is due. *)
Theorem unparsable_date_dropped (h : Host) (e : Entry.t) :
  date_parse h (Entry.date e) = None ->
  (forall term fc sc E,
     ~ In e (EntriesView.filteredEntries h term fc sc E)
     /\ EntriesView.filterEntries h term fc E
        = EntriesView.filterEntries h term fc
            (filter (DateQuality.parses h) E))
  /\ (forall f cr now E,
        ~ In e (fst (Dashboard.filteredEntries h f cr now E))
        /\ (In e E ->
            In (InvalidEntryDate (Entry.date e))
              (snd (Dashboard.filteredEntries h f cr now E)))
        /\ filter DateQuality.isInvalidEntryDate
             (snd (Dashboard.filteredEntries h f cr now E))
           = map (fun x => InvalidEntryDate (Entry.date x))
               (filter (fun x => negb (DateQuality.parses h x)) E)
        /\ fst (Dashboard.filteredEntries h f cr now E)
           = fst (Dashboard.filteredEntries h f cr now
                    (filter (DateQuality.parses h) E)))
  /\ (forall today t0 r E,
        date_parse h today = Some t0 ->
        date_parse h (Entry.renewDate e) = Some r ->
        In e E ->
        js_gt (Entry.renewDateReminder e) 0 = true ->
        ReminderSpec.daysUntilRenew r t0 <= 0 ->
        exists s, In (e, s) (Dashboard.reminderEntries h today E)).
Proof.
  intros He. split; [|split].
  - intros term fc sc E. split; [|apply entries_kept_ignores_unparsable].
    intros Hin. unfold EntriesView.filteredEntries in Hin.
    apply (proj1 (js_sort_in _ _ _)) in Hin.
    unfold EntriesView.filterEntries in Hin. apply filter_In in Hin.
    destruct Hin as [_ Hk]. rewrite keeps_unparsable in Hk by exact He.
    discriminate.
  - intros f cr now E. split; [|split; [|split]].
    + intros Hin. apply dashboard_kept_parses in Hin.
      destruct Hin as [_ Hp]. unfold DateQuality.parses in Hp.
      rewrite He in Hp. discriminate.
    + intros Hin.
      assert (Hf : In (InvalidEntryDate (Entry.date e))
                     (filter DateQuality.isInvalidEntryDate
                        (snd (Dashboard.filteredEntries h f cr now E)))).
      { rewrite dashboard_log_unparsable.
        apply (in_map (fun x => InvalidEntryDate (Entry.date x))).
        apply filter_In. split; [exact Hin|].
        unfold DateQuality.parses. now rewrite He. }
      apply filter_In in Hf. tauto.
    + apply dashboard_log_unparsable.
    + apply dashboard_kept_ignores_unparsable.
  - intros today t0 r E Ht Hr Hin Hg Hd.
    exists (if ReminderSpec.daysUntilRenew r t0 =? 0 then Due
            else if ReminderSpec.daysUntilRenew r t0 <? 0 then PastDue
            else Approaching).
    unfold Dashboard.reminderEntries.
    rewrite (reminder_pipeline h today t0 E Ht).
    apply js_sort_in. apply selected_in.
    split; [exact Hin|]. split; [exact Hg|].
    exists r. split; [exact Hr|]. split; [now left | reflexivity].
Qed.

Lemma unparsable_date_dropped_witness :
  date_parse RefHost.host (Entry.date FilterScenario.bad) = None
  /\ ~ In FilterScenario.bad
        (fst (Dashboard.filteredEntries RefHost.host "Current Year"
                {| Dashboard.startDate := 0; Dashboard.endDate := 0 |}
                1747785600000 [FilterScenario.bad; FilterScenario.good])).
Proof.
  assert (H : date_parse RefHost.host (Entry.date FilterScenario.bad) = None)
    by (vm_compute; reflexivity).
  split; [exact H|].
  exact (proj1 (proj1 (proj2 (unparsable_date_dropped RefHost.host
                                FilterScenario.bad H))
                  "Current Year"
                  {| Dashboard.startDate := 0; Dashboard.endDate := 0 |}
                  1747785600000 [FilterScenario.bad; FilterScenario.good])).
Defined.

Example dashboard_filter_scenario :
  Dashboard.filteredEntries RefHost.host "Current Year"
    {| Dashboard.startDate := 0; Dashboard.endDate := 0 |}
    1747785600000 [FilterScenario.bad; FilterScenario.good]
  = ([FilterScenario.good], [InvalidEntryDate "n/a"]).
Proof. vm_compute. reflexivity. Qed.

(** In the [Entries] view with no filter set, so with no date-dependent
    computation asked for, the entry whose date does not parse is
    missing from the list and from the totals, and the result is the one
    obtained without it: nothing tells the caller. *)
Lemma entries_view_drops_silently :
  EntriesView.filteredEntries RefHost.host "" EntriesView.noFilter
    FilterScenario.byDate [FilterScenario.bad; FilterScenario.good]
  = EntriesView.filteredEntries RefHost.host "" EntriesView.noFilter
      FilterScenario.byDate [FilterScenario.good]
  /\ EntriesView.filteredEntries RefHost.host "" EntriesView.noFilter
       FilterScenario.byDate [FilterScenario.bad; FilterScenario.good]
     = [FilterScenario.good]
  /\ t_count (income (totals
       (EntriesView.filteredEntries RefHost.host "" EntriesView.noFilter
          FilterScenario.byDate [FilterScenario.bad; FilterScenario.good])))
     = 1
  /\ t_count (income (totals [FilterScenario.bad; FilterScenario.good])) = 2.
Proof. repeat split; vm_compute; reflexivity. Qed.

(** ** The export *)

Section Csv.

Import CsvSpec.



End Csv.




(** * Further properties *)

(** ** Reading the words back *)

(** One unfolding of [numToWords], choosing the branch by [lia]. *)
Ltac numToWords_branch :=
  rewrite numToWords_unfold_eq; unfold numToWords_unfold;
  repeat (match goal with
          | |- context [Z.eq_dec ?a ?b] => destruct (Z.eq_dec a b); [lia|]
          | |- context [Z_lt_dec ?a ?b] => destruct (Z_lt_dec a b); try lia
          end;
          cbv beta iota delta
            [numToWords_unfold_clause_1
             numToWords_unfold_clause_1_clause_2
             numToWords_unfold_clause_1_clause_2_clause_2
             numToWords_unfold_clause_1_clause_2_clause_2_clause_2
             numToWords_unfold_clause_1_clause_2_clause_2_clause_2_clause_2
             numToWords_unfold_clause_1_clause_2_clause_2_clause_2_clause_2_clause_2
             numToWords_unfold_clause_1_clause_2_clause_2_clause_2_clause_2_clause_2_clause_2]).

Section Decoding.

Import Buckets WordsDecode.

Lemma splitSpace_nonempty (s : string) : splitSpace s <> [].
Proof.
  induction s as [|c s IH]; simpl; [discriminate|].
  destruct (Ascii.eqb c " "); [discriminate|].
  destruct (splitSpace s); discriminate.
Qed.

Lemma splitSpace_app (a b : string) :
  splitSpace (a ++ String " " b) = (splitSpace a ++ splitSpace b)%list.
Proof.
  induction a as [|c a IH]; [reflexivity|].
  simpl. destruct (Ascii.eqb c " "); [now rewrite IH|].
  rewrite IH. pose proof (splitSpace_nonempty a).
  destruct (splitSpace a); [contradiction | reflexivity].
Qed.

Lemma splitSpace_concat (l : list string) :
  l <> [] ->
  splitSpace (String.concat " " l) = flat_map splitSpace l.
Proof.
  induction l as [|x l IH]; [congruence|]. intros _.
  destruct l as [|y l].
  - simpl. now rewrite app_nil_r.
  - rewrite concat_cons2. change (" " ++ ?t) with (String " " t).
    rewrite splitSpace_app, IH by discriminate. reflexivity.
Qed.

Lemma run_app (a b : list string) (st : option (Z * Z)) :
  run (a ++ b) st = run b (run a st).
Proof. apply fold_left_app. Qed.

Lemma run_number_words (ws : list string) (v total group : Z) :
  wordsValue ws = Some v ->
  run ws (Some (total, group)) = Some (total, group + v).
Proof.
  revert v group. induction ws as [|w ws IH]; intros v group H.
  - injection H as <-. simpl. now rewrite Z.add_0_r.
  - simpl in H. destruct (wordValue w) as [x|] eqn:Hw; [|discriminate].
    destruct (wordsValue ws) as [y|] eqn:Hws; [|discriminate].
    injection H as <-. unfold run. simpl. rewrite Hw.
    fold (run ws (Some (total, group + x))).
    rewrite (IH y) by reflexivity. f_equal. f_equal. lia.
Qed.

Lemma two_digit_value_check :
  below 100
    (fun v =>
       (v =? 0)
       || optZ_eqb (wordsValue (splitSpace (tmpl (convertTwoDigits v))))
            (Some v)) = true.
Proof. vm_compute. reflexivity. Qed.

Lemma unit_value_check :
  below 10
    (fun v =>
       (v =? 0)
       || optZ_eqb (wordsValue (splitSpace (tmpl (js_index units v))))
            (Some v)) = true.
Proof. vm_compute. reflexivity. Qed.

Lemma optZ_eqb_eq (a b : option Z) : optZ_eqb a b = true -> a = b.
Proof.
  destruct a, b; simpl; try discriminate; trivial.
  intros H. apply Z.eqb_eq in H. now subst.
Qed.

Lemma two_digit_value (v : Z) :
  0 < v < 100 ->
  wordsValue (splitSpace (tmpl (convertTwoDigits v))) = Some v.
Proof.
  intros Hv. pose proof (below_spec 100 _ two_digit_value_check v ltac:(lia)) as H.
  cbv beta in H. destruct (Z.eqb_spec v 0); [lia|].
  now apply optZ_eqb_eq.
Qed.

Lemma unit_value (v : Z) :
  0 < v < 10 ->
  wordsValue (splitSpace (tmpl (js_index units v))) = Some v.
Proof.
  intros Hv. pose proof (below_spec 10 _ unit_value_check v ltac:(lia)) as H.
  cbv beta in H. destruct (Z.eqb_spec v 0); [lia|].
  now apply optZ_eqb_eq.
Qed.

(** Reading one magnitude part [<number words> <word>]. *)
Lemma run_rendered_magnitude (v total scale : Z) (word : string)
  (rest : list string) :
  0 <= v < 100 ->
  splitSpace word = [word] ->
  (forall g, step (Some (total, g)) word = Some (total + g * scale, 0)) ->
  run (flat_map splitSpace
         (rendered v (tmpl (convertTwoDigits v) ++ String " " word) ++ rest))
    (Some (total, 0))
  = run (flat_map splitSpace rest) (Some (total + v * scale, 0)).
Proof.
  intros Hv Hw Hstep. unfold rendered.
  destruct (Z.eqb_spec v 0) as [->|Hnz].
  - simpl. now rewrite Z.add_0_r.
  - cbn [app flat_map]. rewrite run_app, splitSpace_app, run_app.
    rewrite (run_number_words _ v) by (apply two_digit_value; lia).
    rewrite Hw. unfold run at 2. cbn [fold_left]. rewrite Hstep.
    reflexivity.
Qed.

Lemma run_rendered_hundred (v total : Z) (rest : list string) :
  0 <= v < 10 ->
  run (flat_map splitSpace
         (rendered v (tmpl (js_index units v) ++ " Hundred") ++ rest))
    (Some (total, 0))
  = run (flat_map splitSpace rest) (Some (total, v * 100)).
Proof.
  intros Hv. unfold rendered.
  destruct (Z.eqb_spec v 0) as [->|Hnz]; [reflexivity|].
  cbn [app flat_map]. rewrite run_app.
  change (tmpl (js_index units v) ++ " Hundred")
    with (tmpl (js_index units v) ++ String " " "Hundred").
  rewrite splitSpace_app, run_app.
  rewrite (run_number_words _ v) by (apply unit_value; lia).
  reflexivity.
Qed.

Lemma run_rendered_remainder (v total group : Z) :
  0 <= v < 100 ->
  run (flat_map splitSpace (rendered v (tmpl (convertTwoDigits v))))
    (Some (total, group))
  = Some (total, group + v).
Proof.
  intros Hv. unfold rendered.
  destruct (Z.eqb_spec v 0) as [->|Hnz].
  - simpl. now rewrite Z.add_0_r.
  - cbn [flat_map]. rewrite app_nil_r.
    apply run_number_words. apply two_digit_value. lia.
Qed.

Lemma run_renderings (n : Z) :
  0 <= n < 1000000000 ->
  run (flat_map splitSpace (renderings n)) (Some (0, 0))
  = Some (crore n * 10000000 + lakh n * 100000 + thousand n * 1000,
          hundred n * 100 + remainder n).
Proof.
  intros Hn. destruct (bucket_bounds n ltac:(lia)) as (Hc & Hl & Ht & Hh & Hr).
  assert (Hc' : crore n < 100)
    by (unfold crore; apply Z.div_lt_upper_bound; lia).
  unfold renderings.
  change (tmpl (convertTwoDigits (crore n)) ++ " Crore")
    with (tmpl (convertTwoDigits (crore n)) ++ String " " "Crore").
  change (tmpl (convertTwoDigits (lakh n)) ++ " Lakh")
    with (tmpl (convertTwoDigits (lakh n)) ++ String " " "Lakh").
  change (tmpl (convertTwoDigits (thousand n)) ++ " Thousand")
    with (tmpl (convertTwoDigits (thousand n)) ++ String " " "Thousand").
  rewrite (run_rendered_magnitude _ _ 10000000)
    by (lia || reflexivity || (intros g; cbn; repeat f_equal; lia)).
  rewrite (run_rendered_magnitude _ _ 100000) by (lia || reflexivity).
  rewrite (run_rendered_magnitude _ _ 1000) by (lia || reflexivity).
  rewrite run_rendered_hundred by lia.
  rewrite run_rendered_remainder by lia.
  repeat f_equal; lia.
Qed.

Lemma buckets_sum (n : Z) :
  crore n * 10000000 + lakh n * 100000 + thousand n * 1000
  + (hundred n * 100 + remainder n) = n.
Proof.
  unfold crore, lakh, thousand, hundred, remainder.
  Z.div_mod_to_equations. lia.
Qed.

Lemma run_and (ws : list string) (st : option (Z * Z)) :
  run ("and" :: ws) st = run ws st.
Proof. destruct st as [[t g]|]; reflexivity. Qed.

Lemma flat_map_with_and (rs : list string) :
  rs <> [] ->
  run (flat_map splitSpace (with_and rs)) (Some (0, 0))
  = run (flat_map splitSpace rs) (Some (0, 0)).
Proof.
  intros Hrs. unfold with_and.
  destruct (exists_last Hrs) as [l [a ->]].
  rewrite removelast_last, last_last.
  rewrite !flat_map_app, !run_app. cbn [flat_map].
  change (splitSpace "and") with ["and"]. cbn [app].
  now rewrite run_and.
Qed.

Lemma decode_concat (rs : list string) (t g n : Z) :
  rs <> [] ->
  run (flat_map splitSpace rs) (Some (0, 0)) = Some (t, g) ->
  t + g = n ->
  decode (String.concat " " rs) = Some n.
Proof.
  intros Hrs Hrun <-. unfold decode. now rewrite splitSpace_concat, Hrun.
Qed.

Lemma renderings_nonempty (n : Z) :
  0 < n < 1000000000 -> renderings n <> [].
Proof.
  intros Hn E. pose proof (run_renderings n ltac:(lia)) as H.
  rewrite E in H. simpl in H. injection H as H1 H2.
  pose proof (buckets_sum n). lia.
Qed.

Lemma bucket_decode (n : Z) :
  0 <= n < 1000000000 -> decode (Words.numberToWordsIndian n) = Some n.
Proof.
  intros Hn. destruct (Z.eq_dec n 0) as [->|Hnz]; [reflexivity|].
  rewrite bucket_words_int by lia.
  pose proof (renderings_nonempty n ltac:(lia)) as Hne.
  destruct (1 <? nonzero n)%nat.
  - eapply decode_concat; [| |apply (buckets_sum n)].
    + unfold with_and. now destruct (removelast (renderings n)).
    + rewrite flat_map_with_and by exact Hne. apply run_renderings. lia.
  - eapply decode_concat; [exact Hne| |apply (buckets_sum n)].
    apply run_renderings. lia.
Qed.





End Decoding.

(** X1. Below one hundred crore the words of the bucket formatter read back
    to the amount, so that two amounts never share their words. *)
Theorem bucket_words_read_back (n m : Z) :
  0 <= n < 1000000000 -> 0 <= m < 1000000000 ->
  WordsDecode.decode (Words.numberToWordsIndian n) = Some n
  /\ (Words.numberToWordsIndian n = Words.numberToWordsIndian m -> n = m).
Proof.
  intros Hn Hm. split; [now apply bucket_decode|].
  intros H. apply (f_equal WordsDecode.decode) in H.
  rewrite !bucket_decode in H by assumption. congruence.
Qed.

Lemma bucket_words_read_back_witness :
  0 <= 1234567 < 1000000000 /\ 0 <= 1234576 < 1000000000
  /\ WordsDecode.decode (Words.numberToWordsIndian 1234567) = Some 1234567.
Proof.
  assert (H1 : 0 <= 1234567 < 1000000000) by lia.
  assert (H2 : 0 <= 1234576 < 1000000000) by lia.
  split; [exact H1 | split; [exact H2|]].
  exact (proj1 (bucket_words_read_back 1234567 1234576 H1 H2)).
Defined.



(** ** The formatters outside their range *)

Section OutOfRange.

Import Buckets.

Lemma prefix_app (p a b : string) :
  String.prefix p a = true -> String.prefix p (a ++ b) = true.
Proof.
  revert a. induction p as [|c p IH]; intros a H.
  - now destruct (a ++ b).
  - destruct a as [|c' a]; [discriminate|]. simpl in *.
    destruct (ascii_dec c c'); [now apply IH | discriminate].
Qed.

Lemma prefix_concat (p x : string) (l : list string) :
  String.prefix p x = true ->
  String.prefix p (String.concat " " (x :: l)) = true.
Proof.
  intros H. destruct l; [exact H|]. rewrite concat_cons2.
  now apply prefix_app.
Qed.

Lemma with_and_head (x y : string) (l : list string) :
  exists l', with_and (x :: y :: l) = x :: l'.
Proof. unfold with_and. now eexists. Qed.

Lemma bucket_words_large (n : Z) :
  1000000000 <= n ->
  String.prefix "undefined" (Words.numberToWordsIndian n) = true.
Proof.
  intros Hn. rewrite bucket_words_int by lia.
  assert (Hc : 100 <= crore n)
    by (unfold crore; apply Z.div_le_lower_bound; lia).
  assert (Hp : String.prefix "undefined"
                 (tmpl (convertTwoDigits (crore n)) ++ " Crore") = true).
  { apply prefix_app. rewrite two_digit_large by exact Hc.
    now apply prefix_app. }
  pose proof (renderings_length n) as Hlen.
  rewrite renderings_tail in *. unfold rendered in *.
  destruct (Z.eqb_spec (crore n) 0); [lia|]. cbn [app] in *.
  destruct (Nat.ltb_spec 1 (nonzero n)) as [H1|H1].
  - destruct (tail4 n) as [|y l].
    + simpl in Hlen. lia.
    + destruct (with_and_head
                  (tmpl (convertTwoDigits (crore n)) ++ " Crore") y l)
        as [l' ->].
      now apply prefix_concat.
  - now apply prefix_concat.
Qed.

(** *** Negative amounts *)

Lemma js_gt_nonpos (q : Q) : (q <= 0)%Q -> js_gt (Fin q) 0 = false.
Proof.
  intros Hq. unfold js_gt, js_compare, ofZ. change (inject_Z 0) with 0%Q.
  destruct (Qcompare_spec q 0) as [H|H|H]; trivial.
  exfalso. apply (Qlt_not_le _ _ H Hq).
Qed.

Lemma js_seq_neg (q : Q) : (q < 0)%Q -> js_seq (Fin q) 0 = false.
Proof.
  intros Hq. unfold js_seq, js_compare, ofZ. change (inject_Z 0) with 0%Q.
  destruct (Qcompare_spec q 0) as [H|H|H]; trivial.
  rewrite H in Hq. exfalso. apply (Qlt_irrefl _ Hq).
Qed.

Lemma inject_Z_pos (d : Z) : 0 < d -> (0 < inject_Z d)%Q.
Proof. intros Hd. change 0%Q with (inject_Z 0). now rewrite <- Zlt_Qlt. Qed.

Lemma Qeq_bool_pos (d : Z) : 0 < d -> Qeq_bool (inject_Z d) 0 = false.
Proof.
  intros Hd. change 0%Q with (inject_Z 0). rewrite Qeq_bool_inject_Z.
  apply Z.eqb_neq. lia.
Qed.

Lemma Qdiv_nonpos (q : Q) (d : Z) :
  (q <= 0)%Q -> 0 < d -> (q / inject_Z d <= 0)%Q.
Proof.
  intros Hq Hd. apply Qle_shift_div_r; [now apply inject_Z_pos|].
  now rewrite Qmult_0_l.
Qed.

(** The whole quotient of a number that is not positive is not positive. *)
Lemma floor_div_nonpos (q : Q) (d : Z) :
  (q <= 0)%Q -> 0 < d -> js_gt (js_floor (js_div (Fin q) d)) 0 = false.
Proof.
  intros Hq Hd. unfold js_div, ofZ. rewrite Qeq_bool_pos by exact Hd.
  unfold js_floor. apply js_gt_nonpos.
  eapply Qle_trans; [apply Qfloor_le|]. now apply Qdiv_nonpos.
Qed.

(** The remainder of a number that is not positive is not positive. *)
Lemma rem_nonpos (q : Q) (d : Z) :
  (q <= 0)%Q -> 0 < d ->
  exists r, js_rem (Fin q) d = Fin r /\ (r <= 0)%Q.
Proof.
  intros Hq Hd. unfold js_rem, ofZ. rewrite Qeq_bool_pos by exact Hd.
  eexists. split; [reflexivity|]. rewrite Qred_correct.
  pose proof (inject_Z_pos d Hd) as Hpos.
  assert (Hle : (q / inject_Z d
                 <= inject_Z (Qtrunc (q / inject_Z d)))%Q).
  { unfold Qtrunc. destruct (Qle_bool 0 (q / inject_Z d)) eqn:E.
    - apply Qle_bool_iff in E.
      pose proof (Qdiv_nonpos q d Hq Hd) as Hn.
      assert (Hz : (q / inject_Z d == 0)%Q) by now apply Qle_antisym.
      rewrite (Qfloor_comp _ _ Hz). exact Hn.
    - apply Qle_ceiling. }
  assert (Hq' : (q == inject_Z d * (q / inject_Z d))%Q).
  { rewrite Qmult_div_r; [reflexivity|].
    intros E. rewrite E in Hpos. apply (Qlt_irrefl _ Hpos). }
  apply (Qmult_le_l _ _ _ Hpos) in Hle. rewrite <- Hq' in Hle.
  apply (Qplus_le_l _ _ (inject_Z d * inject_Z (Qtrunc (q / inject_Z d)))).
  ring_simplify. exact Hle.
Qed.

Lemma bucket_words_negative (q : Q) :
  (q < 0)%Q -> Words.numberToWordsIndian (Fin q) = "".
Proof.
  intros Hq. pose proof (Qlt_le_weak _ _ Hq) as Hle.
  unfold Words.numberToWordsIndian. rewrite js_seq_neg by exact Hq.
  assert (Hc : js_gt (crore_of (Fin q)) 0 = false)
    by (apply floor_div_nonpos; [exact Hle | lia]).
  assert (Hl : js_gt (lakh_of (Fin q)) 0 = false).
  { unfold lakh_of. destruct (rem_nonpos q 10000000 Hle ltac:(lia)) as (r & -> & Hr).
    apply floor_div_nonpos; [exact Hr | lia]. }
  assert (Ht : js_gt (thousand_of (Fin q)) 0 = false).
  { unfold thousand_of. destruct (rem_nonpos q 100000 Hle ltac:(lia)) as (r & -> & Hr).
    apply floor_div_nonpos; [exact Hr | lia]. }
  assert (Hh : js_gt (hundred_of (Fin q)) 0 = false).
  { unfold hundred_of. destruct (rem_nonpos q 1000 Hle ltac:(lia)) as (r & -> & Hr).
    apply floor_div_nonpos; [exact Hr | lia]. }
  assert (Hr : js_gt (remainder_of (Fin q)) 0 = false).
  { unfold remainder_of. destruct (rem_nonpos q 100 Hle ltac:(lia)) as (r & -> & Hr).
    now apply js_gt_nonpos. }
  unfold parts, nonZeroUnits. rewrite Hc, Hl, Ht, Hh, Hr. reflexivity.
Qed.

Lemma recursive_words_negative (q : Q) :
  (q < 0)%Q -> WordsRec.numberToWordsIndian (Fin q) = Throws.
Proof.
  intros Hq. unfold WordsRec.numberToWordsIndian.
  rewrite js_seq_neg by exact Hq. unfold js_floor.
  assert (Hf : Qfloor q < 0).
  { assert (H : (inject_Z (Qfloor q) < inject_Z 0)%Q).
    { eapply Qle_lt_trans; [apply Qfloor_le | exact Hq]. }
    now rewrite <- Zlt_Qlt in H. }
  rewrite Qfloor_Z.
  numToWords_branch. now rewrite js_index_neg.
Qed.

End OutOfRange.

(** X3. From one hundred crore upwards the bucket formatter looks its crore
    count up beyond the table of tens: the text it returns starts with
    the word undefined. *)
Theorem bucket_words_undefined_from_hundred_crore (n : Z) :
  1000000000 <= n ->
  String.prefix "undefined" (Words.numberToWordsIndian n) = true.
Proof. apply bucket_words_large. Qed.

Lemma bucket_words_undefined_from_hundred_crore_witness :
  1000000000 <= 1000000000
  /\ String.prefix "undefined" (Words.numberToWordsIndian 1000000000) = true.
Proof.
  assert (H : 1000000000 <= 1000000000) by lia.
  split; [exact H|].
  exact (bucket_words_undefined_from_hundred_crore 1000000000 H).
Defined.

(** X4. On a negative amount, integral or not, no bucket is positive and the
    bucket formatter returns the empty string, while the recursive
    formatter indexes its table of units below zero and raises. *)
Theorem formatters_on_negative (q : Q) :
  (q < 0)%Q ->
  Words.numberToWordsIndian (Fin q) = ""
  /\ WordsRec.numberToWordsIndian (Fin q) = Throws.
Proof.
  intros Hq. split;
    [now apply bucket_words_negative | now apply recursive_words_negative].
Qed.

Lemma formatters_on_negative_witness :
  (-5 # 2 < 0)%Q
  /\ Words.numberToWordsIndian (Fin (-5 # 2)) = ""
  /\ WordsRec.numberToWordsIndian (Fin (-5 # 2)) = Throws.
Proof.
  assert (H : (-5 # 2 < 0)%Q) by reflexivity.
  split; [exact H|]. exact (formatters_on_negative (-5 # 2) H).
Defined.

(** ** Pages of the [Entries] view *)

Section Pages.

Import Pager PagerSpec.

Context {A : Type}.

(** The number of pages is the quotient rounded up. *)
Lemma totalPages_int (l : list A) (per : Z) :
  0 < per ->
  totalPages l per = ofZ (- ((- Z.of_nat (List.length l)) / per)).
Proof. intros Hper. unfold totalPages. now apply js_ceil_div_int. Qed.

Lemma slice_forward (s e : Z) (l : list A) :
  0 <= s -> s <= e ->
  slice s e l
  = firstn (Z.to_nat (e - s)) (skipn (Z.to_nat s) l).
Proof.
  intros Hs He. unfold slice.
  destruct (Z.ltb_spec s 0); [lia|]. destruct (Z.ltb_spec e 0); [lia|].
  set (len := Z.of_nat (List.length l)).
  destruct (Z.le_gt_cases len s) as [Hout|Hin].
  - rewrite !skipn_all2 by lia. now rewrite !firstn_nil.
  - rewrite (Z.min_l s len) by lia.
    destruct (Z.le_gt_cases e len) as [Hfull|Hshort].
    + now rewrite (Z.min_l e len) by lia.
    + rewrite (Z.min_r e len) by lia.
      rewrite !firstn_all2; trivial; rewrite length_skipn; lia.
Qed.

(** A page is a chunk of [entriesPerPage] entries. *)
Lemma page_chunk (l : list A) (p per : Z) :
  0 < per -> 1 <= p ->
  paginatedEntries l p per
  = firstn (Z.to_nat per) (skipn (Z.to_nat (p - 1) * Z.to_nat per) l).
Proof.
  intros Hper Hp. unfold paginatedEntries.
  rewrite slice_forward by nia.
  f_equal; [f_equal; lia|]. f_equal. nia.
Qed.

Lemma chunks_cover (n T : nat) (l : list A) :
  (List.length l <= T * n)%nat ->
  flat_map (fun i => firstn n (skipn (i * n) l)) (List.seq 0 T) = l.
Proof.
  revert l. induction T as [|T IH]; intros l Hl.
  - destruct l; [reflexivity | simpl in Hl; lia].
  - cbn [List.seq flat_map]. rewrite <- seq_shift, flat_map_concat_map, map_map.
    rewrite <- flat_map_concat_map.
    rewrite (flat_map_ext _ (fun i => firstn n (skipn (i * n) (skipn n l)))).
    + rewrite IH by (rewrite length_skipn; lia).
      simpl. apply firstn_skipn.
    + intros i. rewrite skipn_skipn. do 2 f_equal. lia.
Qed.

Lemma ceil_bounds (len per : Z) :
  0 <= len -> 0 < per ->
  let T := - ((- len) / per) in
  0 <= T /\ (T - 1) * per < len <= T * per.
Proof.
  intros Hlen Hper T. subst T.
  pose proof (Z.div_mod (- len) per ltac:(lia)) as Hdm.
  pose proof (Z.mod_pos_bound (- len) per Hper) as Hr.
  nia.
Qed.

Lemma pages_cover (l : list A) (per : Z) :
  0 < per ->
  flat_map (fun p => paginatedEntries l p per)
    (countFrom 1 (- ((- Z.of_nat (List.length l)) / per)))
  = l.
Proof.
  intros Hper.
  destruct (ceil_bounds (Z.of_nat (List.length l)) per ltac:(lia) Hper)
    as (HT & _ & Hle).
  set (T := - ((- Z.of_nat (List.length l)) / per)) in *.
  unfold countFrom. rewrite flat_map_concat_map, map_map.
  rewrite <- flat_map_concat_map.
  rewrite (flat_map_ext _
             (fun i => firstn (Z.to_nat per) (skipn (i * Z.to_nat per) l))).
  - replace (T - 1 + 1) with T by lia. apply chunks_cover. nia.
  - intros i. rewrite page_chunk by lia. do 3 f_equal. lia.
Qed.

Lemma page_length (l : list A) (p per : Z) :
  0 < per -> 1 <= p ->
  Z.of_nat (List.length (paginatedEntries l p per))
  = Z.max 0 (Z.min per (Z.of_nat (List.length l) - (p - 1) * per)).
Proof.
  intros Hper Hp. rewrite page_chunk by lia.
  rewrite length_firstn, length_skipn. nia.
Qed.

Lemma page_nth (l : list A) (p per : Z) (k : nat) :
  0 < per -> 1 <= p ->
  (k < List.length (paginatedEntries l p per))%nat ->
  nth_error (paginatedEntries l p per) k
  = nth_error l (Z.to_nat (showingFrom p per - 1) + k).
Proof.
  intros Hper Hp Hk. pose proof (page_length l p per Hper Hp) as Hlen.
  rewrite page_chunk by lia. rewrite nth_error_firstn.
  destruct (Nat.ltb_spec k (Z.to_nat per)) as [_|Hge]; [|lia].
  rewrite nth_error_skipn. f_equal. unfold showingFrom. nia.
Qed.

Lemma page_nonempty (l : list A) (p per : Z) :
  0 < per -> 1 <= p ->
  (paginatedEntries l p per <> []
   <-> js_le p (totalPages l per) = true).
Proof.
  intros Hper Hp. rewrite totalPages_int, js_le_int by exact Hper.
  pose proof (page_length l p per Hper Hp) as Hlen.
  destruct (ceil_bounds (Z.of_nat (List.length l)) per ltac:(lia) Hper)
    as (HT & Hlo & Hhi).
  set (T := - ((- Z.of_nat (List.length l)) / per)) in *.
  rewrite Z.leb_le. split.
  - intros Hne. destruct (Z.le_gt_cases p T) as [H|H]; [exact H|].
    exfalso. apply Hne. apply length_zero_iff_nil. nia.
  - intros Hle E. rewrite E in Hlen. simpl in Hlen. nia.
Qed.

End Pages.

Section PageBar.

Import Pager PagerSpec.

Lemma countFrom_nil (lo hi : Z) : hi < lo -> countFrom lo hi = [].
Proof.
  intros H. unfold countFrom.
  replace (Z.to_nat (hi - lo + 1)) with 0%nat by lia. reflexivity.
Qed.

Lemma countFrom_cons (lo hi : Z) :
  lo <= hi -> countFrom lo hi = lo :: countFrom (lo + 1) hi.
Proof.
  intros H. unfold countFrom.
  replace (Z.to_nat (hi - lo + 1)) with (S (Z.to_nat (hi - (lo + 1) + 1)))
    by lia.
  cbn [List.seq map]. f_equal; [lia|].
  rewrite <- seq_shift, map_map. apply map_ext. intros k. lia.
Qed.

Lemma In_countFrom (lo hi p : Z) : In p (countFrom lo hi) <-> lo <= p <= hi.
Proof.
  unfold countFrom. rewrite in_map_iff. split.
  - intros (k & <- & Hk). apply in_seq in Hk. lia.
  - intros Hp. exists (Z.to_nat (p - lo)). split; [lia|].
    apply in_seq. lia.
Qed.

Lemma countFrom_app (lo mid hi : Z) :
  lo <= mid + 1 -> mid <= hi ->
  countFrom lo hi = (countFrom lo mid ++ countFrom (mid + 1) hi)%list.
Proof.
  intros H1 H2. remember (Z.to_nat (mid - lo + 1)) as n eqn:En.
  revert lo H1 En. induction n as [|n IH]; intros lo H1 En.
  - rewrite (countFrom_nil lo mid) by lia.
    replace (mid + 1) with lo by lia. reflexivity.
  - rewrite (countFrom_cons lo hi), (countFrom_cons lo mid) by lia.
    cbn [app]. f_equal. apply IH; lia.
Qed.

Lemma filter_all {B : Type} (f : B -> bool) (l : list B) :
  (forall x, In x l -> f x = true) -> filter f l = l.
Proof. intros H. apply forallb_filter_id. now apply forallb_forall. Qed.

Lemma filter_none {B : Type} (f : B -> bool) (l : list B) :
  (forall x, In x l -> f x = false) -> filter f l = [].
Proof.
  induction l as [|x l IH]; intros H; [reflexivity|]. simpl.
  rewrite (H x) by now left. apply IH. intros y Hy. apply H. now right.
Qed.

(** The first loop collects the pages to show, in order. *)
Lemma pageRange_shown (cur T : Z) :
  1 <= cur <= T -> pageRange cur T = shownPages cur T.
Proof.
  intros Hc. unfold pageRange, shownPages.
  set (lo := Z.max 2 (cur - 1)). set (hi := Z.min (T - 1) (cur + 1)).
  set (f := fun p => _).
  destruct (Z.eq_dec T 1) as [->|HT].
  - assert (cur = 1) by lia. subst cur. reflexivity.
  - destruct (Z.gtb_spec T 1) as [_|]; [|lia].
    rewrite (countFrom_cons 1 T) by lia.
    rewrite (countFrom_app (1 + 1) (T - 1) T) by lia.
    rewrite (countFrom_app (1 + 1) (lo - 1) (T - 1)) by lia.
    rewrite (countFrom_app (lo - 1 + 1) hi (T - 1)) by lia.
    replace (lo - 1 + 1) with lo by lia.
    replace (T - 1 + 1) with T by lia.
    rewrite (countFrom_cons T T), (countFrom_nil (T + 1) T) by lia.
    cbn [filter]. replace (f 1) with true by (subst f; reflexivity).
    rewrite !filter_app. cbn [filter].
    replace (f T) with true
      by (subst f; cbv beta; rewrite Z.eqb_refl, orb_true_r; reflexivity).
    rewrite (filter_none f (countFrom (1 + 1) (lo - 1))).
    2:{ intros p Hp. apply In_countFrom in Hp. subst f. cbv beta.
        destruct (Z.eqb_spec p 1); [lia|]. destruct (Z.eqb_spec p T); [lia|].
        destruct (Z.leb_spec (cur - 1) p); [lia|]. reflexivity. }
    rewrite (filter_all f (countFrom lo hi)).
    2:{ intros p Hp. apply In_countFrom in Hp. subst f. cbv beta.
        destruct (Z.leb_spec (cur - 1) p); [|lia].
        destruct (Z.leb_spec p (cur + 1)); [|lia].
        now rewrite orb_true_r. }
    rewrite (filter_none f (countFrom (hi + 1) (T - 1))).
    2:{ intros p Hp. apply In_countFrom in Hp. subst f. cbv beta.
        destruct (Z.eqb_spec p 1); [lia|]. destruct (Z.eqb_spec p T); [lia|].
        destruct (Z.leb_spec p (cur + 1)); [lia|].
        now rewrite andb_false_r. }
    cbn [app]. now rewrite app_nil_r.
Qed.

(** The second loop, once a page has been seen. *)
Lemma fold_addPage (pages : list Z) (prev : Z) (acc : list PageItem) :
  prev <> 0 -> Forall (fun p => p <> 0) pages ->
  snd (fold_left addPage pages (prev, acc))
  = (acc ++ gapsAfter prev pages)%list.
Proof.
  revert prev acc. induction pages as [|p pages IH]; intros prev acc Hp Hall.
  - simpl. now rewrite app_nil_r.
  - inversion Hall as [|? ? Hp0 Hrest]; subst.
    cbn [fold_left addPage gapsAfter].
    destruct (Z.eqb_spec prev 0); [contradiction|]. cbn [negb andb].
    rewrite IH by assumption.
    destruct (p - prev >? 1); now rewrite <- !app_assoc.
Qed.

Lemma pagination_gaps (cur T : Z) :
  1 <= cur <= T -> getPaginationRange cur T = withGaps (shownPages cur T).
Proof.
  intros Hc. rewrite <- pageRange_shown by exact Hc.
  unfold getPaginationRange, pageRange.
  cbn [app fold_left addPage Z.eqb negb andb].
  rewrite fold_addPage; [reflexivity | discriminate |].
  apply Forall_app. split.
  - apply Forall_forall. intros p Hp. apply In_countFrom in Hp. lia.
  - destruct (Z.gtb_spec T 1); constructor; [lia | constructor].
Qed.

Lemma pagination_single (cur T : Z) :
  T <= 1 -> getPaginationRange cur T = [Page 1].
Proof.
  intros HT. unfold getPaginationRange, pageRange.
  rewrite countFrom_nil by lia.
  destruct (Z.gtb_spec T 1); [lia | reflexivity].
Qed.

End PageBar.


(** X5. The pages numbered from 1 to the page count, one after the other,
    are the filtered list: no entry is lost or shown twice. *)
Theorem pages_partition {A : Type} (l : list A) (per : Z) :
  0 < per ->
  exists T,
    Pager.totalPages l per = ofZ T
    /\ flat_map (fun p => Pager.paginatedEntries l p per) (Pager.countFrom 1 T)
       = l.
Proof.
  intros Hper. exists (- ((- Z.of_nat (List.length l)) / per)).
  split; [now apply totalPages_int | now apply pages_cover].
Qed.

Lemma pages_partition_witness :
  0 < 10
  /\ exists T,
       Pager.totalPages [1; 2; 3; 4; 5; 6; 7; 8; 9; 10; 11; 12] 10 = ofZ T
       /\ flat_map
            (fun p =>
               Pager.paginatedEntries [1; 2; 3; 4; 5; 6; 7; 8; 9; 10; 11; 12]
                 p 10)
            (Pager.countFrom 1 T)
          = [1; 2; 3; 4; 5; 6; 7; 8; 9; 10; 11; 12].
Proof.
  assert (H : 0 < 10) by lia.
  split; [exact H|].
  exact (pages_partition [1; 2; 3; 4; 5; 6; 7; 8; 9; 10; 11; 12] 10 H).
Defined.

(** X6. A page between 1 and the page count is not empty, holds at most
    [entriesPerPage] entries, and holds the entries whose positions the
    caption names: from [showingFrom] to [showingTo], counted from 1. *)
Theorem page_window {A : Type} (l : list A) (p per : Z) :
  0 < per -> 1 <= p -> js_le p (Pager.totalPages l per) = true ->
  let page := Pager.paginatedEntries l p per in
  page <> []
  /\ Z.of_nat (List.length page) <= per
  /\ Z.of_nat (List.length page)
     = Pager.showingTo l p per - Pager.showingFrom p per + 1
  /\ forall k, (k < List.length page)%nat ->
       nth_error page k
       = nth_error l (Z.to_nat (Pager.showingFrom p per - 1) + k).
Proof.
  intros Hper Hp Hle page.
  pose proof (proj2 (page_nonempty l p per Hper Hp) Hle) as Hne.
  pose proof (page_length l p per Hper Hp) as Hlen. fold page in Hlen, Hne.
  assert (Hpos : (0 < List.length page)%nat).
  { destruct page; [congruence | simpl; lia]. }
  split; [exact Hne|]. split; [lia|]. split.
  - unfold Pager.showingTo, Pager.showingFrom. nia.
  - intros k Hk. now apply page_nth.
Qed.

Lemma page_window_witness :
  0 < 10 /\ 1 <= 2
  /\ js_le 2 (Pager.totalPages [1; 2; 3; 4; 5; 6; 7; 8; 9; 10; 11; 12] 10)
     = true
  /\ Pager.paginatedEntries [1; 2; 3; 4; 5; 6; 7; 8; 9; 10; 11; 12] 2 10
     <> [].
Proof.
  assert (H1 : 0 < 10) by lia. assert (H2 : 1 <= 2) by lia.
  assert (H3 : js_le 2
                 (Pager.totalPages [1; 2; 3; 4; 5; 6; 7; 8; 9; 10; 11; 12] 10)
               = true) by reflexivity.
  split; [exact H1|]. split; [exact H2|]. split; [exact H3|].
  exact (proj1 (page_window [1; 2; 3; 4; 5; 6; 7; 8; 9; 10; 11; 12] 2 10
                  H1 H2 H3)).
Defined.

(** X7. [handlePageChange] moves to the requested page exactly when its
    number is at least 1 and the page holds an entry; otherwise the
    current page stays. *)
Theorem page_change_guard {A : Type} (l : list A) (per cur page : Z) :
  0 < per ->
  let next := Pager.handlePageChange (Pager.totalPages l per) cur page in
  (next = page /\ 1 <= page /\ Pager.paginatedEntries l page per <> [])
  \/ (next = cur
      /\ (page < 1 \/ Pager.paginatedEntries l page per = [])).
Proof.
  intros Hper next. subst next. unfold Pager.handlePageChange.
  rewrite js_ge_int.
  destruct (Z.leb_spec 1 page) as [Hp|Hp]; [|right; split; [reflexivity | lia]].
  cbn [andb].
  pose proof (page_nonempty l page per Hper Hp) as Hiff.
  destruct (js_le page (Pager.totalPages l per)).
  - left. split; [reflexivity|]. split; [exact Hp|]. now apply Hiff.
  - right. split; [reflexivity|]. right.
    destruct (Pager.paginatedEntries l page per); [reflexivity|].
    exfalso. assert (H : false = true) by (apply Hiff; discriminate).
    discriminate.
Qed.

Lemma page_change_guard_witness :
  0 < 10
  /\ Pager.handlePageChange
       (Pager.totalPages [1; 2; 3; 4; 5; 6; 7; 8; 9; 10; 11; 12] 10) 1 3 = 1.
Proof.
  assert (H : 0 < 10) by lia. split; [exact H|].
  destruct (page_change_guard [1; 2; 3; 4; 5; 6; 7; 8; 9; 10; 11; 12]
              10 1 3 H) as [(_ & _ & Hne)|(Hnext & _)].
  - exfalso. apply Hne. reflexivity.
  - exact Hnext.
Defined.

(** X8. The page bar shows the first page, the last page, the current page
    and its two neighbours, in increasing order, with an ellipsis exactly
    between two buttons that are more than one page apart. *)
Theorem page_bar_shape (cur T : Z) :
  1 <= cur <= T ->
  Pager.getPaginationRange cur T
  = PagerSpec.withGaps (PagerSpec.shownPages cur T).
Proof. apply pagination_gaps. Qed.

Lemma page_bar_shape_witness :
  1 <= 5 <= 9
  /\ Pager.getPaginationRange 5 9
     = [Pager.Page 1; Pager.Dots; Pager.Page 4; Pager.Page 5; Pager.Page 6;
        Pager.Dots; Pager.Page 9].
Proof.
  assert (H : 1 <= 5 <= 9) by lia. split; [exact H|].
  exact (page_bar_shape 5 9 H).
Defined.

(** ** Totals and charts *)

Section ChartFacts.

Import Charts.

Lemma existsb_eqb_In (x : string) (l : list string) :
  existsb (String.eqb x) l = true <-> In x l.
Proof.
  rewrite existsb_exists. split.
  - intros (y & Hy & E). apply String.eqb_eq in E. now subst.
  - intros H. exists x. split; [exact H | apply String.eqb_refl].
Qed.

Lemma setAdd_spec (set : list string) (x : string) :
  NoDup set ->
  NoDup (JsSet.add set x)
  /\ forall y, In y (JsSet.add set x) <-> In y set \/ y = x.
Proof.
  intros Hnd. unfold JsSet.add, JsSet.has.
  destruct (existsb (String.eqb x) set) eqn:E.
  - apply existsb_eqb_In in E. split; [exact Hnd|].
    intros y. split; [tauto|]. intros [H| ->]; assumption.
  - assert (Hx : ~ In x set).
    { intros H. apply existsb_eqb_In in H. congruence. }
    split.
    + apply NoDup_app; [exact Hnd | repeat constructor; intros [] |].
      intros a Ha Hb. destruct Hb as [<-|[]]. contradiction.
    + intros y. rewrite in_app_iff. simpl. intuition.
Qed.

Lemma fold_setAdd (l set : list string) :
  NoDup set ->
  NoDup (fold_left JsSet.add l set)
  /\ forall y, In y (fold_left JsSet.add l set) <-> In y set \/ In y l.
Proof.
  revert set. induction l as [|x l IH]; intros set Hnd.
  - simpl. split; [exact Hnd | tauto].
  - destruct (setAdd_spec set x Hnd) as [Hnd' Hin].
    destruct (IH _ Hnd') as [H1 H2]. simpl. split; [exact H1|].
    intros y. rewrite H2, Hin. simpl. intuition.
Qed.

Lemma properties_spec (fe : list Entry.t) :
  NoDup (properties fe)
  /\ forall p, In p (properties fe)
               <-> exists e, In e fe /\ Entry.property e = p.
Proof.
  destruct (fold_setAdd (map Entry.property fe) [] (NoDup_nil _)) as [H1 H2].
  split; [exact H1|]. intros p. unfold properties, JsSet.ofList.
  rewrite H2, in_map_iff.
  simpl. split.
  - intros [[]|(e & E & He)]. now exists e.
  - intros (e & He & E). right. now exists e.
Qed.

(** Adding an entry whose property is not among [ps] changes no bar
    of [ps]. *)
Lemma bars_skip (type : string) (e : Entry.t) (fe : list Entry.t)
  (ps : list string) :
  ~ In (Entry.property e) ps ->
  flat_map (fun prop => barEntries prop type (e :: fe)) ps
  = flat_map (fun prop => barEntries prop type fe) ps.
Proof.
  induction ps as [|p ps IH]; intros Hn; [reflexivity|].
  cbn [flat_map]. rewrite IH by (intros H; apply Hn; now right).
  f_equal. unfold barEntries. cbn [filter].
  destruct (String.eqb_spec (Entry.property e) p) as [E|_]; [|reflexivity].
  exfalso. apply Hn. now left.
Qed.

Lemma bars_cons (type : string) (e : Entry.t) (fe : list Entry.t)
  (ps : list string) :
  NoDup ps -> In (Entry.property e) ps ->
  Permutation
    (flat_map (fun prop => barEntries prop type (e :: fe)) ps)
    ((if String.eqb (Entry.type e) type then [e] else [])
     ++ flat_map (fun prop => barEntries prop type fe) ps).
Proof.
  induction ps as [|p ps IH]; intros Hnd Hin; [contradiction|].
  inversion Hnd as [|? ? Hp Hnd']; subst. cbn [flat_map].
  destruct (String.eqb_spec (Entry.property e) p) as [E|E].
  - subst p. rewrite bars_skip by exact Hp.
    unfold barEntries at 1. cbn [filter]. rewrite String.eqb_refl. cbn [andb].
    destruct (String.eqb (Entry.type e) type); reflexivity.
  - destruct Hin as [Hin|Hin]; [congruence|].
    rewrite (IH Hnd' Hin).
    unfold barEntries at 1. cbn [filter].
    destruct (String.eqb_spec (Entry.property e) p); [contradiction|].
    cbn [andb]. fold (barEntries p type fe).
    destruct (String.eqb (Entry.type e) type); [|reflexivity].
    cbn [app]. symmetry. apply Permutation_middle.
Qed.

Lemma bars_partition (type : string) (fe : list Entry.t) (ps : list string) :
  NoDup ps -> (forall e, In e fe -> In (Entry.property e) ps) ->
  Permutation
    (flat_map (fun prop => barEntries prop type fe) ps)
    (filter (fun e => String.eqb (Entry.type e) type) fe).
Proof.
  intros Hnd. induction fe as [|e fe IH]; intros Hall.
  - replace (flat_map (fun prop => barEntries prop type []) ps)
      with (@nil Entry.t); [reflexivity|].
    clear. induction ps as [|p ps IH]; [reflexivity | exact IH].
  - rewrite bars_cons by (trivial; apply Hall; now left).
    cbn [filter]. rewrite IH by (intros; apply Hall; now right).
    destruct (String.eqb (Entry.type e) type); reflexivity.
Qed.

(** *** Sums of whole amounts *)

Import WholeAmounts.








Lemma tally_count (type : string) (fe : list Entry.t) :
  t_count (tally type fe)
  = Z.of_nat
      (List.length (filter (fun e => String.eqb (Entry.type e) type) fe)).
Proof.
  unfold tally.
  generalize (filter (fun e => String.eqb (Entry.type e) type) fe) as l.
  intros l.
  assert (H : forall acc,
             t_count
               (fold_left
                  (fun acc entry =>
                     {| t_amount := js_add (t_amount acc) (Entry.amount entry);
                        t_count := t_count acc + 1 |}) l acc)
             = t_count acc + Z.of_nat (List.length l)).
  { induction l as [|e l IH]; intros acc; [simpl; lia|].
    cbn [fold_left List.length]. rewrite IH. simpl t_count. lia. }
  now rewrite H.
Qed.


(** Entries of either type. *)
Lemma count_types (fe : list Entry.t) :
  (List.length (filter (fun e => String.eqb (Entry.type e) "Income") fe)
   + List.length (filter (fun e => String.eqb (Entry.type e) "Expense") fe)
   <= List.length fe)%nat
  /\ ((List.length (filter (fun e => String.eqb (Entry.type e) "Income") fe)
       + List.length (filter (fun e => String.eqb (Entry.type e) "Expense") fe)
       = List.length fe)%nat
      <-> Forall (fun e => Entry.type e = "Income" \/ Entry.type e = "Expense")
            fe).
Proof.
  induction fe as [|e fe [IH1 IH2]]; [simpl; split; [lia|]; split; auto|].
  cbn [filter List.length].
  destruct (String.eqb_spec (Entry.type e) "Income") as [E|E].
  - rewrite E. cbn [String.eqb Ascii.eqb Bool.eqb List.length]. split; [lia|].
    split.
    + intros H. constructor; [now left|]. apply IH2. simpl in *. lia.
    + intros H. inversion H; subst. apply IH2 in H3. simpl in *. lia.
  - destruct (String.eqb_spec (Entry.type e) "Expense") as [E'|E'].
    + cbn [List.length]. split; [lia|]. split.
      * intros H. constructor; [now right|]. apply IH2. lia.
      * intros H. inversion H; subst. apply IH2 in H3. lia.
    + split; [lia|]. split.
      * intros H. lia.
      * intros H. inversion H; subst. tauto.
Qed.

End ChartFacts.

(** X9. The bars of a chart split the entries of its type by property, with
    no entry lost or counted twice: [properties] lists every property of
    the filtered entries once, and the bars over it are together a
    rearrangement of the entries of that type. *)
Theorem chart_bars_partition (type : string) (fe : list Entry.t) :
  NoDup (Charts.properties fe)
  /\ (forall p, In p (Charts.properties fe)
                <-> exists e, In e fe /\ Entry.property e = p)
  /\ Permutation
       (flat_map (fun prop => Charts.barEntries prop type fe)
          (Charts.properties fe))
       (filter (fun e => String.eqb (Entry.type e) type) fe).
Proof.
  destruct (properties_spec fe) as [Hnd Hin].
  split; [exact Hnd|]. split; [exact Hin|].
  apply bars_partition; [exact Hnd|].
  intros e He. apply Hin. now exists e.
Qed.


(** X11. The transaction count of the summary never exceeds the number of
    filtered entries, and equals it exactly when every entry has type
    Income or Expense: an entry of any other type is counted nowhere. *)
Theorem transactions_counted (fe : list Entry.t) :
  Dashboard.totalTransactions (Dashboard.summaryMetrics (totals fe))
  <= Z.of_nat (List.length fe)
  /\ (Dashboard.totalTransactions (Dashboard.summaryMetrics (totals fe))
      = Z.of_nat (List.length fe)
      <-> Forall (fun e => Entry.type e = "Income" \/ Entry.type e = "Expense")
            fe).
Proof.
  unfold Dashboard.summaryMetrics, totals.
  cbn [Dashboard.totalTransactions income expense].
  rewrite !tally_count. destruct (count_types fe) as [H1 H2].
  split; [lia|]. rewrite <- H2. lia.
Qed.


(** ** Reminders as the days pass; the latest entries *)

Section Passing.

Import ReminderSpec DateQuality.

Context (h : Host).

Lemma js_le_below (a b : Z) (x : jsnum) :
  a <= b -> js_le b x = true -> js_le a x = true.
Proof.
  intros Hab. destruct x as [| | |q]; trivial. unfold js_le, js_compare, ofZ.
  intros Hb.
  assert (Hbq : (inject_Z b <= q)%Q).
  { apply Qle_alt. intros E. rewrite E in Hb. discriminate. }
  assert (Hle : (inject_Z a <= q)%Q).
  { apply Qle_trans with (inject_Z b); [now rewrite <- Zle_Qle | exact Hbq]. }
  apply Qle_alt in Hle.
  destruct (inject_Z a ?= q)%Q eqn:C; trivial. now elim Hle.
Qed.

Lemma daysUntilRenew_antitone (r t0 t1 : Z) :
  t0 <= t1 -> daysUntilRenew r t1 <= daysUntilRenew r t0.
Proof.
  intros Ht. unfold daysUntilRenew.
  assert ((t0 - r) / 86400000 <= (t1 - r) / 86400000)
    by (apply Z.div_le_mono; lia).
  lia.
Qed.

Lemma reminder_listed (today : string) (t0 : Z) (es : list Entry.t)
  (e : Entry.t) (s : Status) :
  date_parse h today = Some t0 ->
  (In (e, s) (Dashboard.reminderEntries h today es)
   <-> In (e, s) (flat_map (selected h t0) es)).
Proof.
  intros Ht. unfold Dashboard.reminderEntries.
  rewrite (reminder_pipeline h today t0 es Ht). apply js_sort_in.
Qed.

Lemma reminder_stays (today later : string) (t0 t1 : Z) (es : list Entry.t)
  (e : Entry.t) (s : Status) :
  date_parse h today = Some t0 -> date_parse h later = Some t1 -> t0 <= t1 ->
  In (e, s) (Dashboard.reminderEntries h today es) ->
  exists s', In (e, s') (Dashboard.reminderEntries h later es)
             /\ urgency s <= urgency s'.
Proof.
  intros H0 H1 Hle Hin.
  apply (proj1 (reminder_listed today t0 es e s H0)) in Hin.
  apply (proj1 (selected_in h t0 es e s)) in Hin.
  destruct Hin as (He & Hg & r & Hr & Hwin & ->).
  pose proof (daysUntilRenew_antitone r t0 t1 Hle) as Hd.
  eexists. split.
  - apply (proj2 (reminder_listed later t1 es e _ H1)).
    apply (proj2 (selected_in h t1 es e _)).
    split; [exact He|]. split; [exact Hg|]. exists r.
    split; [exact Hr|]. split; [|reflexivity].
    destruct Hwin as [Hw|Hw]; [left; lia|].
    right. exact (js_le_below _ _ _ Hd Hw).
  - destruct (Z.eqb_spec (daysUntilRenew r t0) 0),
      (Z.ltb_spec (daysUntilRenew r t0) 0),
      (Z.eqb_spec (daysUntilRenew r t1) 0),
      (Z.ltb_spec (daysUntilRenew r t1) 0); simpl; lia.
Qed.

(** *** The latest entries *)

Lemma sorted_app_inv {B : Type} (R : B -> B -> Prop) (a b : list B) :
  StronglySorted R (a ++ b) ->
  forall x y, In x a -> In y b -> R x y.
Proof.
  induction a as [|z a IH]; intros Hs x y Hx Hy; [contradiction|].
  inversion Hs as [|? ? Hs' Hz]; subst.
  destruct Hx as [<-|Hx].
  - rewrite Forall_forall in Hz. apply Hz. apply in_or_app. now right.
  - now apply IH.
Qed.

Lemma latest_sorted (l : list Entry.t) :
  Forall (fun e => parses h e = true) l ->
  StronglySorted (OrderSpec.byDate h Desc)
    (js_sort (Dashboard.compareEntries h {| key := KDate; direction := Desc |})
       l).
Proof.
  apply js_sort_sorted.
  - intros x y z (tx & ty & Hx & Hy & Hxy) (ty' & tz & Hy' & Hz & Hyz).
    rewrite Hy in Hy'. injection Hy' as <-.
    exists tx, tz. repeat split; trivial. lia.
  - intros x y Hx Hy. unfold parses in Hx, Hy.
    unfold Dashboard.compareEntries, getTime. cbn [key direction].
    destruct (date_parse h (Entry.date x)) as [tx|] eqn:Ex; [|discriminate].
    destruct (date_parse h (Entry.date y)) as [ty|] eqn:Ey; [|discriminate].
    rewrite js_sub_int, js_gt_int. intros Hgt. apply Z.ltb_lt in Hgt.
    exists ty, tx. repeat split; trivial. lia.
  - intros x y Hx Hy. unfold parses in Hx, Hy.
    unfold Dashboard.compareEntries, getTime. cbn [key direction].
    destruct (date_parse h (Entry.date x)) as [tx|] eqn:Ex; [|discriminate].
    destruct (date_parse h (Entry.date y)) as [ty|] eqn:Ey; [|discriminate].
    rewrite js_sub_int, js_gt_int. intros Hgt. apply Z.ltb_ge in Hgt.
    exists tx, ty. repeat split; trivial. lia.
Qed.

End Passing.

(** X12. A reminder does not go away by itself: an entry listed on one day
    is listed on every later day, and its status only moves from
    Approaching to Due to Past Due. *)
Theorem reminder_persists (h : Host) (today later : string) (t0 t1 : Z)
  (es : list Entry.t) (e : Entry.t) (s : Status) :
  date_parse h today = Some t0 -> date_parse h later = Some t1 -> t0 <= t1 ->
  In (e, s) (Dashboard.reminderEntries h today es) ->
  exists s', In (e, s') (Dashboard.reminderEntries h later es)
             /\ urgency s <= urgency s'.
Proof. apply reminder_stays. Qed.

Lemma reminder_persists_witness :
  exists s',
    In (ReminderScenario.inThree, s')
      (Dashboard.reminderEntries RefHost.host "2025-05-25"
         ReminderScenario.entries)
    /\ urgency Approaching <= urgency s'.
Proof.
  apply (reminder_persists RefHost.host "2025-05-21" "2025-05-25"
           1747785600000 1748131200000 ReminderScenario.entries
           ReminderScenario.inThree Approaching).
  - reflexivity.
  - reflexivity.
  - lia.
  - vm_compute. auto.
Defined.

(** X13. With the initial sort, by date and descending, the dashboard table
    shows the five most recent of the filtered entries, or all of them
    when there are fewer: no entry left out is dated after one shown. *)
Theorem last_five_are_latest (h : Host) (filter : string)
  (cr : Dashboard.CustomRange) (now : Z) (es : list Entry.t) :
  let fe := fst (Dashboard.filteredEntries h filter cr now es) in
  let shown :=
    Dashboard.lastFiveEntries h {| key := KDate; direction := Desc |} fe in
  List.length shown = Nat.min 5 (List.length fe)
  /\ exists hidden,
       Permutation (shown ++ hidden) fe
       /\ forall x y, In x shown -> In y hidden ->
            OrderSpec.byDate h Desc x y.
Proof.
  intros fe shown. subst shown. unfold Dashboard.lastFiveEntries.
  set (sorted := js_sort _ fe).
  assert (Hperm : Permutation sorted fe) by apply js_sort_perm.
  split.
  - rewrite length_firstn. now rewrite (Permutation_length Hperm).
  - exists (skipn 5 sorted). rewrite firstn_skipn. split; [exact Hperm|].
    apply (sorted_app_inv _ (firstn 5 sorted) (skipn 5 sorted)).
    rewrite firstn_skipn. apply latest_sorted.
    apply Forall_forall. intros e He.
    now apply (dashboard_kept_parses h filter cr now es).
Qed.

(** ** Deleting an entry *)

Section Deleting.

Import ApiDelete ApiDeleteSpec.

Lemma includes_of_prefix (s sub : string) :
  String.prefix sub s = true -> includes s sub = true.
Proof. intros H. destruct s; cbn [includes]; now rewrite H. Qed.

Lemma missing_message (id : string) :
  includes ("No document to delete: " ++ id) "No document to delete" = true.
Proof. apply includes_of_prefix. reflexivity. Qed.

(** One iteration of the loop. *)
Lemma loop_step (fuel : nat) (store : Z -> Answer) (id : string) (a : Z) :
  1 <= a <= 3 ->
  loop (S fuel) store id a
  = if transient (store a) && (a <? 3)
    then
      let rest := loop fuel store id (a + 1) in
      {| attempts := a :: attempts rest;
         waits := 1000 * a :: waits rest;
         result := result rest |}
    else {| attempts := [a]; waits := []; result := verdict id (store a) |}.
Proof.
  intros Ha. cbn [loop]. unfold maxRetries.
  destruct (Z.leb_spec a 3); [|lia].
  destruct (store a) as [| |m]; cbn [caught transient verdict andb].
  - now rewrite missing_message.
  - reflexivity.
  - destruct (includes m "No document to delete"); [reflexivity|].
    cbn [negb andb].
    destruct (Z.eqb_spec a 3), (Z.ltb_spec a 3); try lia; reflexivity.
Qed.

Lemma deleteEntry_run (fuel : nat) (store : Z -> Answer) (id : string) :
  (3 <= fuel)%nat ->
  exists k,
    1 <= k <= 3
    /\ attempts (deleteEntry fuel store id) = firstn (Z.to_nat k) [1; 2; 3]
    /\ waits (deleteEntry fuel store id)
       = firstn (Z.to_nat (k - 1)) [1000; 2000]
    /\ (forall j, 1 <= j < k -> transient (store j) = true)
    /\ (k < 3 -> transient (store k) = false)
    /\ result (deleteEntry fuel store id) = verdict id (store k).
Proof.
  intros Hf. destruct fuel as [|[|[|fuel]]]; try lia. clear Hf.
  unfold deleteEntry. rewrite loop_step by lia.
  destruct (transient (store 1)) eqn:T1; cbn [andb Z.ltb Z.compare].
  2:{ exists 1. split; [lia|]. repeat split; trivial; intros; lia. }
  change (1 + 1) with 2. rewrite loop_step by lia.
  destruct (transient (store 2)) eqn:T2; cbn [andb Z.ltb Z.compare].
  2:{ exists 2. split; [lia|]. repeat split; trivial.
      intros j Hj. now replace j with 1 by lia. }
  change (2 + 1) with 3. rewrite loop_step by lia.
  rewrite andb_false_r.
  exists 3. split; [lia|]. repeat split; trivial; [|lia].
  intros j Hj. assert (j = 1 \/ j = 2) as [-> | ->] by lia; assumption.
Qed.

End Deleting.

(** X14. [deleteEntry] makes at most three attempts, numbered from 1, and
    always ends: it tries again only after an error that does not speak
    of a missing document, waiting one second after the first attempt and
    two after the second; the attempt that ends it resolves when the
    document was removed and rejects otherwise, at once when the document
    is missing. *)
Theorem deleteEntry_retries (fuel : nat) (store : Z -> ApiDelete.Answer)
  (id : string) :
  (3 <= fuel)%nat ->
  exists k,
    1 <= k <= 3
    /\ ApiDelete.attempts (ApiDelete.deleteEntry fuel store id)
       = firstn (Z.to_nat k) [1; 2; 3]
    /\ ApiDelete.waits (ApiDelete.deleteEntry fuel store id)
       = firstn (Z.to_nat (k - 1)) [1000; 2000]
    /\ (forall j, 1 <= j < k -> ApiDeleteSpec.transient (store j) = true)
    /\ (k < 3 -> ApiDeleteSpec.transient (store k) = false)
    /\ ApiDelete.result (ApiDelete.deleteEntry fuel store id)
       = ApiDeleteSpec.verdict id (store k).
Proof. apply deleteEntry_run. Qed.

Lemma deleteEntry_retries_witness :
  (3 <= 3)%nat
  /\ exists k,
       1 <= k <= 3
       /\ ApiDelete.attempts
            (ApiDelete.deleteEntry 3
               (fun a => if a =? 1 then ApiDelete.Fails "unavailable"
                         else ApiDelete.Removed) "e1")
          = firstn (Z.to_nat k) [1; 2; 3].
Proof.
  assert (H : (3 <= 3)%nat) by lia. split; [exact H|].
  destruct (deleteEntry_retries 3
              (fun a => if a =? 1 then ApiDelete.Fails "unavailable"
                        else ApiDelete.Removed) "e1" H)
    as (k & Hk & Ha & _).
  exists k. split; [exact Hk | exact Ha].
Defined.

(** ** The list fields of the settings form *)

Section ListFields.

Import SettingsForm SettingsSpec.

(** *** Trimming *)

Lemma trimEnd_cons (c : ascii) (s : string) :
  trimEnd (String c s)
  = match trimEnd s with
    | EmptyString => if is_space c then EmptyString else String c EmptyString
    | t => String c t
    end.
Proof. reflexivity. Qed.

Lemma trimEnd_idem (s : string) : trimEnd (trimEnd s) = trimEnd s.
Proof.
  induction s as [|c s IH]; [reflexivity|]. rewrite trimEnd_cons.
  destruct (trimEnd s) as [|d t] eqn:E.
  - destruct (is_space c) eqn:Hc; [reflexivity|].
    rewrite trimEnd_cons. cbn [trimEnd]. now rewrite Hc.
  - rewrite trimEnd_cons, IH. reflexivity.
Qed.

Lemma trimStart_cases (s : string) :
  trimStart s = "" \/ starts_clean (trimStart s) = true.
Proof.
  induction s as [|c s IH]; [now left|]. cbn [trimStart].
  destruct (is_space c) eqn:Hc; [exact IH|].
  right. simpl. now rewrite Hc.
Qed.

Lemma trimEnd_starts (s : string) :
  starts_clean s = true -> starts_clean (trimEnd s) = true.
Proof.
  destruct s as [|c s]; [discriminate|]. rewrite trimEnd_cons.
  cbn [starts_clean]. intros Hc. destruct (trimEnd s); [|exact Hc].
  apply negb_true_iff in Hc. rewrite Hc. simpl. now rewrite Hc.
Qed.

(** What trimming leaves, when it leaves something, is clean. *)
Lemma trim_result (s : string) :
  trim s <> "" -> starts_clean (trim s) = true /\ ends_clean (trim s).
Proof.
  unfold trim. intros Hne. destruct (trimStart_cases s) as [E|E].
  - rewrite E in Hne. now elim Hne.
  - split; [now apply trimEnd_starts|]. split; [exact Hne|].
    apply trimEnd_idem.
Qed.

Lemma trim_idem (s : string) : trim (trim s) = trim s.
Proof.
  destruct (string_dec (trim s) "") as [E|E]; [now rewrite E|].
  destruct (trim_result s E). now apply trim_clean.
Qed.

Lemma trim_after_space (s : string) : trim (String " " s) = trim s.
Proof. reflexivity. Qed.

(** *** Commas *)

Lemma commaFree_trimStart (s : string) :
  commaFree s = true -> commaFree (trimStart s) = true.
Proof.
  induction s as [|c s IH]; [trivial|]. cbn [commaFree trimStart].
  intros H. apply andb_true_iff in H as [H1 H2].
  destruct (is_space c); [now apply IH|].
  cbn [commaFree]. now rewrite H1, H2.
Qed.

Lemma commaFree_trimEnd (s : string) :
  commaFree s = true -> commaFree (trimEnd s) = true.
Proof.
  induction s as [|c s IH]; [trivial|]. rewrite trimEnd_cons.
  cbn [commaFree].
  intros H. apply andb_true_iff in H as [H1 H2]. specialize (IH H2).
  destruct (trimEnd s).
  - destruct (is_space c); [reflexivity|]. cbn [commaFree]. now rewrite H1.
  - cbn [commaFree] in *. now rewrite H1, IH.
Qed.

Lemma commaFree_trim (s : string) :
  commaFree s = true -> commaFree (trim s) = true.
Proof. intros H. now apply commaFree_trimEnd, commaFree_trimStart. Qed.


Lemma splitComma_commaFree (s : string) :
  Forall (fun x => commaFree x = true) (splitComma s).
Proof.
  induction s as [|c s IH]; [repeat constructor|]. cbn [splitComma].
  destruct (Ascii.eqb c ",") eqn:Hc; [now constructor|].
  destruct (splitComma s) as [|w ws]; [repeat constructor; simpl; now rewrite Hc|].
  inversion IH; subst. constructor; [|assumption].
  cbn [commaFree]. now rewrite Hc.
Qed.

Lemma splitComma_app (a b : string) :
  commaFree a = true ->
  splitComma (a ++ String "," b) = a :: splitComma b.
Proof.
  induction a as [|c a IH]; [reflexivity|]. cbn [commaFree].
  intros H. apply andb_true_iff in H as [H1 H2].
  apply negb_true_iff in H1.
  cbn [append splitComma]. rewrite H1, IH by exact H2. reflexivity.
Qed.

Lemma splitComma_single (a : string) :
  commaFree a = true -> splitComma a = [a].
Proof.
  induction a as [|c a IH]; [reflexivity|]. cbn [commaFree].
  intros H. apply andb_true_iff in H as [H1 H2].
  apply negb_true_iff in H1.
  cbn [splitComma]. rewrite H1, IH by exact H2. reflexivity.
Qed.

Lemma splitComma_show (x : string) (l : list string) :
  Forall (fun y => commaFree y = true) (x :: l) ->
  splitComma (showList (x :: l)) = x :: map (String " ") l.
Proof.
  revert x. induction l as [|y l IH]; intros x Hall.
  - inversion Hall; subst. now apply splitComma_single.
  - inversion Hall as [|? ? Hx Hl]; subst.
    unfold showList. rewrite concat_cons2.
    change (x ++ ", " ++ String.concat ", " (y :: l))
      with (x ++ String "," (String " " (showList (y :: l)))).
    rewrite splitComma_app by exact Hx. f_equal.
    cbn [splitComma Ascii.eqb Bool.eqb]. rewrite (IH y Hl). reflexivity.
Qed.

(** *** The order of code units *)

Lemma notAfter_trans (a b c : string) :
  notAfter a b -> notAfter b c -> notAfter a c.
Proof.
  unfold notAfter. revert b c.
  induction a as [|x a IH]; intros [|y b] [|z c]; cbn [String.compare];
    try congruence.
  unfold Ascii.compare.
  destruct (N.compare_spec (N_of_ascii x) (N_of_ascii y)) as [E1|E1|E1];
    destruct (N.compare_spec (N_of_ascii y) (N_of_ascii z)) as [E2|E2|E2];
    destruct (N.compare_spec (N_of_ascii x) (N_of_ascii z)) as [E3|E3|E3];
    try congruence; try lia.
  apply IH.
Qed.

Lemma defaultCompare_gt (a b : string) :
  js_gt (defaultCompare a b) 0 = true -> notAfter b a.
Proof.
  unfold defaultCompare, notAfter. rewrite (String.compare_antisym b a).
  destruct (String.compare a b); rewrite js_gt_int; cbv; congruence.
Qed.

Lemma defaultCompare_le (a b : string) :
  js_gt (defaultCompare a b) 0 = false <-> notAfter a b.
Proof.
  unfold defaultCompare, notAfter.
  destruct (String.compare a b); rewrite js_gt_int; cbv; split; congruence.
Qed.

Lemma default_sorted (l : list string) :
  StronglySorted notAfter (js_sort defaultCompare l).
Proof.
  apply js_sort_sorted with (P := fun _ => True).
  - apply notAfter_trans.
  - intros x y _ _. apply defaultCompare_gt.
  - intros x y _ _. apply defaultCompare_le.
  - apply Forall_forall. trivial.
Qed.

Lemma parseList_sorted (field : string) :
  StronglySorted notAfter (parseList field).
Proof.
  unfold parseList.
  apply js_sort_sorted with (P := fun _ => True).
  - apply notAfter_trans.
  - intros x y _ _. apply defaultCompare_gt.
  - intros x y _ _. apply defaultCompare_le.
  - apply Forall_forall. trivial.
Qed.

(** Sorting a sorted list changes nothing. *)
Lemma js_sort_fixed {B : Type} (cmp : B -> B -> jsnum) (R : B -> B -> Prop)
  (l : list B) :
  (forall x y, R x y -> js_gt (cmp x y) 0 = false) ->
  StronglySorted R l -> js_sort cmp l = l.
Proof.
  intros Hle Hs. induction Hs as [|x l Hs IH Hx]; [reflexivity|].
  cbn [js_sort fold_right]. fold (js_sort cmp l). rewrite IH.
  destruct l as [|y l]; [reflexivity|]. cbn [sort_insert].
  inversion Hx; subst. now rewrite Hle.
Qed.

(** *** What a parsed list holds *)

Lemma parseList_items (field x : string) :
  In x (parseList field) ->
  x <> "" /\ trim x = x /\ commaFree x = true.
Proof.
  unfold parseList. intros H. apply (proj1 (js_sort_in _ _ _)) in H.
  apply filter_In in H as [H Hne]. apply in_map_iff in H as (y & <- & Hy).
  split; [|split].
  - intros E. rewrite E in Hne. discriminate.
  - apply trim_idem.
  - apply commaFree_trim.
    pose proof (splitComma_commaFree field) as Hall.
    rewrite Forall_forall in Hall. now apply Hall.
Qed.

Lemma map_trim_spaced (l : list string) :
  Forall (fun x => trim x = x) l ->
  map trim (map (String " ") l) = l.
Proof.
  induction 1 as [|x l Hx Hl IH]; [reflexivity|].
  cbn [map]. rewrite trim_after_space, Hx, IH. reflexivity.
Qed.

Lemma filter_nonEmpty (l : list string) :
  Forall (fun x => x <> "") l -> filter nonEmpty l = l.
Proof.
  induction 1 as [|x l Hx Hl IH]; [reflexivity|].
  cbn [filter]. unfold nonEmpty at 1.
  destruct (String.eqb_spec x ""); [contradiction|].
  cbn [negb]. now rewrite IH.
Qed.

Lemma parseList_show (l : list string) :
  Forall (fun x => x <> "" /\ trim x = x /\ commaFree x = true) l ->
  StronglySorted notAfter l ->
  parseList (showList l) = l.
Proof.
  intros Hall Hs. destruct l as [|x l]; [reflexivity|].
  unfold parseList. rewrite splitComma_show.
  2:{ eapply Forall_impl; [|exact Hall]. cbv beta. tauto. }
  cbn [map]. inversion Hall as [|? ? (Hx1 & Hx2 & Hx3) Hl]; subst.
  rewrite Hx2, map_trim_spaced.
  2:{ eapply Forall_impl; [|exact Hl]. cbv beta. tauto. }
  rewrite (filter_nonEmpty (x :: l)).
  2:{ eapply Forall_impl; [|exact Hall]. cbv beta. tauto. }
  apply (js_sort_fixed _ notAfter); [|exact Hs].
  intros a b. apply defaultCompare_le.
Qed.

(** *** Blank fields *)

Lemma trimStart_blank (s : string) :
  trimStart s = "" <-> forallb is_space (list_ascii_of_string s) = true.
Proof.
  induction s as [|c s IH]; [simpl; tauto|].
  cbn [trimStart list_ascii_of_string forallb].
  destruct (is_space c); cbn [andb]; [exact IH|]. split; discriminate.
Qed.






End ListFields.

(** X15. A list field is stored as its items between the commas, trimmed,
    without the empty ones and sorted by code units; showing the stored
    list in the form and submitting it again stores the same list. *)
Theorem settings_list_round_trip (field : string) :
  let items := SettingsForm.parseList field in
  Forall
    (fun x => x <> "" /\ trim x = x /\ SettingsSpec.commaFree x = true) items
  /\ StronglySorted SettingsSpec.notAfter items
  /\ SettingsForm.parseList (SettingsForm.showList items) = items.
Proof.
  intros items. subst items.
  assert (H1 : Forall
                 (fun x => x <> "" /\ trim x = x
                           /\ SettingsSpec.commaFree x = true)
                 (SettingsForm.parseList field)).
  { apply Forall_forall. intros x. apply parseList_items. }
  pose proof (parseList_sorted field) as H2.
  split; [exact H1|]. split; [exact H2|]. now apply parseList_show.
Qed.


(** ** The order of the [Entries] view *)

Section ViewOrder.

Import EntriesView.

Context (h : Host).

Lemma js_le_Q (p q : Q) : js_le (Fin p) (Fin q) = true <-> (p <= q)%Q.
Proof.
  unfold js_le, js_compare. rewrite Qle_alt.
  destruct (p ?= q)%Q; split; congruence.
Qed.

Lemma js_gt_Q (p q : Q) : js_gt (Fin p) (Fin q) = true <-> (q < p)%Q.
Proof.
  unfold js_gt, js_compare. rewrite Qgt_alt.
  destruct (p ?= q)%Q; split; congruence.
Qed.

Lemma js_le_trans (a b c : jsnum) :
  js_le a b = true -> js_le b c = true -> js_le a c = true.
Proof.
  destruct a as [| | |p], b as [| | |q], c as [| | |r];
    try discriminate; trivial.
  rewrite !js_le_Q. apply Qle_trans.
Qed.

Lemma js_sub_gt (a b : jsnum) :
  js_isNaN a = false -> js_isNaN b = false ->
  js_gt (js_sub a b) 0 = true -> js_le b a = true.
Proof.
  destruct a as [| | |p], b as [| | |q]; try discriminate; trivial.
  intros _ _. unfold js_sub, ofZ. rewrite js_gt_Q, js_le_Q.
  intros H. apply Qlt_le_weak. apply Qlt_minus_iff. exact H.
Qed.

Lemma js_sub_not_gt (a b : jsnum) :
  js_isNaN a = false -> js_isNaN b = false ->
  js_gt (js_sub a b) 0 = false -> js_le a b = true.
Proof.
  destruct a as [| | |p], b as [| | |q]; try discriminate; trivial.
  intros _ _. unfold js_sub, ofZ. rewrite js_le_Q.
  intros H. apply Qnot_lt_le. intros Hlt.
  assert (Hgt : js_gt (Fin (p - q)) (Fin (inject_Z 0)) = true).
  { apply js_gt_Q. apply (proj1 (Qlt_minus_iff q p)). exact Hlt. }
  congruence.
Qed.

Lemma kept_parses (term : string) (fc : FilterConfig) (es : list Entry.t) :
  Forall (fun e => exists t, date_parse h (Entry.date e) = Some t)
    (filterEntries h term fc es).
Proof.
  apply Forall_forall. intros e He. unfold filterEntries in He.
  apply filter_In in He as [_ Hk].
  destruct (date_parse h (Entry.date e)) as [t|] eqn:E; [now exists t|].
  rewrite (keeps_unparsable h term fc e E) in Hk. discriminate.
Qed.

Lemma kept_amount (term : string) (fc : FilterConfig) (es : list Entry.t) :
  Forall (fun e => js_isNaN (Entry.amount e) = false)
    (filterEntries h term fc es).
Proof.
  apply Forall_forall. intros e He. unfold filterEntries in He.
  apply filter_In in He as [_ Hk].
  apply (proj1 (keeps_all h term fc e)) in Hk.
  destruct Hk as (_ & _ & _ & _ & _ & Ha & _).
  unfold matchesAmount in Ha. apply andb_true_iff in Ha as [Ha _].
  now destruct (Entry.amount e).
Qed.

Lemma byDate_trans (d : Direction) (x y z : Entry.t) :
  OrderSpec.byDate h d x y -> OrderSpec.byDate h d y z ->
  OrderSpec.byDate h d x z.
Proof.
  intros (tx & ty & Hx & Hy & Hxy) (ty' & tz & Hy' & Hz & Hyz).
  rewrite Hy in Hy'. injection Hy' as <-.
  exists tx, tz. repeat split; trivial. destruct d; lia.
Qed.

Lemma sorted_by_date (d : Direction) (l : list Entry.t) :
  Forall (fun e => exists t, date_parse h (Entry.date e) = Some t) l ->
  StronglySorted (OrderSpec.byDate h d)
    (sortEntries h {| key := KDate; direction := d |} l).
Proof.
  unfold sortEntries. apply js_sort_sorted.
  - apply byDate_trans.
  - intros x y [tx Hx] [ty Hy].
    rewrite (entries_compare_instant h _ x y tx ty) by (auto; now left).
    cbn [direction]. intros Hgt. exists ty, tx. repeat split; trivial.
    destruct d; apply Z.ltb_lt in Hgt; lia.
  - intros x y [tx Hx] [ty Hy].
    rewrite (entries_compare_instant h _ x y tx ty) by (auto; now left).
    cbn [direction]. intros Hgt. exists tx, ty. repeat split; trivial.
    destruct d; apply Z.ltb_ge in Hgt; lia.
Qed.

Lemma sorted_by_amount (d : Direction) (l : list Entry.t) :
  Forall (fun e => js_isNaN (Entry.amount e) = false) l ->
  StronglySorted (OrderSpec.byAmount d)
    (sortEntries h {| key := KAmount; direction := d |} l).
Proof.
  unfold sortEntries. apply js_sort_sorted.
  - intros x y z. unfold OrderSpec.byAmount. destruct d.
    + apply js_le_trans.
    + intros H1 H2. exact (js_le_trans _ _ _ H2 H1).
  - intros x y Hx Hy. unfold compareEntries, OrderSpec.byAmount.
    cbn [key direction]. destruct d; now apply js_sub_gt.
  - intros x y Hx Hy. unfold compareEntries, OrderSpec.byAmount.
    cbn [key direction]. destruct d; now apply js_sub_not_gt.
Qed.

End ViewOrder.

(** X17. Sorted by date or by amount, the list of the [Entries] view is in
    order whatever the entries are: the filter has left no entry whose
    date does not parse and none whose amount is not a number, so that
    the comparison is a consistent one. *)
Theorem entries_view_in_order (h : Host) (term : string)
  (fc : EntriesView.FilterConfig) (d : Direction) (es : list Entry.t) :
  StronglySorted (OrderSpec.byDate h d)
    (EntriesView.filteredEntries h term fc
       {| key := KDate; direction := d |} es)
  /\ StronglySorted (OrderSpec.byAmount d)
       (EntriesView.filteredEntries h term fc
          {| key := KAmount; direction := d |} es).
Proof.
  unfold EntriesView.filteredEntries. split.
  - apply sorted_by_date. apply kept_parses.
  - apply sorted_by_amount. apply kept_amount.
Qed.

(** ** Reading back what was written *)

Section ReadBack.

Import Api ApiWrite.

Context (h : Host).

Lemma orElse_again (v : option string) (d : string) :
  orElse (Some (orElse v d)) d = orElse v d.
Proof.
  unfold orElse. destruct v as [s|].
  - destruct (nonEmpty s) eqn:E; [now rewrite E|].
    now destruct (nonEmpty d).
  - now destruct (nonEmpty d).
Qed.

Lemma readAmount_again (v : Stored) :
  readAmount h (SNum (readAmount h v)) = readAmount h v.
Proof.
  unfold readAmount. cbn [toNumber].
  destruct (js_truthy (toNumber h v)) eqn:E; [now rewrite E | reflexivity].
Qed.

Lemma readReminder_again (v : Stored) :
  readReminder h (SNum (readReminder h v)) = readReminder h v.
Proof.
  unfold readReminder. cbn [toNumber].
  destruct (allowedReminder (toNumber h v)) eqn:E; [now rewrite E | reflexivity].
Qed.

Lemma readAmount_number (v : Stored) : js_isNaN (readAmount h v) = false.
Proof.
  unfold readAmount. destruct (toNumber h v) as [| | |q]; try reflexivity.
  now destruct (js_truthy (Fin q)).
Qed.

Lemma orElse_nonempty (v : option string) (d : string) :
  d <> "" -> orElse v d <> "".
Proof.
  intros Hd. unfold orElse. destruct v as [s|]; [|exact Hd].
  unfold nonEmpty. destruct (String.eqb_spec s ""); [exact Hd | assumption].
Qed.

End ReadBack.

(** X18. An entry as it is read from the store has an amount that is a
    number and a type that is not empty, and writing it back and reading
    it again gives the same entry. *)
Theorem read_is_stable (h : Host) (d : Api.Doc) :
  let e := Api.toEntry h d in
  js_isNaN (Entry.amount e) = false
  /\ Entry.type e <> ""
  /\ Api.toEntry h (ApiWrite.stored (Entry.id e) e) = e.
Proof.
  intros e. subst e. split; [apply readAmount_number|].
  split; [now apply orElse_nonempty|].
  unfold Api.toEntry, ApiWrite.stored.
  cbn [Api.doc_id Api.d_name Api.d_contact Api.d_type Api.d_category
       Api.d_amount Api.d_date Api.d_renewDate Api.d_renewDateReminder
       Api.d_property Entry.id Entry.name Entry.contact Entry.type
       Entry.category Entry.amount Entry.date Entry.renewDate
       Entry.renewDateReminder Entry.property Api.readDate].
  rewrite !orElse_again, readAmount_again, readReminder_again.
  reflexivity.
Qed.

(** ** Importing a CSV file *)

Section Importing.

Import CsvImport CsvImportSpec ImportedList.

Context (h : Host) (w : World).

(** *** The entry of a row *)

Lemma rowEntry_type (i : nat) (row : Row) :
  Entry.type (rowEntry h w i row) = "Income"
  \/ Entry.type (rowEntry h w i row) = "Expense".
Proof.
  cbn [rowEntry Entry.type]. destruct (r_type row) as [t|]; [|now left].
  destruct (String.eqb_spec t "Income") as [->|_]; [now left|].
  destruct (String.eqb_spec t "Expense") as [->|_]; [now right | now left].
Qed.

Lemma rowEntry_amount (i : nat) (row : Row) :
  js_isNaN (Entry.amount (rowEntry h w i row)) = false.
Proof.
  cbn [rowEntry Entry.amount].
  destruct (float w (r_amount row)) as [| | |q]; try reflexivity.
  now destruct (js_truthy (Fin q)).
Qed.

Lemma rowEntry_reminder (i : nat) (row : Row) :
  Api.allowedReminder (Entry.renewDateReminder (rowEntry h w i row)) = true.
Proof.
  cbn [rowEntry Entry.renewDateReminder].
  destruct (Api.allowedReminder (number h (r_renewDateReminder row))) eqn:E;
    [exact E | reflexivity].
Qed.

Lemma entriesFrom_all (P : Entry.t -> Prop) (i : nat) (rows : list Row) :
  (forall j row, P (rowEntry h w j row)) ->
  Forall P (entriesFrom h w i rows).
Proof.
  intros HP. revert i. induction rows as [|row rows IH]; intros i;
    constructor; [apply HP | apply IH].
Qed.

Lemma entriesFrom_length (i : nat) (rows : list Row) :
  List.length (entriesFrom h w i rows) = List.length rows.
Proof.
  revert i. induction rows as [|row rows IH]; intros i; [reflexivity|].
  simpl. now rewrite IH.
Qed.

(** *** The sets *)

Lemma add_length (set : list string) (x : string) :
  Z.of_nat (List.length (JsSet.add set x))
  = Z.of_nat (List.length set) + (if JsSet.has set x then 0 else 1).
Proof.
  unfold JsSet.add. destruct (JsSet.has set x); [lia|].
  rewrite length_app. simpl. lia.
Qed.

Lemma add_present (set : list string) (x : string) :
  JsSet.has set x = true -> JsSet.add set x = set.
Proof. intros H. unfold JsSet.add. now rewrite H. Qed.

(** What [note] does to the three sets and their counters. *)
Lemma note_sets (p : Progress) (e : Entry.t) :
  updatedProperties (note p e)
  = collect always Entry.property (updatedProperties p) e
  /\ updatedIncomeCategories (note p e)
     = collect isIncome Entry.category (updatedIncomeCategories p) e
  /\ updatedExpenseCategories (note p e)
     = collect isExpense Entry.category (updatedExpenseCategories p) e
  /\ newProperties (note p e) - newProperties p
     = Z.of_nat (List.length (updatedProperties (note p e)))
       - Z.of_nat (List.length (updatedProperties p))
  /\ newIncomeCategories (note p e) - newIncomeCategories p
     = Z.of_nat (List.length (updatedIncomeCategories (note p e)))
       - Z.of_nat (List.length (updatedIncomeCategories p))
  /\ newExpenseCategories (note p e) - newExpenseCategories p
     = Z.of_nat (List.length (updatedExpenseCategories (note p e)))
       - Z.of_nat (List.length (updatedExpenseCategories p))
  /\ newEntries (note p e) = newEntries p
  /\ written (note p e) = written p
  /\ waits (note p e) = waits p.
Proof.
  unfold note, noteProperty, noteIncomeCategory, noteExpenseCategory,
    collect, always, isIncome, isExpense.
  destruct (JsSet.has (updatedProperties p) (Entry.property e)) eqn:H1,
    (nonEmpty (Entry.property e)) eqn:N1;
    cbn [negb andb updatedProperties updatedIncomeCategories
         updatedExpenseCategories newProperties newIncomeCategories
         newExpenseCategories newEntries written waits];
    destruct (String.eqb (Entry.type e) "Income") eqn:T1,
      (JsSet.has (updatedIncomeCategories p) (Entry.category e)) eqn:H2,
      (nonEmpty (Entry.category e)) eqn:N2;
    cbn [negb andb updatedProperties updatedIncomeCategories
         updatedExpenseCategories newProperties newIncomeCategories
         newExpenseCategories newEntries written waits];
    destruct (String.eqb (Entry.type e) "Expense") eqn:T2,
      (JsSet.has (updatedExpenseCategories p) (Entry.category e)) eqn:H3;
    cbn [negb andb updatedProperties updatedIncomeCategories
         updatedExpenseCategories newProperties newIncomeCategories
         newExpenseCategories newEntries written waits];
    unfold JsSet.add; rewrite ?H1, ?H2, ?H3, ?length_app;
    cbn [List.length]; repeat split; lia.
Qed.

Lemma collect_fold (counts : Entry.t -> bool) (name : Entry.t -> string)
  (entries : list Entry.t) (set : list string) :
  NoDup set ->
  NoDup (fold_left (collect counts name) entries set)
  /\ forall x, In x (fold_left (collect counts name) entries set)
               <-> In x set \/ named counts name entries x.
Proof.
  revert set. induction entries as [|e entries IH]; intros set Hnd.
  - simpl. split; [exact Hnd|]. intros x. split; [tauto|].
    intros [H|(_ & e & [] & _)]. exact H.
  - cbn [fold_left].
    assert (Hstep : NoDup (collect counts name set e)
                    /\ forall x, In x (collect counts name set e)
                                 <-> In x set
                                     \/ (x <> "" /\ counts e = true
                                         /\ name e = x)).
    { unfold collect. destruct (counts e) eqn:C; cbn [andb].
      - unfold nonEmpty. destruct (String.eqb_spec (name e) "") as [E|E];
          cbn [negb].
        + split; [exact Hnd|]. intros x. split; [tauto|].
          intros [H|(H1 & _ & H2)]; [exact H | congruence].
        + destruct (setAdd_spec set (name e) Hnd) as [H1 H2].
          split; [exact H1|]. intros x. rewrite H2. split.
          * intros [H| ->]; [now left | right; auto].
          * intros [H|(_ & _ & H)]; [now left | now right].
      - split; [exact Hnd|]. intros x. split; [tauto|].
        intros [H|(_ & H & _)]; [exact H | discriminate]. }
    destruct Hstep as [Hnd' Hin]. destruct (IH _ Hnd') as [H1 H2].
    split; [exact H1|]. intros x. rewrite H2, Hin. unfold named. split.
    + intros [[H|(Hx & Hc & Hn)]|(Hx & e' & He' & Hc & Hn)].
      * now left.
      * right. split; [exact Hx|]. exists e. split; [now left | auto].
      * right. split; [exact Hx|]. exists e'. split; [now right | auto].
    + intros [H|(Hx & e' & [<-|He'] & Hc & Hn)].
      * left. now left.
      * left. right. auto.
      * right. split; [exact Hx|]. now exists e'.
Qed.

Lemma grown_sorted (old : list string) (counts : Entry.t -> bool)
  (name : Entry.t -> string) (entries : list Entry.t) (count : Z) :
  count
  = Z.of_nat
      (List.length (fold_left (collect counts name) entries (JsSet.ofList old)))
    - Z.of_nat (List.length (JsSet.ofList old)) ->
  grown old counts name entries
    (js_sort SettingsForm.defaultCompare
       (fold_left (collect counts name) entries (JsSet.ofList old)))
    count.
Proof.
  intros Hc.
  destruct (fold_setAdd old [] (NoDup_nil _)) as [Hnd0 Hin0].
  fold (JsSet.ofList old) in Hnd0, Hin0.
  destruct (collect_fold counts name entries _ Hnd0) as [Hnd Hin].
  set (set' := fold_left (collect counts name) entries (JsSet.ofList old))
    in *.
  pose proof (js_sort_perm SettingsForm.defaultCompare set') as Hperm.
  split; [apply default_sorted|]. split.
  - apply (Permutation_NoDup (Permutation_sym Hperm) Hnd).
  - split.
    + intros x. rewrite js_sort_in, Hin, Hin0. simpl. tauto.
    + rewrite (Permutation_length Hperm). exact Hc.
Qed.

Lemma Forall_firstn_of {B : Type} (P : B -> Prop) (k : nat) (l : list B) :
  Forall P l -> Forall P (firstn k l).
Proof.
  intros H. rewrite <- (firstn_skipn k l) in H.
  apply Forall_app in H. apply H.
Qed.

(** *** The loop *)

Lemma twice_spec (attempt : Z -> bool) :
  match twice attempt with
  | Some _ => succeeds attempt = true
  | None => succeeds attempt = false
  end.
Proof.
  unfold twice, succeeds. destruct (attempt 1); [reflexivity|].
  now destruct (attempt 2).
Qed.

Lemma importRows_prefix (rows : list Row) (i : nat) (p : Progress) :
  exists k,
    (k <= List.length rows)%nat
    /\ written (fst (importRows h w i rows p))
       = (written p ++ firstn k (entriesFrom h w i rows))%list
    /\ (forall j, (j < k)%nat -> succeeds (addDoc w (i + j)) = true)
    /\ (snd (importRows h w i rows p) = true -> k = List.length rows)
    /\ (snd (importRows h w i rows p) = false ->
        (k < List.length rows)%nat /\ succeeds (addDoc w (i + k)) = false).
Proof.
  revert i p. induction rows as [|row rows IH]; intros i p.
  - exists 0%nat. cbn. rewrite app_nil_r.
    repeat split; trivial; try lia; discriminate.
  - cbn [importRows]. pose proof (twice_spec (addDoc w i)) as Ht.
    destruct (note_sets p (rowEntry h w i row))
      as (_ & _ & _ & _ & _ & _ & _ & Hw & _).
    destruct (twice (addDoc w i)) as [ws|].
    + destruct (IH (S i)
                  (added (note p (rowEntry h w i row)) (rowEntry h w i row) ws))
        as (k & Hk & Hwr & Hok & Hfin & Hfail).
      exists (S k). split; [simpl; lia|]. split.
      * rewrite Hwr. cbn [added written firstn entriesFrom].
        rewrite Hw, <- app_assoc. reflexivity.
      * split; [|split].
        -- intros [|j] Hj; [now rewrite Nat.add_0_r|].
           replace (i + S j)%nat with (S i + j)%nat by lia.
           apply Hok. lia.
        -- intros H. simpl. now rewrite Hfin.
        -- intros H. destruct (Hfail H) as [H1 H2]. split; [simpl; lia|].
           now replace (i + S k)%nat with (S i + k)%nat by lia.
    + exists 0%nat. cbn [fst snd waited written firstn]. split; [lia|].
      split; [now rewrite Hw, app_nil_r|].
      split; [intros j Hj; lia|]. split; [discriminate|].
      intros _. split; [simpl; lia | now rewrite Nat.add_0_r].
Qed.

Lemma importRows_finished (rows : list Row) (i : nat) (p : Progress) :
  snd (importRows h w i rows p) = true ->
  let p' := fst (importRows h w i rows p) in
  let entries := entriesFrom h w i rows in
  newEntries p' = newEntries p + Z.of_nat (List.length rows)
  /\ updatedProperties p'
     = fold_left (collect always Entry.property) entries (updatedProperties p)
  /\ updatedIncomeCategories p'
     = fold_left (collect isIncome Entry.category) entries
         (updatedIncomeCategories p)
  /\ updatedExpenseCategories p'
     = fold_left (collect isExpense Entry.category) entries
         (updatedExpenseCategories p)
  /\ newProperties p' - newProperties p
     = Z.of_nat (List.length (updatedProperties p'))
       - Z.of_nat (List.length (updatedProperties p))
  /\ newIncomeCategories p' - newIncomeCategories p
     = Z.of_nat (List.length (updatedIncomeCategories p'))
       - Z.of_nat (List.length (updatedIncomeCategories p))
  /\ newExpenseCategories p' - newExpenseCategories p
     = Z.of_nat (List.length (updatedExpenseCategories p'))
       - Z.of_nat (List.length (updatedExpenseCategories p)).
Proof.
  revert i p. induction rows as [|row rows IH]; intros i p Hfin.
  - cbn. repeat split; lia.
  - cbn [importRows] in *.
    destruct (note_sets p (rowEntry h w i row))
      as (S1 & S2 & S3 & C1 & C2 & C3 & Hn & _ & _).
    destruct (twice (addDoc w i)) as [ws|]; [|discriminate].
    specialize (IH (S i) _ Hfin). cbv zeta in IH.
    destruct IH as (I0 & I1 & I2 & I3 & I4 & I5 & I6).
    cbn [added newEntries updatedProperties updatedIncomeCategories
         updatedExpenseCategories newProperties newIncomeCategories
         newExpenseCategories] in I0, I1, I2, I3, I4, I5, I6.
    cbv zeta. cbn [entriesFrom fold_left List.length].
    rewrite <- S1, <- S2, <- S3.
    repeat split; try assumption; lia.
Qed.

End Importing.


(** X19. An import stores the entries of the rows one after the other and
    stops at the first row that the store refuses twice: what has reached
    the store is then the entries of the rows before it, and stays there
    although the import is reported as failed.  Every entry stored has
    type Income or Expense, a reminder among 0, 5, 10 and 15 and an
    amount that is a number. *)
Theorem import_stores_a_prefix (h : Host) (w : CsvImport.World)
  (current : CsvImport.SettingsData) (data : list CsvImport.Row) :
  let out := CsvImport.handleCSVImport h w current data in
  exists k,
    (k <= List.length data)%nat
    /\ fst (fst out) = firstn k (CsvImportSpec.entriesFrom h w 0 data)
    /\ (forall j, (j < k)%nat ->
          CsvImportSpec.succeeds (CsvImport.addDoc w j) = true)
    /\ ((k < List.length data)%nat ->
        CsvImportSpec.succeeds (CsvImport.addDoc w k) = false
        /\ snd out = CsvImport.Failed)
    /\ (k = List.length data ->
        (snd out <> CsvImport.Failed
         <-> CsvImportSpec.succeeds (CsvImport.saveSettings w) = true))
    /\ Forall
         (fun e =>
            (Entry.type e = "Income" \/ Entry.type e = "Expense")
            /\ Api.allowedReminder (Entry.renewDateReminder e) = true
            /\ js_isNaN (Entry.amount e) = false)
         (fst (fst out)).
Proof.
  intros out. subst out. unfold CsvImport.handleCSVImport.
  destruct (importRows_prefix h w data 0 (CsvImport.start current))
    as (k & Hk & Hwr & Hok & Hfin & Hfail).
  pose proof (twice_spec (CsvImport.saveSettings w)) as Hsave.
  destruct (CsvImport.importRows h w 0 data (CsvImport.start current))
    as [p fin].
  cbn [fst snd CsvImport.start CsvImport.written app] in Hwr, Hfin, Hfail.
  assert (Hall : Forall
                   (fun e =>
                      (Entry.type e = "Income" \/ Entry.type e = "Expense")
                      /\ Api.allowedReminder (Entry.renewDateReminder e) = true
                      /\ js_isNaN (Entry.amount e) = false)
                   (CsvImport.written p)).
  { rewrite Hwr. apply Forall_firstn_of.
    apply entriesFrom_all. intros j row.
    split; [apply rowEntry_type|].
    split; [apply rowEntry_reminder | apply rowEntry_amount]. }
  exists k. destruct fin.
  - specialize (Hfin eq_refl).
    destruct (CsvImport.twice (CsvImport.saveSettings w)) as [ws|];
      cbn [fst snd]; (split; [exact Hk|]); (split; [exact Hwr|]);
      (split; [exact Hok|]); (split; [intros; lia|]);
      (split; [|exact Hall]); intros _; rewrite Hsave;
      split; congruence.
  - destruct (Hfail eq_refl) as [H1 H2]. cbn [fst snd].
    split; [exact Hk|]. split; [exact Hwr|]. split; [exact Hok|].
    split; [intros _; now split|]. split; [intros; lia | exact Hall].
Qed.

(** X20. When an import is reported as done, every row has been stored, the
    count of entries is the number of rows, and each list of the settings
    is the old list with the names the entries add (properties from all
    entries, categories from the entries of the type), each name once and
    in the order of code units; the count reported with a list is the
    number of names that are new to it. *)
Theorem import_report (h : Host) (w : CsvImport.World)
  (current settings : CsvImport.SettingsData) (data : list CsvImport.Row)
  (stored : list Entry.t) (waits : list Z)
  (entries properties incomeCategories expenseCategories : Z) :
  CsvImport.handleCSVImport h w current data
  = (stored, waits,
     CsvImport.Imported settings entries properties incomeCategories
       expenseCategories) ->
  stored = CsvImportSpec.entriesFrom h w 0 data
  /\ entries = Z.of_nat (List.length data)
  /\ CsvImport.pdfTemplate settings = CsvImport.pdfTemplate current
  /\ CsvImport.pdfFilename settings = CsvImport.pdfFilename current
  /\ ImportedList.grown (CsvImport.properties current)
       CsvImportSpec.always Entry.property stored
       (CsvImport.properties settings) properties
  /\ ImportedList.grown (CsvImport.incomeCategories current)
       CsvImportSpec.isIncome Entry.category stored
       (CsvImport.incomeCategories settings) incomeCategories
  /\ ImportedList.grown (CsvImport.expenseCategories current)
       CsvImportSpec.isExpense Entry.category stored
       (CsvImport.expenseCategories settings) expenseCategories.
Proof.
  unfold CsvImport.handleCSVImport.
  destruct (importRows_prefix h w data 0 (CsvImport.start current))
    as (k & Hk & Hwr & _ & Hfin & _).
  pose proof (importRows_finished h w data 0 (CsvImport.start current))
    as Hdone.
  destruct (CsvImport.importRows h w 0 data (CsvImport.start current))
    as [p fin].
  cbn [fst snd CsvImport.start CsvImport.written app] in Hwr, Hfin, Hdone.
  destruct fin; [|discriminate].
  destruct (CsvImport.twice (CsvImport.saveSettings w)) as [ws|];
    [|discriminate].
  intros E. injection E as <- _ <- <- <- <- <-.
  specialize (Hfin eq_refl). specialize (Hdone eq_refl). cbv zeta in Hdone.
  cbn [CsvImport.start CsvImport.newEntries CsvImport.updatedProperties
       CsvImport.updatedIncomeCategories CsvImport.updatedExpenseCategories
       CsvImport.newProperties CsvImport.newIncomeCategories
       CsvImport.newExpenseCategories] in Hdone.
  destruct Hdone as (D0 & D1 & D2 & D3 & D4 & D5 & D6).
  assert (Hst : CsvImport.written p = CsvImportSpec.entriesFrom h w 0 data).
  { rewrite Hwr, Hfin. apply firstn_all2.
    now rewrite entriesFrom_length. }
  split; [exact Hst|]. split; [lia|].
  split; [reflexivity|]. split; [reflexivity|].
  cbn [CsvImport.updatedSettings CsvImport.properties
       CsvImport.incomeCategories CsvImport.expenseCategories].
  rewrite Hst, D1, D2, D3.
  split; [|split]; apply grown_sorted.
  - rewrite <- D1. lia.
  - rewrite <- D2. lia.
  - rewrite <- D3. lia.
Qed.

Lemma import_report_witness :
  exists settings stored waits entries properties incomes expenses,
    CsvImport.handleCSVImport RefHost.host ImportScenario.world
      ImportScenario.current ImportScenario.data
    = (stored, waits,
       CsvImport.Imported settings entries properties incomes expenses)
    /\ entries = 3.
Proof.
  do 7 eexists.
  assert (H : CsvImport.handleCSVImport RefHost.host ImportScenario.world
                ImportScenario.current ImportScenario.data
              = (_, _, CsvImport.Imported _ _ _ _ _)) by (vm_compute; reflexivity).
  split; [exact H|].
  exact (proj1 (proj2 (import_report _ _ _ _ _ _ _ _ _ _ _ H))).
Defined.

(** ** The time windows of the dashboard *)

Section Windows.

Context (h : Host).

Lemma dashboard_kept_iff (f : string) (cr : Dashboard.CustomRange) (now : Z)
  (es : list Entry.t) (e : Entry.t) :
  In e (fst (Dashboard.filteredEntries h f cr now es))
  <-> In e es /\ fst (Dashboard.keeps h f cr now e) = true.
Proof.
  induction es as [|x es IH]; [simpl; tauto|].
  rewrite dashboard_filter_cons. cbn [fst].
  destruct (fst (Dashboard.keeps h f cr now x)) eqn:K.
  - cbn [In]. rewrite IH. split.
    + intros [<-|[H1 H2]]; [split; [now left | exact K] | split; [now right | exact H2]].
    + intros [[<-|H1] H2]; [now left | right; now split].
  - rewrite IH. cbn [In]. split.
    + intros [H1 H2]. split; [now right | exact H2].
    + intros [[<-|H1] H2]; [congruence | now split].
Qed.

Lemma seven_in_thirty (cr : Dashboard.CustomRange) (now : Z) (e : Entry.t) :
  (forall t a b, a <= b -> date_setDate h t a <= date_setDate h t b) ->
  fst (Dashboard.keeps h "Last 7 Days" cr now e) = true ->
  fst (Dashboard.keeps h "Last 30 Days" cr now e) = true.
Proof.
  intros Hmono. unfold Dashboard.keeps.
  destruct (date_parse h (Entry.date e)) as [t|]; [|trivial].
  unfold Dashboard.inWindow.
  cbn [String.eqb Ascii.eqb Bool.eqb andb fst].
  rewrite !andb_true_iff, !Z.leb_le. intros [H1 H2]. split; [|exact H2].
  pose proof (Hmono now (date_getDate h now - 30) (date_getDate h now - 7)
                ltac:(lia)).
  lia.
Qed.

End Windows.

(** X21. On a runtime where [setDate] with a later day gives a later time,
    every entry shown for the last seven days is shown for the last
    thirty. *)
Theorem last_seven_within_thirty (h : Host) (cr : Dashboard.CustomRange)
  (now : Z) (es : list Entry.t) (e : Entry.t) :
  (forall t a b, a <= b -> date_setDate h t a <= date_setDate h t b) ->
  In e (fst (Dashboard.filteredEntries h "Last 7 Days" cr now es)) ->
  In e (fst (Dashboard.filteredEntries h "Last 30 Days" cr now es)).
Proof.
  intros Hmono Hin. apply dashboard_kept_iff in Hin as [H1 H2].
  apply dashboard_kept_iff. split; [exact H1|].
  now apply seven_in_thirty.
Qed.

Lemma last_seven_within_thirty_witness :
  In (ChartScenario.entry "a" "Income" "Home" 1000)
    (fst (Dashboard.filteredEntries RefHost.host "Last 30 Days"
            {| Dashboard.startDate := 0; Dashboard.endDate := 0 |}
            1705536000000 ChartScenario.entries)).
Proof.
  apply (last_seven_within_thirty RefHost.host).
  - intros t a b Hab. cbn [date_setDate RefHost.host].
    unfold RefHost.setDate, RefHost.msPerDay. lia.
  - vm_compute. auto.
Defined.

(** ** The months of the filter menu *)

Section MonthMenu.

Import Months MonthSpec.

Context (h : Host).

(** *** A label, taken apart *)

Lemma replaceFirstSpace_label (month year : string) :
  lacks " " month = true ->
  replaceFirstSpace (month ++ " " ++ year) = month ++ "-" ++ year.
Proof.
  induction month as [|c month IH]; [reflexivity|]. cbn [lacks].
  intros H. apply andb_true_iff in H as [H1 H2].
  apply negb_true_iff in H1.
  cbn [append replaceFirstSpace]. rewrite H1. f_equal. now apply IH.
Qed.

Lemma splitDash_single (s : string) : lacks "-" s = true -> splitDash s = [s].
Proof.
  induction s as [|c s IH]; [reflexivity|]. cbn [lacks].
  intros H. apply andb_true_iff in H as [H1 H2].
  apply negb_true_iff in H1.
  cbn [splitDash]. rewrite H1, IH by exact H2. reflexivity.
Qed.

Lemma splitDash_label (month year : string) :
  lacks "-" month = true -> lacks "-" year = true ->
  splitDash (month ++ "-" ++ year) = [month; year].
Proof.
  intros Hm Hy. induction month as [|c month IH].
  - cbn [append splitDash Ascii.eqb Bool.eqb]. now rewrite splitDash_single.
  - cbn [lacks] in Hm. apply andb_true_iff in Hm as [H1 H2].
    apply negb_true_iff in H1.
    cbn [append splitDash]. rewrite H1.
    change (month ++ String "-" year) with (month ++ "-" ++ year).
    rewrite IH by exact H2. reflexivity.
Qed.

Lemma label_parts (month month' year year' : string) :
  lacks " " month = true -> lacks " " month' = true ->
  month ++ " " ++ year = month' ++ " " ++ year' ->
  month = month' /\ year = year'.
Proof.
  revert month'. induction month as [|c month IH]; intros [|c' month'];
    cbn [lacks append]; intros H1 H2 E.
  - injection E as E. now split.
  - injection E as Ec E. subst c'. discriminate.
  - injection E as Ec E. subst c. discriminate.
  - injection E as Ec E. subst c'.
    apply andb_true_iff in H1 as [_ H1]. apply andb_true_iff in H2 as [_ H2].
    destruct (IH month' H1 H2 E) as [-> ->]. now split.
Qed.

Lemma not_fixed (label : string) :
  ~ In label fixedFilters ->
  String.eqb label "Last 7 Days" = false
  /\ String.eqb label "Last 30 Days" = false
  /\ String.eqb label "Current Month" = false
  /\ String.eqb label "Current Year" = false
  /\ String.eqb label "Custom Range" = false.
Proof.
  intros H. repeat split; apply String.eqb_neq; intros ->; apply H;
    unfold fixedFilters; simpl; tauto.
Qed.

(** The window of a month label. *)
Lemma month_window (month year : string) (fm fy : Z)
  (cr : Dashboard.CustomRange) (now t : Z) :
  lacks " " month = true -> lacks "-" month = true ->
  lacks "-" year = true ->
  ~ In (month ++ " " ++ year) fixedFilters ->
  option_map (date_getMonth h) (date_parse h (month ++ " 1, 2000")) = Some fm ->
  parseInt h year = Some fy ->
  Dashboard.inWindow h (month ++ " " ++ year) cr now t
  = ((date_getMonth h t =? fm) && (date_getFullYear h t =? fy), []).
Proof.
  intros Hs Hd Hy Hfix Hm Hp. unfold Dashboard.inWindow.
  destruct (not_fixed _ Hfix) as (E1 & E2 & E3 & E4 & E5).
  rewrite E1, E2, E3, E4, E5.
  rewrite replaceFirstSpace_label by exact Hs.
  rewrite splitDash_label by assumption.
  cbn [nth_error tmpl]. now rewrite Hm, Hp.
Qed.

(** *** The menu *)

Lemma collectMonths_spec (es : list Entry.t) (set log : list string) :
  NoDup set ->
  let out :=
    fold_left
      (fun (st : list string * list string) entry =>
         match date_parse h (Entry.date entry) with
         | None => (fst st, (snd st ++ [Entry.date entry])%list)
         | Some t => (JsSet.add (fst st) (date_monthYear h t), snd st)
         end)
      es (set, log) in
  NoDup (fst out)
  /\ forall label,
       In label (fst out)
       <-> In label set
           \/ exists e t, In e es /\ date_parse h (Entry.date e) = Some t
                          /\ date_monthYear h t = label.
Proof.
  revert set log. induction es as [|e es IH]; intros set log Hnd out.
  - subst out. cbn. split; [exact Hnd|]. intros label. split; [tauto|].
    intros [H|(e & t & [] & _)]. exact H.
  - subst out. cbn [fold_left]. cbn [fst snd].
    destruct (date_parse h (Entry.date e)) as [t|] eqn:Ep.
    + destruct (setAdd_spec set (date_monthYear h t) Hnd) as [Hnd' Hin].
      destruct (IH _ log Hnd') as [H1 H2]. split; [exact H1|].
      intros label. rewrite H2, Hin. split.
      * intros [[H| ->]|(e' & t' & He' & Hp & Hl)].
        -- now left.
        -- right. exists e, t. repeat split; trivial. now left.
        -- right. exists e', t'. repeat split; trivial. now right.
      * intros [H|(e' & t' & [<-|He'] & Hp & Hl)].
        -- left. now left.
        -- left. right. rewrite Ep in Hp. injection Hp as <-. now symmetry.
        -- right. now exists e', t'.
    + destruct (IH set (log ++ [Entry.date e])%list Hnd) as [H1 H2].
      split; [exact H1|]. intros label. rewrite H2. split.
      * intros [H|(e' & t' & He' & Hp & Hl)]; [now left|].
        right. exists e', t'. repeat split; trivial. now right.
      * intros [H|(e' & t' & [<-|He'] & Hp & Hl)]; [now left | congruence |].
        right. now exists e', t'.
Qed.

Lemma uniqueMonths_spec (es : list Entry.t) :
  NoDup (uniqueMonths h es)
  /\ forall label,
       In label (uniqueMonths h es)
       <-> exists e t, In e es /\ date_parse h (Entry.date e) = Some t
                       /\ date_monthYear h t = label.
Proof.
  unfold uniqueMonths, collectMonths.
  destruct (collectMonths_spec es [] [] (NoDup_nil _)) as [H1 H2].
  cbv zeta in H1, H2. split.
  - eapply Permutation_NoDup; [|exact H1].
    apply Permutation_sym, js_sort_perm.
  - intros label. rewrite js_sort_in, H2. simpl. tauto.
Qed.

Lemma month_kept (cr : Dashboard.CustomRange) (now : Z) (es : list Entry.t)
  (e0 : Entry.t) (t0 : Z) (e : Entry.t) :
  (forall e t, In e es -> date_parse h (Entry.date e) = Some t ->
               readsBack h t) ->
  (forall e e' t t', In e es -> In e' es ->
     date_parse h (Entry.date e) = Some t ->
     date_parse h (Entry.date e') = Some t' -> sameLabel h t t') ->
  In e0 es -> date_parse h (Entry.date e0) = Some t0 ->
  (In e (fst (Dashboard.filteredEntries h (date_monthYear h t0) cr now es))
   <-> In e es
       /\ exists t, date_parse h (Entry.date e) = Some t
                    /\ date_monthYear h t = date_monthYear h t0).
Proof.
  intros Hrb Hsl He0 Hp0. rewrite dashboard_kept_iff.
  destruct (Hrb e0 t0 He0 Hp0) as (m & y & El & Hs & Hd & Hy & Hfix & Hm & Hy').
  split.
  - intros [He Hk]. split; [exact He|]. unfold Dashboard.keeps in Hk.
    destruct (date_parse h (Entry.date e)) as [t|] eqn:Ep; [|discriminate].
    exists t. split; [reflexivity|].
    rewrite El in Hk.
    rewrite (month_window m y _ _ cr now t Hs Hd Hy Hfix Hm Hy') in Hk.
    cbn [fst] in Hk. apply andb_true_iff in Hk as [K1 K2].
    apply Z.eqb_eq in K1, K2.
    now apply (Hsl e e0 t t0 He He0 Ep Hp0).
  - intros [He (t & Ep & El')]. split; [exact He|].
    unfold Dashboard.keeps. rewrite Ep, El.
    rewrite (month_window m y _ _ cr now t Hs Hd Hy Hfix Hm Hy').
    cbn [fst].
    destruct (Hrb e t He Ep)
      as (m' & y' & El2 & Hs2 & _ & _ & _ & Hm2 & Hy2).
    rewrite El, El2 in El'.
    destruct (label_parts m' m y' y Hs2 Hs El') as [-> ->].
    rewrite Hm in Hm2. injection Hm2 as ->.
    rewrite Hy' in Hy2. injection Hy2 as ->.
    now rewrite !Z.eqb_refl.
Qed.

End MonthMenu.

(** X22. On a runtime that prints the month of a date as a month name and
    a year and reads them back, each month of the filter menu is listed
    once, and choosing it shows exactly the entries whose date has that
    month label, of which there is at least one. *)
Theorem month_filter_shows_its_month (h : Host) (cr : Dashboard.CustomRange)
  (now : Z) (es : list Entry.t) :
  (forall e t, In e es -> date_parse h (Entry.date e) = Some t ->
               MonthSpec.readsBack h t) ->
  (forall e e' t t', In e es -> In e' es ->
     date_parse h (Entry.date e) = Some t ->
     date_parse h (Entry.date e') = Some t' -> MonthSpec.sameLabel h t t') ->
  NoDup (Months.uniqueMonths h es)
  /\ forall label, In label (Months.uniqueMonths h es) ->
       (exists e, In e (fst (Dashboard.filteredEntries h label cr now es)))
       /\ forall e,
            In e (fst (Dashboard.filteredEntries h label cr now es))
            <-> In e es
                /\ exists t, date_parse h (Entry.date e) = Some t
                             /\ date_monthYear h t = label.
Proof.
  intros Hrb Hsl. destruct (uniqueMonths_spec h es) as [Hnd Hin].
  split; [exact Hnd|]. intros label Hl.
  apply Hin in Hl as (e0 & t0 & He0 & Hp0 & <-).
  pose proof (month_kept h cr now es e0 t0) as Hk.
  split.
  - exists e0. apply (Hk e0 Hrb Hsl He0 Hp0). split; [exact He0|].
    now exists t0.
  - intros e. now apply Hk.
Qed.

Lemma month_filter_shows_its_month_witness :
  NoDup (Months.uniqueMonths LegacyHost.host ChartScenario.entries)
  /\ In "Jan 2024" (Months.uniqueMonths LegacyHost.host ChartScenario.entries).
Proof.
  split; [|vm_compute; auto].
  apply (month_filter_shows_its_month LegacyHost.host
           {| Dashboard.startDate := 0; Dashboard.endDate := 0 |} 0
           ChartScenario.entries).
  - intros e t He Hp. exists "Jan", "2024".
    repeat destruct He as [<-|He]; try contradiction;
      vm_compute in Hp; injection Hp as <-;
      (split; [reflexivity|]); (split; [reflexivity|]);
      (split; [reflexivity|]); (split; [reflexivity|]);
      (split; [|split; reflexivity]);
      intros H; repeat destruct H as [H|H]; try discriminate; contradiction.
  - intros e e' t t' He He' Hp Hp' _ _.
    repeat destruct He as [<-|He]; try contradiction;
      repeat destruct He' as [<-|He']; try contradiction;
      vm_compute in Hp, Hp'; injection Hp as <-; injection Hp' as <-;
      reflexivity.
Defined.
